(** * A shallow embedding of the per-channel chat actor

    The actor is the Durable Object class [ChatRoom] of
    [src/durable-objects/ChatRoom.ts], the class the worker entry point
    [src/index.ts] exports.  The repository also carries an older copy of the
    class ([durable-objects/ChatRoom.ts]); the places where that copy behaves
    differently are embedded in [Module Legacy] below.

    Embedded: the constructor, the message listener and dispatcher, the seven
    command handlers, [sendToUser], [broadcast], [handleSession],
    [handleDisconnect], the typing timers and the history query.  Left out:
    the heartbeat interval, URL and JSON parsing, logging, and the worker's
    routing and attachment endpoints.

    Conventions of the embedding.
    - A JS string is a Rocq [string]; every [ascii] stands for one UTF-16 code
      unit below 256, so [String.length] is JS [.length].
    - An optional field ([content?: string]) is an [option].  JS truthiness of
      such a field ([!x], [x || d]) is [truthy]: [undefined] and the empty
      string are falsy.
    - [Record<string, string[]>] (the reactions of a message) is a
      [gmap string (list string)]: own properties only, reaction keys are not
      names inherited from [Object.prototype].
    - [Map<string, WebSocket>] is an association list in insertion order,
      which is the order [Map.prototype.forEach] visits.
    - The [messages] table is the list of its rows; a statement is a function
      on that list.
    - What the platform decides during one command (the fresh UUID, the
      clock, whether the D1 statement or the storage put rejects) is an
      [Oracle] handed to the handler.
    - A handler is a state transformer that either returns or throws
      ([Act]); the state holds the instance fields together with the durable
      stores, the pending timers and the frames delivered so far.
    - A command runs to completion before the next one starts; what another
      event could do while a handler awaits the table is not modelled. *)

From Stdlib Require Import ZArith Ascii String.
From stdpp Require Import base option list sorting gmap strings.

Local Open Scope string_scope.
Local Open Scope list_scope.
Local Open Scope nat_scope.

(** ** JavaScript strings *)

(** [!x] is false exactly for a present, non-empty string. *)
Definition truthy (x : option string) : bool :=
  match x with
  | Some s => negb (String.eqb s "")
  | None => false
  end.

(** [x || d] on an optional string. *)
Definition orElse (x : option string) (d : string) : string :=
  match x with
  | Some s => if String.eqb s "" then d else s
  | None => d
  end.

(** [x || null], as bound to a nullable column. *)
Definition orNull (x : option string) : option string :=
  if truthy x then x else None.

(** White space removed by [String.prototype.trim], among code units < 256. *)
Definition isWhiteSpace (c : ascii) : bool :=
  let n := N_of_ascii c in
  (N.leb 9 n && N.leb n 13) || N.eqb n 32 || N.eqb n 160.

Fixpoint trimStart (s : string) : string :=
  match s with
  | String c s' => if isWhiteSpace c then trimStart s' else s
  | EmptyString => EmptyString
  end.

Definition trimEnd (s : string) : string :=
  String.rev (trimStart (String.rev s)).

Definition trim (s : string) : string := trimEnd (trimStart s).

(** ** Data model ([src/types.ts]) *)

Module UserInfo.
Record t := mk { uid : string; username : string; profileImage : string }.
End UserInfo.

Module Message.
Record t := mk {
  id : string;
  channelId : string;
  userId : string;
  content : string;
  timestamp : string;
  edited : bool;
  editedAt : option string;
  deleted : bool;
  threadId : option string;
  replyTo : option string;
  attachments : list string;
  reactions : gmap string (list string);
  mentions : list string;
  user : UserInfo.t
}.

Definition set_reactions (f : gmap string (list string) → gmap string (list string))
    (m : t) : t :=
  mk (id m) (channelId m) (userId m) (content m) (timestamp m) (edited m)
     (editedAt m) (deleted m) (threadId m) (replyTo m) (attachments m)
     (f (reactions m)) (mentions m) (user m).

(** The three assignments of [handleEditMessage]. *)
Definition edit (newContent at_ : string) (m : t) : t :=
  mk (id m) (channelId m) (userId m) newContent (timestamp m) true
     (Some at_) (deleted m) (threadId m) (replyTo m) (attachments m)
     (reactions m) (mentions m) (user m).

Definition set_deleted (b : bool) (m : t) : t :=
  mk (id m) (channelId m) (userId m) (content m) (timestamp m) (edited m)
     (editedAt m) b (threadId m) (replyTo m) (attachments m)
     (reactions m) (mentions m) (user m).
End Message.

Module ChannelMember.
Inductive Status := online | offline | away.
Record t := mk { id : string; username : string; avatar : string; status : Status }.
End ChannelMember.

Module WSMessage.
Record t := mk {
  type : string;
  content : option string;
  messageId : option string;
  threadId : option string;
  replyTo : option string;
  attachments : option (list string);
  reaction : option string;
  mentions : option (list string)
}.
End WSMessage.

(** Outbound events, one constructor per [type] the actor emits. *)
Inductive WSResponse :=
  | init (messages : list Message.t)
  | user_list (users : list UserInfo.t)
  | user_joined (user : UserInfo.t)
  | user_left (userId : string)
  | new_message (message : Message.t)
  | message_edited (message : Message.t)
  | message_deleted (messageId : string)
  | typing_start (userId : string)
  | typing_stop (userId : string)
  | reaction_added (messageId reaction userId : string)
  | reaction_removed (messageId reaction userId : string)
  | error (message : string)
  | ping
  | pong.

(** ** The [messages] table ([src/migrations/001_create_messages_table.sql]) *)

Module DbRow.
Record t := mk {
  id : string;
  channelId : string;
  userId : string;
  content : string;
  timestamp : string;
  replyTo : option string;
  threadId : option string;
  edited : bool;
  editedAt : option string;
  deleted : bool;
  username : option string;
  profileImage : option string
}.

Definition set_deleted (r : t) : t :=
  mk (id r) (channelId r) (userId r) (content r) (timestamp r) (replyTo r)
     (threadId r) (edited r) (editedAt r) true (username r) (profileImage r).

Definition set_edited (newContent at_ : string) (r : t) : t :=
  mk (id r) (channelId r) (userId r) newContent (timestamp r) (replyTo r)
     (threadId r) true (Some at_) (deleted r) (username r) (profileImage r).
End DbRow.

(** ** Connections *)

(** [readyState] as the platform numbers it; [sendThrows] tells whether
    [ws.send] raises on this socket. *)
Record WebSocket := { readyState : nat; sendThrows : bool }.

Definition READY_STATE_OPEN : nat := 1.

Definition isOpen (ws : WebSocket) : bool := Nat.eqb (readyState ws) READY_STATE_OPEN.

(** ** Environment and durable key-value storage *)

(** [parseInt(env.MAX_MESSAGE_LENGTH)]; [None] is [NaN]. *)
Record Env := { MAX_MESSAGE_LENGTH : option Z }.

Record Storage := {
  stored_messages : option (list Message.t);
  stored_channelId : option string;
  stored_members : option (list (string * ChannelMember.t))
}.

Record Oracle := {
  randomUUID : string;
  now : string;
  dbThrows : bool;
  putThrows : bool
}.

(** ** The actor *)

Record ChatRoom := {
  env : Env;
  sessions : list (string * WebSocket);
  members : gmap string ChannelMember.t;
  messages : list Message.t;
  typingUsers : gset string;
  channelId : string;
  typingTimeouts : gmap string nat;
  (* the world the instance acts on *)
  storage : Storage;
  DB : list DbRow.t;
  timers : gmap nat string;
  nextTimer : nat;
  wire : list (string * WSResponse)
}.

Definition set_sessions (f : list (string * WebSocket) → list (string * WebSocket))
    (st : ChatRoom) : ChatRoom :=
  {| env := env st; sessions := f (sessions st); members := members st;
     messages := messages st; typingUsers := typingUsers st;
     channelId := channelId st; typingTimeouts := typingTimeouts st;
     storage := storage st; DB := DB st; timers := timers st;
     nextTimer := nextTimer st; wire := wire st |}.

Definition set_messages (f : list Message.t → list Message.t) (st : ChatRoom) : ChatRoom :=
  {| env := env st; sessions := sessions st; members := members st;
     messages := f (messages st); typingUsers := typingUsers st;
     channelId := channelId st; typingTimeouts := typingTimeouts st;
     storage := storage st; DB := DB st; timers := timers st;
     nextTimer := nextTimer st; wire := wire st |}.

Definition set_typingUsers (f : gset string → gset string) (st : ChatRoom) : ChatRoom :=
  {| env := env st; sessions := sessions st; members := members st;
     messages := messages st; typingUsers := f (typingUsers st);
     channelId := channelId st; typingTimeouts := typingTimeouts st;
     storage := storage st; DB := DB st; timers := timers st;
     nextTimer := nextTimer st; wire := wire st |}.

Definition set_typingTimeouts (f : gmap string nat → gmap string nat) (st : ChatRoom)
    : ChatRoom :=
  {| env := env st; sessions := sessions st; members := members st;
     messages := messages st; typingUsers := typingUsers st;
     channelId := channelId st; typingTimeouts := f (typingTimeouts st);
     storage := storage st; DB := DB st; timers := timers st;
     nextTimer := nextTimer st; wire := wire st |}.

Definition set_storage (f : Storage → Storage) (st : ChatRoom) : ChatRoom :=
  {| env := env st; sessions := sessions st; members := members st;
     messages := messages st; typingUsers := typingUsers st;
     channelId := channelId st; typingTimeouts := typingTimeouts st;
     storage := f (storage st); DB := DB st; timers := timers st;
     nextTimer := nextTimer st; wire := wire st |}.

Definition set_DB (f : list DbRow.t → list DbRow.t) (st : ChatRoom) : ChatRoom :=
  {| env := env st; sessions := sessions st; members := members st;
     messages := messages st; typingUsers := typingUsers st;
     channelId := channelId st; typingTimeouts := typingTimeouts st;
     storage := storage st; DB := f (DB st); timers := timers st;
     nextTimer := nextTimer st; wire := wire st |}.

Definition set_timers (f : gmap nat string → gmap nat string) (g : nat → nat)
    (st : ChatRoom) : ChatRoom :=
  {| env := env st; sessions := sessions st; members := members st;
     messages := messages st; typingUsers := typingUsers st;
     channelId := channelId st; typingTimeouts := typingTimeouts st;
     storage := storage st; DB := DB st; timers := f (timers st);
     nextTimer := g (nextTimer st); wire := wire st |}.

Definition set_wire (f : list (string * WSResponse) → list (string * WSResponse))
    (st : ChatRoom) : ChatRoom :=
  {| env := env st; sessions := sessions st; members := members st;
     messages := messages st; typingUsers := typingUsers st;
     channelId := channelId st; typingTimeouts := typingTimeouts st;
     storage := storage st; DB := DB st; timers := timers st;
     nextTimer := nextTimer st; wire := f (wire st) |}.

(** ** Actions: state passing with exceptions *)

Inductive Completion (A : Type) :=
  | Returned (a : A)
  | Thrown.
Arguments Returned {A} a.
Arguments Thrown {A}.

Definition Act (A : Type) : Type := ChatRoom → Completion A * ChatRoom.

Definition ret {A} (a : A) : Act A := λ st, (Returned a, st).

Definition bind {A B} (m : Act A) (k : A → Act B) : Act B :=
  λ st, match m st with
        | (Returned a, st') => k a st'
        | (Thrown, st') => (Thrown, st')
        end.

Definition throw {A} : Act A := λ st, (Thrown, st).

Definition gets {A} (f : ChatRoom → A) : Act A := λ st, (Returned (f st), st).

Definition modify (f : ChatRoom → ChatRoom) : Act unit := λ st, (Returned tt, f st).

(** [try { body } catch { handler }]: what [body] did before it threw stays. *)
Definition tryCatch (body handler : Act unit) : Act unit :=
  λ st, match body st with
        | (Returned a, st') => (Returned a, st')
        | (Thrown, st') => handler st'
        end.

Definition when (b : bool) (m : Act unit) : Act unit := if b then m else ret tt.

Notation "x <- m ;; k" := (bind m (λ x, k))
  (at level 100, m at next level, right associativity).
Notation "m ;;; k" := (bind m (λ _, k))
  (at level 100, right associativity).

(** The state an action leaves behind. *)
Definition after {A} (m : Act A) (st : ChatRoom) : ChatRoom := snd (m st).

(** ** [Map<string, V>] in insertion order *)

Fixpoint Map_get {V} (k : string) (m : list (string * V)) : option V :=
  match m with
  | [] => None
  | (k', v) :: m' => if String.eqb k' k then Some v else Map_get k m'
  end.

Definition Map_delete {V} (k : string) (m : list (string * V)) : list (string * V) :=
  List.filter (λ e, negb (String.eqb (fst e) k)) m.

Fixpoint Map_set {V} (k : string) (v : V) (m : list (string * V)) : list (string * V) :=
  match m with
  | [] => [(k, v)]
  | (k', v') :: m' => if String.eqb k' k then (k, v) :: m' else (k', v') :: Map_set k v m'
  end.

Fixpoint forEach {A} (l : list A) (f : A → Act unit) : Act unit :=
  match l with
  | [] => ret tt
  | x :: l' => f x ;;; forEach l' f
  end.

(** ** Delivery: [sendToUser] and [broadcast] *)

(** [ws.send(JSON.stringify(message))] on the socket registered for [userId]:
    the frame reaches the wire unless the socket raises. *)
Definition wsSend (ws : WebSocket) (userId : string) (message : WSResponse) : Act unit :=
  if sendThrows ws then throw
  else modify (set_wire (λ w, w ++ [(userId, message)])).

Definition sendToUser (userId : string) (message : WSResponse) : Act unit :=
  ws <- gets (λ st, Map_get userId (sessions st)) ;;
  match ws with
  | Some ws =>
      when (isOpen ws)
        (tryCatch (wsSend ws userId message)
                  (modify (set_sessions (Map_delete userId))))
  | None => ret tt
  end.

(** The callback [broadcast] hands to [this.sessions.forEach]. *)
Definition broadcastTo (message : WSResponse) (excludeUserId : option string)
    (e : string * WebSocket) : Act unit :=
  let userId := fst e in
  let ws := snd e in
  when (negb (bool_decide (Some userId = excludeUserId)) && isOpen ws)
    (tryCatch (wsSend ws userId message)
              (modify (set_sessions (Map_delete userId)))).

Definition broadcast (message : WSResponse) (excludeUserId : option string) : Act unit :=
  entries <- gets sessions ;;
  forEach entries (broadcastTo message excludeUserId).

(** ** The durable stores *)

(** [await this.state.storage.put('messages', this.messages)] *)
Definition storagePutMessages (o : Oracle) : Act unit :=
  if putThrows o then throw
  else modify (λ st, set_storage (λ s,
         {| stored_messages := Some (messages st);
            stored_channelId := stored_channelId s;
            stored_members := stored_members s |}) st).

(** [await this.env.DB.prepare(...).bind(...).run()]: the statement either
    rejects and leaves the table as it is, or is applied. *)
Definition dbRun (o : Oracle) (statement : list DbRow.t → list DbRow.t) : Act unit :=
  if dbThrows o then throw else modify (set_DB statement).

(** [INSERT INTO messages (...) VALUES (...)] *)
Definition sqlInsert (r : DbRow.t) (db : list DbRow.t) : list DbRow.t := db ++ [r].

(** [UPDATE messages SET content = ?, edited = 1, editedAt = ? WHERE id = ? AND userId = ?] *)
Definition sqlUpdateContent (newContent editedAt messageId userId : string)
    (db : list DbRow.t) : list DbRow.t :=
  List.map (λ r, if String.eqb (DbRow.id r) messageId && String.eqb (DbRow.userId r) userId
                 then DbRow.set_edited newContent editedAt r else r) db.

(** [UPDATE messages SET deleted = 1 WHERE id = ? AND userId = ?] *)
Definition sqlSoftDelete (messageId userId : string) (db : list DbRow.t) : list DbRow.t :=
  List.map (λ r, if String.eqb (DbRow.id r) messageId && String.eqb (DbRow.userId r) userId
                 then DbRow.set_deleted r else r) db.

(** ** Typing indicator *)

(** [setTimeout(() => this.handleTypingStop(userId), 3000)]: a fresh handle,
    pending until it fires or is cleared. *)
Definition setTimeout (userId : string) : Act nat :=
  h <- gets nextTimer ;;
  modify (set_timers (<[h := userId]>) S) ;;;
  ret h.

Definition clearTimeout (h : nat) : Act unit :=
  modify (set_timers (delete h) id).

Definition handleTypingStop (userId : string) : Act unit :=
  typing <- gets (λ st, bool_decide (userId ∈ typingUsers st)) ;;
  if negb typing then ret tt else
  modify (set_typingUsers (λ s, s ∖ {[userId]})) ;;;
  timeout <- gets (λ st, typingTimeouts st !! userId) ;;
  match timeout with
  | Some h =>
      when (negb (Nat.eqb h 0))
        (clearTimeout h ;;; modify (set_typingTimeouts (delete userId)))
  | None => ret tt
  end ;;;
  broadcast (typing_stop userId) (Some userId).

Definition handleTypingStart (userId : string) : Act unit :=
  typing <- gets (λ st, bool_decide (userId ∈ typingUsers st)) ;;
  if typing then ret tt else
  modify (set_typingUsers (λ s, s ∪ {[userId]})) ;;;
  existingTimeout <- gets (λ st, typingTimeouts st !! userId) ;;
  match existingTimeout with
  | Some h => when (negb (Nat.eqb h 0)) (clearTimeout h)
  | None => ret tt
  end ;;;
  timeout <- setTimeout userId ;;
  modify (set_typingTimeouts (<[userId := timeout]>)) ;;;
  broadcast (typing_start userId) (Some userId).

(** The timer callback, run when handle [h] expires. *)
Definition fireTimer (h : nat) : Act unit :=
  pending <- gets (λ st, timers st !! h) ;;
  match pending with
  | Some userId => clearTimeout h ;;; handleTypingStop userId
  | None => ret tt
  end.

(** ** Message commands *)

(** [this.messages.slice(-n)] *)
Definition sliceLast {A} (n : nat) (l : list A) : list A :=
  drop (length l - n) l.

(** [this.messages.findIndex(m => m.id === messageId)] together with the
    element found; [None] is [-1]. *)
Definition findIndex (messageId : string) (l : list Message.t) : option (nat * Message.t) :=
  list_find (λ m, Message.id m = messageId) l.

(** [content.length > parseInt(this.env.MAX_MESSAGE_LENGTH)]; a comparison
    with [NaN] is false. *)
Definition tooLong (e : Env) (content : string) : bool :=
  match MAX_MESSAGE_LENGTH e with
  | Some max => (max <? Z.of_nat (String.length content))%Z
  | None => false
  end.

Definition memberInfo (member : option ChannelMember.t) (userId : string) : UserInfo.t :=
  UserInfo.mk userId
    (orElse (ChannelMember.username <$> member) "User")
    (orElse (ChannelMember.avatar <$> member) "").

Definition newMessage (o : Oracle) (message : WSMessage.t) (userId content : string)
    (st : ChatRoom) : Message.t :=
  Message.mk (randomUUID o) (channelId st) userId content (now o) false None false
    (WSMessage.threadId message) (WSMessage.replyTo message)
    (default [] (WSMessage.attachments message)) ∅
    (default [] (WSMessage.mentions message))
    (memberInfo (members st !! userId) userId).

Definition newRow (o : Oracle) (message : WSMessage.t) (userId content : string)
    (st : ChatRoom) : DbRow.t :=
  let member := members st !! userId in
  DbRow.mk (randomUUID o) (channelId st) userId content (now o)
    (orNull (WSMessage.replyTo message)) (orNull (WSMessage.threadId message))
    false None false
    (Some (orElse (ChannelMember.username <$> member) "User"))
    (Some (orElse (ChannelMember.avatar <$> member) "")).

Definition handleSendMessage (o : Oracle) (message : WSMessage.t) (userId : string)
    : Act unit :=
  let content := trim <$> WSMessage.content message in
  e <- gets env ;;
  if negb (truthy content) || tooLong e (default "" content) then
    sendToUser userId (error "Message content is invalid or too long")
  else
    let content := default "" content in
    fresh <- gets (newMessage o message userId content) ;;
    row <- gets (newRow o message userId content) ;;
    tryCatch
      (dbRun o (sqlInsert row) ;;;
       modify (set_messages (λ l, l ++ [fresh])) ;;;
       len <- gets (λ st, length (messages st)) ;;
       when (Nat.ltb 100 len) (modify (set_messages (sliceLast 50))) ;;;
       storagePutMessages o ;;;
       broadcast (new_message fresh) None ;;;
       handleTypingStop userId)
      (sendToUser userId (error "Failed to send message")).

Definition handleEditMessage (o : Oracle) (message : WSMessage.t) (userId : string)
    : Act unit :=
  let messageId := WSMessage.messageId message in
  let newContent := trim <$> WSMessage.content message in
  if negb (truthy messageId) || negb (truthy newContent) then
    sendToUser userId (error "Invalid edit request")
  else
    let messageId := default "" messageId in
    let newContent := default "" newContent in
    found <- gets (λ st, findIndex messageId (messages st)) ;;
    match found with
    | None => sendToUser userId (error "Message not found or unauthorized")
    | Some (messageIndex, m) =>
        if negb (String.eqb (Message.userId m) userId) then
          sendToUser userId (error "Message not found or unauthorized")
        else
          let editedAt := now o in
          tryCatch
            (dbRun o (sqlUpdateContent newContent editedAt messageId userId) ;;;
             modify (set_messages (alter (Message.edit newContent editedAt) messageIndex)) ;;;
             storagePutMessages o ;;;
             updated <- gets (λ st, messages st !! messageIndex) ;;
             match updated with
             | Some m' => broadcast (message_edited m') None
             | None => ret tt
             end)
            (sendToUser userId (error "Failed to edit message"))
    end.

Definition handleDeleteMessage (o : Oracle) (message : WSMessage.t) (userId : string)
    : Act unit :=
  let messageId := WSMessage.messageId message in
  if negb (truthy messageId) then
    sendToUser userId (error "Invalid delete request")
  else
    let messageId := default "" messageId in
    found <- gets (λ st, findIndex messageId (messages st)) ;;
    match found with
    | None => sendToUser userId (error "Message not found or unauthorized")
    | Some (messageIndex, m) =>
        if negb (String.eqb (Message.userId m) userId) then
          sendToUser userId (error "Message not found or unauthorized")
        else
          tryCatch
            (dbRun o (sqlSoftDelete messageId userId) ;;;
             modify (set_messages (delete messageIndex)) ;;;
             storagePutMessages o ;;;
             broadcast (message_deleted messageId) None)
            (sendToUser userId (error "Failed to delete message"))
    end.

(** ** Reactions *)

(** The names a plain object inherits from [Object.prototype]. *)
Definition prototypeKeys : list string :=
  ["constructor"; "__defineGetter__"; "__defineSetter__"; "hasOwnProperty";
   "__lookupGetter__"; "__lookupSetter__"; "isPrototypeOf"; "propertyIsEnumerable";
   "toString"; "valueOf"; "__proto__"; "toLocaleString"].

(** What [object[key]] evaluates to on a reaction map: the user list of an
    own key; failing that, what [Object.prototype] holds under the name, a
    function or an object, truthy and without [includes] or [filter]; failing
    that, [undefined]. *)
Inductive Property :=
  | Own (users : list string)
  | Inherited
  | Undefined.

Definition readProperty (key : string) (r : gmap string (list string)) : Property :=
  match r !! key with
  | Some users => Own users
  | None => if bool_decide (key ∈ prototypeKeys) then Inherited else Undefined
  end.

(** [msg.reactions[reaction]] read through the window entry [msg] aliases. *)
Definition reactionUsers (messageIndex : nat) (reaction : string) (st : ChatRoom)
    : Property :=
  match messages st !! messageIndex with
  | Some m => readProperty reaction (Message.reactions m)
  | None => Undefined
  end.

(** An assignment [msg.reactions = f(msg.reactions)] on that entry. *)
Definition updateReactions (messageIndex : nat)
    (f : gmap string (list string) → gmap string (list string)) : Act unit :=
  modify (set_messages (alter (Message.set_reactions f) messageIndex)).

(** An inherited value is truthy, so no list is created for its key, and
    calling [includes] on it is a [TypeError], thrown before anything is
    written. *)
Definition handleReactionAdd (o : Oracle) (message : WSMessage.t) (userId : string)
    : Act unit :=
  let messageId := WSMessage.messageId message in
  let reaction := WSMessage.reaction message in
  if negb (truthy messageId) || negb (truthy reaction) then ret tt else
  let messageId := default "" messageId in
  let reaction := default "" reaction in
  found <- gets (λ st, findIndex messageId (messages st)) ;;
  match found with
  | None => ret tt
  | Some (messageIndex, _) =>
      present <- gets (reactionUsers messageIndex reaction) ;;
      match present with
      | Undefined => updateReactions messageIndex (<[reaction := []]>)
      | Own _ | Inherited => ret tt
      end ;;;
      current <- gets (reactionUsers messageIndex reaction) ;;
      match current with
      | Own users =>
          when (negb (bool_decide (userId ∈ users)))
            (updateReactions messageIndex (<[reaction := users ++ [userId]]>) ;;;
             storagePutMessages o ;;;
             broadcast (reaction_added messageId reaction userId) None)
      | Inherited | Undefined => throw
      end
  end.

(** An inherited value is truthy, and calling [filter] on it is a [TypeError],
    thrown before anything is written. *)
Definition handleReactionRemove (o : Oracle) (message : WSMessage.t) (userId : string)
    : Act unit :=
  let messageId := WSMessage.messageId message in
  let reaction := WSMessage.reaction message in
  if negb (truthy messageId) || negb (truthy reaction) then ret tt else
  let messageId := default "" messageId in
  let reaction := default "" reaction in
  found <- gets (λ st, findIndex messageId (messages st)) ;;
  match found with
  | None => ret tt
  | Some (messageIndex, _) =>
      present <- gets (reactionUsers messageIndex reaction) ;;
      match present with
      | Undefined => ret tt
      | Inherited => throw
      | Own users =>
          let kept := List.filter (λ id, negb (String.eqb id userId)) users in
          updateReactions messageIndex (<[reaction := kept]>) ;;;
          when (Nat.eqb (length kept) 0)
            (updateReactions messageIndex (delete reaction)) ;;;
          storagePutMessages o ;;;
          broadcast (reaction_removed messageId reaction userId) None
      end
  end.

(** ** Sessions and the dispatcher *)

Definition handleDisconnect (userId : string) : Act unit :=
  modify (set_sessions (Map_delete userId)) ;;;
  handleTypingStop userId ;;;
  broadcast (user_left userId) (Some userId).

Definition handleMessage (o : Oracle) (message : WSMessage.t) (userId : string)
    : Act unit :=
  let type := WSMessage.type message in
  if String.eqb type "send_message" then handleSendMessage o message userId
  else if String.eqb type "edit_message" then handleEditMessage o message userId
  else if String.eqb type "delete_message" then handleDeleteMessage o message userId
  else if String.eqb type "typing_start" then handleTypingStart userId
  else if String.eqb type "typing_stop" then handleTypingStop userId
  else if String.eqb type "reaction_add" then handleReactionAdd o message userId
  else if String.eqb type "reaction_remove" then handleReactionRemove o message userId
  else if String.eqb type "ping" then sendToUser userId pong
  else sendToUser userId (error "Unknown message type").

(** The ['message'] listener installed by [handleSession]; a frame that
    [JSON.parse] rejects is [None]. *)
Definition onMessage (o : Oracle) (frame : option WSMessage.t) (userId : string)
    : Act unit :=
  tryCatch
    (match frame with
     | Some message => handleMessage o message userId
     | None => throw
     end)
    (sendToUser userId (error "Invalid message format")).

(** [handleSession], without the heartbeat interval. *)
Definition handleSession (webSocket : WebSocket) (userId : string) : Act unit :=
  modify (set_sessions (Map_set userId webSocket)) ;;;
  member <- gets (λ st, members st !! userId) ;;
  window <- gets messages ;;
  sendToUser userId (init window) ;;;
  onlineUsers <- gets (λ st, List.map (λ e, memberInfo (members st !! fst e) (fst e))
                                      (sessions st)) ;;
  sendToUser userId (user_list onlineUsers) ;;;
  broadcast (user_joined (memberInfo member userId)) (Some userId).

(** ** History ([getMessages]) *)

Definition timestampGe (r1 r2 : DbRow.t) : Prop :=
  String.leb (DbRow.timestamp r2) (DbRow.timestamp r1) = true.

Global Instance timestampGe_dec : RelDecision timestampGe.
Proof. intros r1 r2. unfold timestampGe. apply _. Defined.

(** [LIMIT ?]: SQLite reads a negative bound as no bound. *)
Definition sqlLimit {A} (limit : Z) (rows : list A) : list A :=
  if (limit <? 0)%Z then rows else take (Z.to_nat limit) rows.

(** [SELECT * FROM messages WHERE channelId = ? AND deleted = 0
     [AND timestamp < ?] ORDER BY timestamp DESC LIMIT ?];
    the order among rows of equal timestamp is the engine's. *)
Definition sqlSelectHistory (channel : string) (before : option string) (limit : Z)
    (db : list DbRow.t) : list DbRow.t :=
  let matching := List.filter (λ r,
      String.eqb (DbRow.channelId r) channel
      && negb (DbRow.deleted r)
      && match before with
         | Some b => String.ltb (DbRow.timestamp r) b
         | None => true
         end) db in
  sqlLimit limit (merge_sort timestampGe matching).

Definition rowToMessage (member : option ChannelMember.t) (r : DbRow.t) : Message.t :=
  Message.mk (DbRow.id r) (DbRow.channelId r) (DbRow.userId r) (DbRow.content r)
    (DbRow.timestamp r) (DbRow.edited r)
    (if truthy (DbRow.editedAt r) then DbRow.editedAt r else None)
    (DbRow.deleted r)
    (if truthy (DbRow.threadId r) then DbRow.threadId r else None)
    (if truthy (DbRow.replyTo r) then DbRow.replyTo r else None)
    [] ∅ []
    (UserInfo.mk (DbRow.userId r)
       (orElse (DbRow.username r) (orElse (ChannelMember.username <$> member) "User"))
       (orElse (DbRow.profileImage r) (orElse (ChannelMember.avatar <$> member) ""))).

(** The query parameters: [limit] is what [parseInt] reads from the
    parameter, [None] when it is absent or empty. *)
Record HistoryRequest := { limit : option Z; before : option string }.

(** The [messages] array of the JSON response. *)
Definition getMessages (o : Oracle) (request : HistoryRequest) (st : ChatRoom)
    : list Message.t :=
  let limit := default 50%Z (limit request) in
  let before := if truthy (before request) then before request else None in
  if dbThrows o then []
  else
    let results := sqlSelectHistory (channelId st) before limit (DB st) in
    List.map (λ r, rowToMessage (members st !! DbRow.userId r) r) (reverse results).

(** ** Construction (the [blockConcurrencyWhile] body of the constructor) *)

(** [SELECT * FROM messages WHERE channelId = ? AND deleted = 0
     ORDER BY timestamp DESC LIMIT 50] *)
Definition sqlSelectRecent (channel : string) (db : list DbRow.t) : list DbRow.t :=
  sqlSelectHistory channel None 50%Z db.

Definition hydrateRow (r : DbRow.t) : Message.t :=
  Message.mk (DbRow.id r) (DbRow.channelId r) (DbRow.userId r) (DbRow.content r)
    (DbRow.timestamp r) (DbRow.edited r)
    (if truthy (DbRow.editedAt r) then DbRow.editedAt r else None)
    false
    (if truthy (DbRow.threadId r) then DbRow.threadId r else None)
    (if truthy (DbRow.replyTo r) then DbRow.replyTo r else None)
    [] ∅ []
    (UserInfo.mk (DbRow.userId r) (orElse (DbRow.username r) "User")
       (orElse (DbRow.profileImage r) "")).

(** The instance a cold start builds from the key-value storage [s] and the
    table [db]; [new Map(entries)] lets a later entry win. *)
Definition construct (o : Oracle) (e : Env) (s : Storage) (db : list DbRow.t) : ChatRoom :=
  let channel := orElse (stored_channelId s) "" in
  let members := match stored_members s with
                 | Some entries => list_to_map (reverse entries)
                 | None => ∅
                 end in
  let blank window store :=
    {| env := e; sessions := []; members := members; messages := window;
       typingUsers := ∅; channelId := channel; typingTimeouts := ∅;
       storage := store; DB := db; timers := ∅; nextTimer := 1; wire := [] |} in
  match stored_messages s with
  | Some (m :: window) => blank (m :: window) s
  | _ =>
      if String.eqb channel "" then blank [] s
      else if dbThrows o || putThrows o then blank [] s
      else
        let window := List.map hydrateRow (reverse (sqlSelectRecent channel db)) in
        blank window {| stored_messages := Some window;
                        stored_channelId := stored_channelId s;
                        stored_members := stored_members s |}
  end.

(** ** The superseded copy of the class ([durable-objects/ChatRoom.ts]) *)

Module Legacy.

(** [this.messages.push(newMessage); if (length > 100) slice(-100)] *)
Definition pushMessage (fresh : Message.t) (window : list Message.t) : list Message.t :=
  let window := window ++ [fresh] in
  if Nat.ltb 100 (length window) then sliceLast 100 window else window.

(** [this.messages[messageIndex].deleted = true] *)
Definition deleteInWindow (messageIndex : nat) (window : list Message.t)
    : list Message.t :=
  alter (Message.set_deleted true) messageIndex window.

(** [SELECT * FROM messages WHERE channelId = ? [AND timestamp < ?]
     ORDER BY timestamp DESC LIMIT ?] *)
Definition sqlSelectHistory (channel : string) (before : option string) (limit : Z)
    (db : list DbRow.t) : list DbRow.t :=
  let matching := List.filter (λ r,
      String.eqb (DbRow.channelId r) channel
      && match before with
         | Some b => String.ltb (DbRow.timestamp r) b
         | None => true
         end) db in
  sqlLimit limit (merge_sort timestampGe matching).

End Legacy.

(** * Vocabulary of the statements *)

(** [st'] differs from [st] at most in the session registry and the wire. *)
Definition deliveryOnly (st st' : ChatRoom) : Prop :=
  env st' = env st ∧ members st' = members st ∧ messages st' = messages st
  ∧ typingUsers st' = typingUsers st ∧ channelId st' = channelId st
  ∧ typingTimeouts st' = typingTimeouts st ∧ storage st' = storage st
  ∧ DB st' = DB st ∧ timers st' = timers st ∧ nextTimer st' = nextTimer st.

(** [st'] has the window, the table, the snapshot and the configuration of [st];
    the typing state, the registry and the wire may differ. *)
Definition storesKept (st st' : ChatRoom) : Prop :=
  env st' = env st ∧ members st' = members st ∧ messages st' = messages st
  ∧ channelId st' = channelId st ∧ storage st' = storage st ∧ DB st' = DB st.

(** The session of [userId] is registered, open, and its socket accepts a send. *)
Definition liveSession (userId : string) (st : ChatRoom) : bool :=
  match Map_get userId (sessions st) with
  | Some ws => isOpen ws && negb (sendThrows ws)
  | None => false
  end.

(** The frames a unicast puts on the wire. *)
Definition unicastFrames (userId : string) (message : WSResponse) (st : ChatRoom)
    : list (string * WSResponse) :=
  if liveSession userId st then [(userId, message)] else [].

(** The frames a broadcast over the registry [entries] puts on the wire. *)
Definition broadcastFrames (message : WSResponse) (excludeUserId : option string)
    (entries : list (string * WebSocket)) : list (string * WSResponse) :=
  (λ e, (fst e, message)) <$>
    List.filter (λ e, negb (bool_decide (Some (fst e) = excludeUserId))
                      && isOpen (snd e) && negb (sendThrows (snd e))) entries.

(** The guard of [handleSendMessage], negated: the trimmed content is
    non-empty and not longer than the configured maximum. *)
Definition validContent (e : Env) (message : WSMessage.t) : bool :=
  let content := trim <$> WSMessage.content message in
  truthy content && negb (tooLong e (default "" content)).

(** The trimmed content a valid [send_message] carries. *)
Definition contentOf (message : WSMessage.t) : string :=
  default "" (trim <$> WSMessage.content message).

(** One inbound frame: who sent it, what it parsed to, and what the platform
    decided while it was handled. *)
Record Command := { oracle : Oracle; frame : option WSMessage.t; sender : string }.

(** Frames are handled one at a time, each to completion. *)
Fixpoint run (cmds : list Command) (st : ChatRoom) : ChatRoom :=
  match cmds with
  | [] => st
  | c :: cmds' => run cmds' (after (onMessage (oracle c) (frame c) (sender c)) st)
  end.

(** The overflow rule of [handleSendMessage]: past 100 entries the window is
    cut back to its 50 newest. *)
Definition trimWindow (window : list Message.t) : list Message.t :=
  if Nat.ltb 100 (length window) then sliceLast 50 window else window.

(** What [handleReactionAdd] does to the reaction map of the entry it found;
    under a key that reads as an inherited value it throws and writes nothing. *)
Definition addReaction (reaction userId : string) (r : gmap string (list string))
    : gmap string (list string) :=
  match readProperty reaction r with
  | Own users => if bool_decide (userId ∈ users) then r else <[reaction := users ++ [userId]]> r
  | Undefined => <[reaction := [userId]]> r
  | Inherited => r
  end.

(** What [handleReactionRemove] does to it. *)
Definition removeReaction (reaction userId : string) (r : gmap string (list string))
    : gmap string (list string) :=
  match r !! reaction with
  | Some users =>
      let kept := List.filter (λ id, negb (String.eqb id userId)) users in
      if Nat.eqb (length kept) 0 then delete reaction r else <[reaction := kept]> r
  | None => r
  end.

(** The reaction map of the window entry the actor locates by [messageId]. *)
Definition reactionsOf (messageId : string) (st : ChatRoom)
    : option (gmap string (list string)) :=
  (λ found, Message.reactions (snd found)) <$> findIndex messageId (messages st).

(** A reaction frame names a message and a reaction key, both non-empty. *)
Definition reactionFrame (type messageId reaction : string) (message : WSMessage.t) : Prop :=
  WSMessage.type message = type
  ∧ WSMessage.messageId message = Some messageId ∧ messageId ≠ ""
  ∧ WSMessage.reaction message = Some reaction ∧ reaction ≠ "".

Definition command (o : Oracle) (message : WSMessage.t) (userId : string) : Command :=
  {| oracle := o; frame := Some message; sender := userId |}.

(** How often [userId] occurs among the users recorded under [reaction]. *)
Definition reactionCount (reaction userId : string) (r : gmap string (list string)) : nat :=
  count_occ string_dec (default [] (r !! reaction)) userId.

(** Ascending timestamps, as strings compare. *)
Definition timestampLe (m1 m2 : Message.t) : Prop :=
  String.leb (Message.timestamp m1) (Message.timestamp m2) = true.

(** A [send_message] frame together with what the platform decides for it. *)
Record Send := { sendOracle : Oracle; sendFrame : WSMessage.t; sendUser : string }.

Definition sendCommand (s : Send) : Command :=
  command (sendOracle s) (sendFrame s) (sendUser s).

(** The send is well-formed and its durable insert is accepted. *)
Definition goesThrough (e : Env) (s : Send) : Prop :=
  WSMessage.type (sendFrame s) = "send_message"
  ∧ validContent e (sendFrame s) = true
  ∧ dbThrows (sendOracle s) = false.

(** The message object the handler builds for it in a room configured as [st]. *)
Definition created (st : ChatRoom) (s : Send) : Message.t :=
  newMessage (sendOracle s) (sendFrame s) (sendUser s) (contentOf (sendFrame s)) st.

(** ** A small room to evaluate the handlers on *)

Module Example.

Definition socket : WebSocket := {| readyState := 1; sendThrows := false |}.

Definition fine : Oracle :=
  {| randomUUID := "m2"; now := "2024-05-01T10:00:01.000Z";
     dbThrows := false; putThrows := false |}.

Definition dbDown : Oracle :=
  {| randomUUID := "m2"; now := "2024-05-01T10:00:01.000Z";
     dbThrows := true; putThrows := false |}.

(** The message [m1] of alice, to which bob has reacted with [+1]. *)
Definition hello : Message.t :=
  Message.mk "m1" "general" "alice" "hello" "2024-05-01T10:00:00.000Z" false None false
    None None [] {[ "+1" := ["bob"] ]} [] (UserInfo.mk "alice" "User" "").

Definition helloRow : DbRow.t :=
  DbRow.mk "m1" "general" "alice" "hello" "2024-05-01T10:00:00.000Z" None None
    false None false (Some "User") (Some "").

(** Alice and bob connected, nothing said yet. *)
Definition quiet : ChatRoom :=
  {| env := {| MAX_MESSAGE_LENGTH := Some 2000%Z |};
     sessions := [("alice", socket); ("bob", socket)];
     members := ∅; messages := []; typingUsers := ∅; channelId := "general";
     typingTimeouts := ∅;
     storage := {| stored_messages := None; stored_channelId := Some "general";
                   stored_members := None |};
     DB := []; timers := ∅; nextTimer := 1; wire := [] |}.

(** The same room after [hello]. *)
Definition busy : ChatRoom :=
  set_DB (λ _, [helloRow]) (set_messages (λ _, [hello]) quiet).

(** Bob is typing, his timer [1] pending. *)
Definition bobTyping : ChatRoom :=
  set_timers (<[1 := "bob"]>) S
    (set_typingTimeouts (<["bob" := 1]>)
      (set_typingUsers (λ _, {["bob"]}) busy)).

Definition frame (type : string) (content messageId reaction : option string)
    : WSMessage.t :=
  WSMessage.mk type content messageId None None None reaction None.

Definition sendHi : WSMessage.t := frame "send_message" (Some "  hi ") None None.
Definition editHello : WSMessage.t :=
  frame "edit_message" (Some "hacked") (Some "m1") None.
Definition deleteHello : WSMessage.t := frame "delete_message" None (Some "m1") None.
Definition addPlus : WSMessage.t := frame "reaction_add" None (Some "m1") (Some "+1").
Definition removePlus : WSMessage.t :=
  frame "reaction_remove" None (Some "m1") (Some "+1").
Definition addToUnknown : WSMessage.t :=
  frame "reaction_add" None (Some "m9") (Some "+1").
Definition addConstructor : WSMessage.t :=
  frame "reaction_add" None (Some "m1") (Some "constructor").
Definition removeConstructor : WSMessage.t :=
  frame "reaction_remove" None (Some "m1") (Some "constructor").
Definition typing : WSMessage.t := frame "typing_start" None None None.

(** 101 sends by alice, numbered through their UUIDs. *)
Definition numbered (n : nat) : Send :=
  {| sendOracle := {| randomUUID := String (ascii_of_nat n) ""; now := "t";
                      dbThrows := false; putThrows := false |};
     sendFrame := sendHi; sendUser := "alice" |}.

Definition burst : list Send := numbered <$> seq 0 101.

End Example.

(** ** Invariants of the window *)

(** How one command can change the window. *)
Inductive windowStep (o : Oracle) (w w' : list Message.t) : Prop :=
  | step_same : w' = w → windowStep o w w'
  | step_push fresh :
      Message.id fresh = randomUUID o → Message.reactions fresh = ∅ →
      w' = trimWindow (w ++ [fresh]) → windowStep o w w'
  | step_edit i newContent editedAt :
      w' = alter (Message.edit newContent editedAt) i w → windowStep o w w'
  | step_delete i : w' = delete i w → windowStep o w w'
  | step_react i m reaction userId :
      w !! i = Some m →
      w' = <[i := Message.set_reactions (addReaction reaction userId) m]> w →
      windowStep o w w'
  | step_unreact i m reaction userId :
      w !! i = Some m →
      w' = <[i := Message.set_reactions (removeReaction reaction userId) m]> w →
      windowStep o w w'.

(** The soft cap holds between commands. *)
Definition windowBounded (w : list Message.t) : Prop := length w ≤ 100.

(** Every user list recorded under a reaction key is non-empty and free of
    duplicates. *)
Definition reactionsWf (r : gmap string (list string)) : Prop :=
  ∀ reaction users, r !! reaction = Some users → users ≠ [] ∧ NoDup users.

Definition windowReactionsWf (w : list Message.t) : Prop :=
  Forall (λ m, reactionsWf (Message.reactions m)) w.

(** Message ids are distinct within the window. *)
Definition idsDistinct (w : list Message.t) : Prop := NoDup (Message.id <$> w).

(** * The rest of the class *)

Definition set_members (f : gmap string ChannelMember.t → gmap string ChannelMember.t)
    (st : ChatRoom) : ChatRoom :=
  {| env := env st; sessions := sessions st; members := f (members st);
     messages := messages st; typingUsers := typingUsers st;
     channelId := channelId st; typingTimeouts := typingTimeouts st;
     storage := storage st; DB := DB st; timers := timers st;
     nextTimer := nextTimer st; wire := wire st |}.

Definition set_channelId (c : string) (st : ChatRoom) : ChatRoom :=
  {| env := env st; sessions := sessions st; members := members st;
     messages := messages st; typingUsers := typingUsers st;
     channelId := c; typingTimeouts := typingTimeouts st;
     storage := storage st; DB := DB st; timers := timers st;
     nextTimer := nextTimer st; wire := wire st |}.

(** ** [setChannelId] *)

(** [this.channelId = channelId; await this.state.storage.put('channelId', channelId)] *)
Definition setChannelId (o : Oracle) (channel : string) : Act unit :=
  modify (set_channelId channel) ;;;
  if putThrows o then throw
  else modify (set_storage (λ s,
         {| stored_messages := stored_messages s;
            stored_channelId := Some channel;
            stored_members := stored_members s |})).

(** ** [handleWebSocket] *)

(** The query parameters [url.searchParams.get] returns. *)
Record ConnectRequest := {
  token : option string;
  queryUserId : option string;
  queryUsername : option string;
  queryProfileImage : option string
}.

(** [handleWebSocket]: the status of the response.  [decodeURIComponent] is
    the platform's, [None] where it raises [URIError]; [server] is the
    accepted server end of the [WebSocketPair]. *)
Definition handleWebSocket (o : Oracle) (decodeURIComponent : string → option string)
    (server : WebSocket) (request : ConnectRequest) : Act nat :=
  let username := orElse (queryUsername request) "User" in
  let profileImage := orElse (queryProfileImage request) "" in
  if negb (truthy (queryUserId request)) then ret 401
  else
    let userId := default "" (queryUserId request) in
    known <- gets (λ st, members st !! userId) ;;
    match known with
    | Some _ => ret tt
    | None =>
        match decodeURIComponent username, decodeURIComponent profileImage with
        | Some name, Some avatar =>
            modify (set_members
                      (<[userId := ChannelMember.mk userId name avatar ChannelMember.online]>)) ;;;
            if putThrows o then throw
            else modify (λ st, set_storage (λ s,
                   {| stored_messages := stored_messages s;
                      stored_channelId := stored_channelId s;
                      stored_members := Some (map_to_list (members st)) |}) st)
        | _, _ => throw
        end
    end ;;;
    handleSession server userId ;;;
    ret 101.

(** ** Everything that can happen to an instance *)

Inductive Event :=
  | Connect (o : Oracle) (decodeURIComponent : string → option string)
      (server : WebSocket) (request : ConnectRequest)
  | Received (o : Oracle) (parsed : option WSMessage.t) (userId : string)
  | Closed (userId : string)
  | Expired (h : nat)
  | ChannelSet (o : Oracle) (channel : string).

(** The code each event runs: the [/websocket] route, the ['message']
    listener, the ['close'] and ['error'] listeners, the typing timer, and the
    [/set-channel-id] route.  An exception leaving it is the platform's to
    report. *)
Definition dispatch (e : Event) : Act unit :=
  match e with
  | Connect o decodeURIComponent server request =>
      handleWebSocket o decodeURIComponent server request ;;; ret tt
  | Received o parsed userId => onMessage o parsed userId
  | Closed userId => handleDisconnect userId
  | Expired h => fireTimer h
  | ChannelSet o channel => setChannelId o channel
  end.

Fixpoint play (events : list Event) (st : ChatRoom) : ChatRoom :=
  match events with
  | [] => st
  | e :: events' => play events' (after (dispatch e) st)
  end.

(** The UUIDs the platform hands out in the course of the events. *)
Definition uuids (events : list Event) : list string :=
  events ≫= (λ e, match e with
                  | Received o _ _ => [randomUUID o]
                  | _ => []
                  end).

(** The storage puts of the event go through. *)
Definition putsSucceed (e : Event) : Prop :=
  match e with
  | Connect o _ _ _ | Received o _ _ | ChannelSet o _ => putThrows o = false
  | Closed _ | Expired _ => True
  end.

(** ** Reasoning about actions *)

(** [m] keeps the invariant [I], whether it returns or throws. *)
Definition preserves {A} (I : ChatRoom → Prop) (m : Act A) : Prop :=
  ∀ st, I st → I (after m st).

(** [Q] holds of the completion and the state [m] ends in. *)
Definition wp {A} (m : Act A) (Q : Completion A → ChatRoom → Prop) (st : ChatRoom) : Prop :=
  Q (fst (m st)) (snd (m st)).

(** ** Vocabulary of the further statements *)

(** A broadcast evicts the sockets it tries and that raise. *)
Definition evicts (excludeUserId : option string) (e : string * WebSocket) : bool :=
  negb (bool_decide (Some (fst e) = excludeUserId)) && isOpen (snd e) && sendThrows (snd e).

Definition evictedUsers (excludeUserId : option string) (entries : list (string * WebSocket))
    : list string :=
  fst <$> List.filter (evicts excludeUserId) entries.

(** The registry without the sessions of [users]. *)
Definition withoutUsers (users : list string) (entries : list (string * WebSocket))
    : list (string * WebSocket) :=
  List.filter (λ e, negb (bool_decide (fst e ∈ users))) entries.

(** At most one session per user. *)
Definition registryWf (st : ChatRoom) : Prop := NoDup (fst <$> sessions st).

(** The typing set, the timer map and the pending timers agree: a user is
    typing exactly when the map holds a timer for them, that timer is pending
    and is theirs, and every pending timer is the one recorded for its user. *)
Definition typingWf (st : ChatRoom) : Prop :=
  (∀ u, u ∈ typingUsers st ↔ is_Some (typingTimeouts st !! u))
  ∧ (∀ u h, typingTimeouts st !! u = Some h → h ≠ 0 ∧ timers st !! h = Some u)
  ∧ (∀ h u, timers st !! h = Some u → h < nextTimer st ∧ typingTimeouts st !! u = Some h)
  ∧ 0 < nextTimer st.

(** What the constructor reads from the key-value storage [s]. *)
Definition storedChannelId (s : Storage) : string := orElse (stored_channelId s) "".

Definition storedMembers (s : Storage) : gmap string ChannelMember.t :=
  match stored_members s with
  | Some entries => list_to_map (reverse entries)
  | None => ∅
  end.

Definition storedWindow (s : Storage) : list Message.t := default [] (stored_messages s).

(** The key-value storage holds what the instance holds in memory. *)
Definition durable (st : ChatRoom) : Prop :=
  storedChannelId (storage st) = channelId st
  ∧ storedMembers (storage st) = members st
  ∧ storedWindow (storage st) = messages st.

(** Every entry of [w] that [userId] did not write is still in [w'], the
    same but for its reactions. *)
Definition keepsOthers (userId : string) (w w' : list Message.t) : Prop :=
  ∀ m, m ∈ w → Message.userId m ≠ userId → ∃ f, Message.set_reactions f m ∈ w'.

(** What no command may change of a message, and what it may only raise. *)
Definition sameIdentity (m m' : Message.t) : Prop :=
  Message.id m' = Message.id m
  ∧ Message.channelId m' = Message.channelId m
  ∧ Message.userId m' = Message.userId m
  ∧ Message.timestamp m' = Message.timestamp m
  ∧ Message.deleted m' = Message.deleted m
  ∧ Message.user m' = Message.user m
  ∧ (Message.edited m = true → Message.edited m' = true).


(** ** More of the example room *)

Module Scene.

Import Example.

(** A socket whose [send] raises, and one that is closing. *)
Definition broken : WebSocket := {| readyState := 1; sendThrows := true |}.
Definition closing : WebSocket := {| readyState := 2; sendThrows := false |}.

(** The table accepts the statement, the storage rejects the put. *)
Definition putDown : Oracle :=
  {| randomUUID := "m2"; now := "2024-05-01T10:00:01.000Z";
     dbThrows := false; putThrows := true |}.

(** Alice on a working socket, bob on a broken one, carol on a closing one. *)
Definition crowded : ChatRoom :=
  set_sessions (λ _, [("alice", socket); ("bob", broken); ("carol", closing)]) busy.

(** An empty storage and the room a cold start makes of it. *)
Definition blank : Storage :=
  {| stored_messages := None; stored_channelId := None; stored_members := None |}.

Definition fresh : ChatRoom := construct fine {| MAX_MESSAGE_LENGTH := Some 2000%Z |} blank [].

(** Carol asks for a socket; nothing in her parameters needs decoding. *)
Definition carol : ConnectRequest :=
  {| token := None; queryUserId := Some "carol"; queryUsername := Some "Carol";
     queryProfileImage := None |}.

Definition plain (s : string) : option string := Some s.

(** The channel is assigned, carol connects and says hi. *)
Definition morning : list Event :=
  [ChannelSet fine "general"; Connect fine plain socket carol;
   Received fine (Some sendHi) "carol"].

Definition carolRecord : ChannelMember.t :=
  ChannelMember.mk "carol" "Carol" "" ChannelMember.online.

(** The busy room with carol in the directory. *)
Definition joined : ChatRoom := set_members (<["carol" := carolRecord]>) busy.

(** Somebody connects as carol under another name. *)
Definition mallory : Event := Connect fine (λ _, Some "Mallory") socket carol.

End Scene.
(** * Properties *)

(** ** What delivery may touch *)

Lemma deliveryOnly_refl st : deliveryOnly st st.
Proof. by repeat split. Qed.

Lemma deliveryOnly_trans st1 st2 st3 :
  deliveryOnly st1 st2 → deliveryOnly st2 st3 → deliveryOnly st1 st3.
Proof. unfold deliveryOnly. intros H1 H2. destruct_and!. repeat split; congruence. Qed.

Lemma storesKept_refl st : storesKept st st.
Proof. by repeat split. Qed.

Lemma storesKept_trans st1 st2 st3 :
  storesKept st1 st2 → storesKept st2 st3 → storesKept st1 st3.
Proof. unfold storesKept. intros H1 H2. destruct_and!. repeat split; congruence. Qed.

Lemma deliveryOnly_storesKept st st' : deliveryOnly st st' → storesKept st st'.
Proof. unfold deliveryOnly, storesKept. intros H. destruct_and!. by repeat split. Qed.

Lemma sendToUser_spec userId message st :
  ∃ st', sendToUser userId message st = (Returned tt, st')
         ∧ deliveryOnly st st'
         ∧ wire st' = wire st ++ unicastFrames userId message st.
Proof.
  unfold sendToUser, unicastFrames, liveSession, bind, gets, when, tryCatch, wsSend,
    throw, modify, ret.
  destruct (Map_get userId (sessions st)) as [ws|]; simpl.
  - destruct (isOpen ws); simpl.
    + destruct (sendThrows ws); simpl; eexists; (split; [reflexivity|]);
        (split; [apply deliveryOnly_refl || by repeat split|]); simpl;
        by rewrite ?app_nil_r.
    + eexists; split; [reflexivity|]. split; [apply deliveryOnly_refl|].
      by rewrite app_nil_r.
  - eexists; split; [reflexivity|]. split; [apply deliveryOnly_refl|].
    by rewrite app_nil_r.
Qed.

Lemma broadcastTo_spec message excludeUserId e st :
  broadcastTo message excludeUserId e st =
  (Returned tt,
   if negb (bool_decide (Some (fst e) = excludeUserId)) && isOpen (snd e)
   then if sendThrows (snd e) then set_sessions (Map_delete (fst e)) st
        else set_wire (λ w, w ++ [(fst e, message)]) st
   else st).
Proof.
  unfold broadcastTo, when, tryCatch, wsSend, throw, modify, ret.
  destruct (negb _ && _); [|reflexivity]. by destruct (sendThrows (snd e)).
Qed.

Lemma broadcast_loop_spec message excludeUserId entries st :
  ∃ st', forEach entries (broadcastTo message excludeUserId) st = (Returned tt, st')
         ∧ deliveryOnly st st'
         ∧ wire st' = wire st ++ broadcastFrames message excludeUserId entries.
Proof.
  revert st. induction entries as [|e entries IH]; intros st.
  - exists st. split; [reflexivity|]. split; [apply deliveryOnly_refl|].
    unfold broadcastFrames. simpl. by rewrite app_nil_r.
  - cbn [forEach]. unfold bind. rewrite broadcastTo_spec.
    unfold broadcastFrames. cbn [List.filter].
    destruct (negb (bool_decide (Some (fst e) = excludeUserId)) && isOpen (snd e));
      cbn [andb]; [destruct (sendThrows (snd e)); cbn [negb]|].
    + destruct (IH (set_sessions (Map_delete (fst e)) st)) as (st' & -> & Hd & Hw).
      exists st'. split; [reflexivity|]. split; [|exact Hw].
      eapply deliveryOnly_trans; [|exact Hd]. by repeat split.
    + destruct (IH (set_wire (λ w, w ++ [(fst e, message)]) st)) as (st' & -> & Hd & Hw).
      exists st'. split; [reflexivity|]. split.
      * eapply deliveryOnly_trans; [|exact Hd]. by repeat split.
      * rewrite Hw. cbn [wire set_wire fmap list_fmap]. by rewrite <- app_assoc.
    + destruct (IH st) as (st' & -> & Hd & Hw). by exists st'.
Qed.

Lemma broadcast_spec message excludeUserId st :
  ∃ st', broadcast message excludeUserId st = (Returned tt, st')
         ∧ deliveryOnly st st'
         ∧ wire st' = wire st ++ broadcastFrames message excludeUserId (sessions st).
Proof.
  unfold broadcast, bind at 1, gets. apply broadcast_loop_spec.
Qed.

Lemma broadcastFrames_Forall message excludeUserId entries :
  Forall (λ f, snd f = message ∧ Some (fst f) ≠ excludeUserId)
         (broadcastFrames message excludeUserId entries).
Proof.
  unfold broadcastFrames. apply Forall_fmap, Forall_forall.
  intros e [_ He]%list_elem_of_In%List.filter_In. cbn. split; [done|].
  apply andb_true_iff in He as [He _]. apply andb_true_iff in He as [He _].
  by apply negb_true_iff, bool_decide_eq_false in He.
Qed.

Lemma handleTypingStop_spec userId st :
  ∃ st' later, handleTypingStop userId st = (Returned tt, st')
    ∧ storesKept st st'
    ∧ wire st' = wire st ++ later
    ∧ Forall (λ f, snd f = typing_stop userId ∧ fst f ≠ userId) later.
Proof.
  assert (Hcast : ∀ s, storesKept st s → wire s = wire st →
    ∃ st' later, broadcast (typing_stop userId) (Some userId) s = (Returned tt, st')
      ∧ storesKept st st' ∧ wire st' = wire st ++ later
      ∧ Forall (λ f, snd f = typing_stop userId ∧ fst f ≠ userId) later).
  { intros s Hk Hw.
    destruct (broadcast_spec (typing_stop userId) (Some userId) s) as (st' & -> & Hd & Hw').
    exists st', (broadcastFrames (typing_stop userId) (Some userId) (sessions s)).
    split; [reflexivity|]. split; [|split].
    - eapply storesKept_trans; [exact Hk|by apply deliveryOnly_storesKept].
    - by rewrite Hw', Hw.
    - eapply Forall_impl; [apply broadcastFrames_Forall|].
      intros f [? Hne]. split; [done|]. congruence. }
  unfold handleTypingStop, bind, gets, modify, ret.
  destruct (bool_decide (userId ∈ typingUsers st)); cbn [negb].
  - cbn [typingTimeouts set_typingUsers].
    destruct (typingTimeouts st !! userId) as [h|].
    + unfold when, clearTimeout, modify, bind, ret. destruct (negb (h =? 0)%nat);
        apply Hcast; by repeat split.
    + apply Hcast; by repeat split.
  - exists st, []. split; [reflexivity|]. split; [apply storesKept_refl|].
    by rewrite app_nil_r.
Qed.

(** ** Sending *)

Lemma validContent_guard e message :
  validContent e message = true →
  negb (truthy (trim <$> WSMessage.content message))
  || tooLong e (default "" (trim <$> WSMessage.content message)) = false.
Proof.
  unfold validContent. cbn zeta. intros [H1 H2]%andb_true_iff.
  rewrite H1. by apply negb_true_iff in H2 as ->.
Qed.

Lemma handleSendMessage_insert_fails o message userId st :
  validContent (env st) message = true →
  dbThrows o = true →
  handleSendMessage o message userId st
  = sendToUser userId (error "Failed to send message") st.
Proof.
  intros Hvalid Hdb.
  unfold handleSendMessage. cbn zeta. unfold bind at 1, gets at 1.
  rewrite (validContent_guard _ _ Hvalid).
  unfold bind at 1, gets at 1. unfold bind at 1, gets at 1.
  unfold tryCatch. unfold bind at 1. unfold dbRun. by rewrite Hdb.
Qed.

(** C1.  A [send_message] with valid content whose durable insert rejects
    does exactly what a unicast of the error to the sender does: the window,
    the table and the persisted snapshot are untouched, nothing is broadcast,
    and the only frame that reaches the wire is the one error event,
    addressed to the sender (none at all if the sender has no live session
    left). *)
Theorem send_insert_failure_aborts o message userId st :
  validContent (env st) message = true →
  dbThrows o = true →
  let failed := error "Failed to send message" in
  let st' := after (handleSendMessage o message userId) st in
  handleSendMessage o message userId st = sendToUser userId failed st
  ∧ messages st' = messages st
  ∧ storage st' = storage st
  ∧ DB st' = DB st
  ∧ typingUsers st' = typingUsers st
  ∧ wire st' = wire st ++ (if liveSession userId st then [(userId, failed)] else []).
Proof.
  intros Hvalid Hdb failed st'.
  pose proof (handleSendMessage_insert_fails o message userId st Hvalid Hdb) as Heq.
  split; [exact Heq|].
  subst st'. unfold after. rewrite Heq. fold failed.
  destruct (sendToUser_spec userId failed st) as (st' & -> & Hd & Hw).
  unfold deliveryOnly in Hd. destruct_and!. by repeat split.
Qed.

Lemma sendToUser_returns userId message st :
  fst (sendToUser userId message st) = Returned tt.
Proof. by destruct (sendToUser_spec userId message st) as (st' & -> & _). Qed.

(** The state after a [send_message] whose insert went through, whether or
    not the snapshot put rejects afterwards. *)
Lemma handleSendMessage_inserted o message userId st :
  validContent (env st) message = true →
  dbThrows o = false →
  ∃ st', handleSendMessage o message userId st = (Returned tt, st')
    ∧ messages st' =
        trimWindow (messages st ++ [newMessage o message userId (contentOf message) st])
    ∧ DB st' = DB st ++ [newRow o message userId (contentOf message) st]
    ∧ env st' = env st ∧ members st' = members st ∧ channelId st' = channelId st.
Proof.
  intros Hvalid Hdb.
  unfold handleSendMessage. cbn zeta. unfold bind at 1, gets at 1.
  rewrite (validContent_guard _ _ Hvalid).
  unfold bind at 1, gets at 1. unfold bind at 1, gets at 1.
  fold (contentOf message).
  set (fresh := newMessage o message userId (contentOf message) st).
  set (row := newRow o message userId (contentOf message) st).
  unfold tryCatch, dbRun. rewrite Hdb.
  unfold bind at 1, modify at 1. unfold bind at 1, modify at 1.
  unfold bind at 1, gets at 1. cbn [messages set_messages set_DB].
  set (st1 := set_messages (λ l, l ++ [fresh]) (set_DB (sqlInsert row) st)).
  assert (Hwhen : ∃ st2, when (100 <? length (messages st ++ [fresh]))%nat
                    (modify (set_messages (sliceLast 50))) st1 = (Returned tt, st2)
            ∧ messages st2 = trimWindow (messages st ++ [fresh])
            ∧ DB st2 = DB st ++ [row] ∧ env st2 = env st ∧ members st2 = members st
            ∧ channelId st2 = channelId st ∧ storage st2 = storage st).
  { unfold when, trimWindow.
    destruct (100 <? length (messages st ++ [fresh]))%nat; eexists;
      (split; [reflexivity|]); by repeat split. }
  destruct Hwhen as (st2 & Hrun & Hm & Hd & He & Hmem & Hch & _).
  unfold bind at 1. rewrite Hrun.
  unfold bind at 1, storagePutMessages. destruct (putThrows o).
  - unfold throw.
    destruct (sendToUser_spec userId (error "Failed to send message") st2)
      as (st3 & -> & Hdel & _).
    unfold deliveryOnly in Hdel. destruct_and!.
    exists st3. split; [reflexivity|]. repeat split; congruence.
  - unfold modify. unfold bind at 1.
    match goal with |- context [broadcast ?m ?x ?s] =>
      destruct (broadcast_spec m x s) as (st3 & -> & Hdel & _) end.
    destruct (handleTypingStop_spec userId st3) as (st4 & later & -> & Hk & _).
    unfold deliveryOnly in Hdel. unfold storesKept in Hk. destruct_and!.
    cbn [env members messages channelId DB set_storage] in *.
    exists st4. split; [reflexivity|]. repeat split; congruence.
Qed.

Lemma handleSendMessage_returns o message userId st :
  fst (handleSendMessage o message userId st) = Returned tt.
Proof.
  destruct (validContent (env st) message) eqn:Hvalid.
  - destruct (dbThrows o) eqn:Hdb.
    + rewrite (handleSendMessage_insert_fails o message userId st Hvalid Hdb).
      apply sendToUser_returns.
    + by destruct (handleSendMessage_inserted o message userId st Hvalid Hdb)
        as (st' & -> & _).
  - unfold handleSendMessage. cbn zeta. unfold bind at 1, gets at 1.
    unfold validContent in Hvalid. cbn zeta in Hvalid.
    destruct (truthy (trim <$> WSMessage.content message)); cbn [negb orb andb] in *.
    + apply negb_false_iff in Hvalid as ->. apply sendToUser_returns.
    + apply sendToUser_returns.
Qed.

(** ** Reactions *)

Lemma truthy_Some s : s ≠ "" → truthy (Some s) = true.
Proof.
  intros Hs. unfold truthy. apply negb_true_iff.
  destruct (String.eqb_spec s ""); [done|reflexivity].
Qed.

Lemma set_reactions_id f m :
  f (Message.reactions m) = Message.reactions m → Message.set_reactions f m = m.
Proof. intros Hf. destruct m. unfold Message.set_reactions. cbn in *. by rewrite Hf. Qed.

Lemma findIndex_lookup messageId l i m :
  findIndex messageId l = Some (i, m) → l !! i = Some m ∧ Message.id m = messageId.
Proof. unfold findIndex. intros (? & ? & _)%list_find_Some. done. Qed.

(** Rewriting the entry found, keeping its id, does not move it. *)
Lemma findIndex_insert messageId l i m m' :
  findIndex messageId l = Some (i, m) →
  Message.id m' = Message.id m →
  findIndex messageId (<[i := m']> l) = Some (i, m').
Proof.
  unfold findIndex. intros (Hi & Hid & Hfirst)%list_find_Some Hid'.
  apply list_find_Some. split; [|split].
  - apply list_lookup_insert_eq. by eapply lookup_lt_Some.
  - congruence.
  - intros j y Hj Hlt. rewrite list_lookup_insert_ne in Hj by lia. by eapply Hfirst.
Qed.

Lemma alter_found {A} (f : A → A) (l : list A) i x :
  l !! i = Some x → alter f i l = <[i := f x]> l.
Proof.
  intros Hi. apply list_eq. intros j. destruct (decide (i = j)) as [->|Hne].
  - rewrite list_lookup_alter_eq, Hi. cbn.
    symmetry. apply list_lookup_insert_eq. by eapply lookup_lt_Some.
  - by rewrite list_lookup_alter_ne, list_lookup_insert_ne.
Qed.

(** After the in-memory write, the snapshot put and the broadcast leave the
    window alone, whether the put rejects or not. *)
Lemma persist_and_broadcast_window o message st :
  ∃ c st', (storagePutMessages o ;;; broadcast message None) st = (c, st')
           ∧ messages st' = messages st.
Proof.
  unfold bind, storagePutMessages. destruct (putThrows o).
  - unfold throw. by eexists _, _.
  - unfold modify.
    match goal with |- context [broadcast ?m ?x ?s] =>
      destruct (broadcast_spec m x s) as (st' & -> & Hd & _) end.
    exists (Returned tt), st'. split; [reflexivity|].
    unfold deliveryOnly in Hd. by destruct_and!.
Qed.

Lemma reactionUsers_found i reaction st m :
  messages st !! i = Some m →
  reactionUsers i reaction st = readProperty reaction (Message.reactions m).
Proof. intros Hi. unfold reactionUsers. by rewrite Hi. Qed.

Lemma readProperty_Own reaction r users :
  readProperty reaction r = Own users ↔ r !! reaction = Some users.
Proof.
  unfold readProperty. destruct (r !! reaction); [|case_bool_decide]; split; congruence.
Qed.

Lemma readProperty_Undefined reaction r :
  readProperty reaction r = Undefined ↔ r !! reaction = None ∧ reaction ∉ prototypeKeys.
Proof.
  unfold readProperty. destruct (r !! reaction); [|case_bool_decide];
    split; try congruence; try tauto; by intros [? ?].
Qed.

Lemma readProperty_Inherited reaction r :
  readProperty reaction r = Inherited ↔ r !! reaction = None ∧ reaction ∈ prototypeKeys.
Proof.
  unfold readProperty. destruct (r !! reaction); [|case_bool_decide];
    split; try congruence; try tauto; by intros [? ?].
Qed.

Lemma addReaction_member reaction userId r users :
  r !! reaction = Some users → userId ∈ users → addReaction reaction userId r = r.
Proof.
  intros Hk Hin. unfold addReaction, readProperty. rewrite Hk.
  by rewrite bool_decide_true.
Qed.

Lemma addReaction_fresh reaction userId r users :
  r !! reaction = Some users → userId ∉ users →
  addReaction reaction userId r = <[reaction := users ++ [userId]]> r.
Proof.
  intros Hk Hin. unfold addReaction, readProperty. rewrite Hk.
  by rewrite bool_decide_false.
Qed.

Lemma addReaction_new_key reaction userId r :
  r !! reaction = None → reaction ∉ prototypeKeys →
  addReaction reaction userId r = <[reaction := [userId]]> r.
Proof.
  intros Hk Hplain. unfold addReaction, readProperty. rewrite Hk.
  by rewrite bool_decide_false.
Qed.

Lemma addReaction_inherited reaction userId r :
  r !! reaction = None → reaction ∈ prototypeKeys → addReaction reaction userId r = r.
Proof.
  intros Hk Hproto. unfold addReaction, readProperty. rewrite Hk.
  by rewrite bool_decide_true.
Qed.

Lemma set_reactions_eq f g m :
  f (Message.reactions m) = g (Message.reactions m) →
  Message.set_reactions f m = Message.set_reactions g m.
Proof. intros Hfg. unfold Message.set_reactions. by rewrite Hfg. Qed.

Lemma handleReactionAdd_window o message userId st messageId reaction i m :
  WSMessage.messageId message = Some messageId → messageId ≠ "" →
  WSMessage.reaction message = Some reaction → reaction ≠ "" →
  findIndex messageId (messages st) = Some (i, m) →
  ∃ c st', handleReactionAdd o message userId st = (c, st')
    ∧ messages st' =
        <[i := Message.set_reactions (addReaction reaction userId) m]> (messages st).
Proof.
  intros Hmid Hne Hr Hrne Hfind.
  destruct (findIndex_lookup _ _ _ _ Hfind) as [Hi _].
  unfold handleReactionAdd. cbn zeta. rewrite Hmid, Hr.
  rewrite !truthy_Some by done. cbn [negb orb default from_option]. unfold Datatypes.id.
  unfold bind at 1, gets at 1. rewrite Hfind.
  unfold bind at 1, gets at 1. rewrite (reactionUsers_found _ _ _ _ Hi).
  unfold readProperty at 1.
  destruct (Message.reactions m !! reaction) as [users|] eqn:Hkey;
    [|destruct (decide (reaction ∈ prototypeKeys)) as [Hproto|Hplain]].
  - unfold bind at 1, ret at 1. unfold bind at 1, gets at 1.
    rewrite (reactionUsers_found _ _ _ _ Hi). unfold readProperty. rewrite Hkey.
    destruct (decide (userId ∈ users)) as [Hin|Hout].
    + rewrite bool_decide_true by done. cbn [negb when].
      exists (Returned tt), st. split; [reflexivity|].
      rewrite set_reactions_id by (by eapply addReaction_member).
      symmetry. by apply list_insert_id.
    + rewrite bool_decide_false by done. cbn [negb when].
      unfold bind at 1, updateReactions, modify at 1.
      match goal with |- context [(storagePutMessages o ;;; broadcast ?e None) ?s] =>
        destruct (persist_and_broadcast_window o e s) as (c & st' & -> & Hm) end.
      exists c, st'. split; [reflexivity|]. rewrite Hm. cbn [messages set_messages].
      rewrite (alter_found _ _ _ _ Hi). f_equal.
      apply set_reactions_eq. symmetry. by apply addReaction_fresh.
  - rewrite bool_decide_true by done.
    unfold bind at 1, ret at 1. unfold bind at 1, gets at 1.
    rewrite (reactionUsers_found _ _ _ _ Hi). unfold readProperty. rewrite Hkey.
    rewrite bool_decide_true by done. unfold throw.
    exists Thrown, st. split; [reflexivity|].
    rewrite set_reactions_id by (by apply addReaction_inherited).
    symmetry. by apply list_insert_id.
  - rewrite bool_decide_false by done.
    unfold bind at 1, updateReactions at 1, modify at 1.
    unfold bind at 1, gets at 1.
    erewrite reactionUsers_found
      by (cbn [messages set_messages]; rewrite list_lookup_alter_eq, Hi; reflexivity).
    unfold readProperty.
    cbn [Message.reactions Message.set_reactions]. rewrite lookup_insert_eq.
    rewrite bool_decide_false by (by intros ?%elem_of_nil). cbn [negb when].
    unfold bind at 1, updateReactions, modify at 1.
    match goal with |- context [(storagePutMessages o ;;; broadcast ?e None) ?s] =>
      destruct (persist_and_broadcast_window o e s) as (c & st' & -> & Hm) end.
    exists c, st'. split; [reflexivity|]. rewrite Hm. cbn [messages set_messages].
    rewrite list_alter_alter_eq. rewrite (alter_found _ _ _ _ Hi). f_equal.
    rewrite (set_reactions_eq (addReaction reaction userId) (<[reaction := [userId]]>))
      by (by apply addReaction_new_key).
    unfold compose, Message.set_reactions. cbn. by rewrite insert_insert_eq.
Qed.

Lemma handleReactionRemove_window o message userId st messageId reaction i m :
  WSMessage.messageId message = Some messageId → messageId ≠ "" →
  WSMessage.reaction message = Some reaction → reaction ≠ "" →
  findIndex messageId (messages st) = Some (i, m) →
  ∃ c st', handleReactionRemove o message userId st = (c, st')
    ∧ messages st' =
        <[i := Message.set_reactions (removeReaction reaction userId) m]> (messages st).
Proof.
  intros Hmid Hne Hr Hrne Hfind.
  destruct (findIndex_lookup _ _ _ _ Hfind) as [Hi _].
  unfold handleReactionRemove. cbn zeta. rewrite Hmid, Hr.
  rewrite !truthy_Some by done. cbn [negb orb default from_option]. unfold Datatypes.id.
  unfold bind at 1, gets at 1. rewrite Hfind.
  unfold bind at 1, gets at 1. rewrite (reactionUsers_found _ _ _ _ Hi).
  unfold readProperty.
  destruct (Message.reactions m !! reaction) as [users|] eqn:Hkey;
    [|destruct (bool_decide (reaction ∈ prototypeKeys))].
  - unfold bind at 1, updateReactions at 1, modify at 1.
    set (kept := List.filter (λ id, negb (String.eqb id userId)) users).
    assert (Hrem : removeReaction reaction userId (Message.reactions m)
                   = if Nat.eqb (length kept) 0
                     then delete reaction (Message.reactions m)
                     else <[reaction := kept]> (Message.reactions m)).
    { unfold removeReaction. by rewrite Hkey. }
    unfold bind at 1. destruct (Nat.eqb (length kept) 0) eqn:Hlen; cbn [when].
    + unfold updateReactions, modify at 1.
      match goal with |- context [(storagePutMessages o ;;; broadcast ?e None) ?s] =>
        destruct (persist_and_broadcast_window o e s) as (c & st' & -> & Hm) end.
      exists c, st'. split; [reflexivity|]. rewrite Hm. cbn [messages set_messages].
      rewrite list_alter_alter_eq, (alter_found _ _ _ _ Hi). f_equal.
      unfold compose, Message.set_reactions. cbn. rewrite Hrem.
      by rewrite delete_insert_eq.
    + unfold ret at 1.
      match goal with |- context [(storagePutMessages o ;;; broadcast ?e None) ?s] =>
        destruct (persist_and_broadcast_window o e s) as (c & st' & -> & Hm) end.
      exists c, st'. split; [reflexivity|]. rewrite Hm. cbn [messages set_messages].
      rewrite (alter_found _ _ _ _ Hi). f_equal.
      apply set_reactions_eq. by rewrite Hrem.
  - exists Thrown, st. split; [reflexivity|].
    rewrite set_reactions_id by (unfold removeReaction; by rewrite Hkey).
    symmetry. by apply list_insert_id.
  - exists (Returned tt), st. split; [reflexivity|].
    rewrite set_reactions_id by (unfold removeReaction; by rewrite Hkey).
    symmetry. by apply list_insert_id.
Qed.

(** Whatever a handler did before it threw stays; the listener only adds a
    unicast. *)
Lemma onMessage_window o message userId st c st1 :
  handleMessage o message userId st = (c, st1) →
  messages (after (onMessage o (Some message) userId) st) = messages st1.
Proof.
  intros Hrun. unfold after, onMessage, tryCatch. rewrite Hrun.
  destruct c; [reflexivity|].
  destruct (sendToUser_spec userId (error "Invalid message format") st1)
    as (st2 & -> & Hd & _).
  unfold deliveryOnly in Hd. by destruct_and!.
Qed.

Lemma handleMessage_reaction_add o message userId :
  WSMessage.type message = "reaction_add" →
  handleMessage o message userId = handleReactionAdd o message userId.
Proof. intros Ht. unfold handleMessage. by rewrite Ht. Qed.

Lemma handleMessage_reaction_remove o message userId :
  WSMessage.type message = "reaction_remove" →
  handleMessage o message userId = handleReactionRemove o message userId.
Proof. intros Ht. unfold handleMessage. by rewrite Ht. Qed.

Lemma reactionsOf_insert messageId st st' i m f :
  findIndex messageId (messages st) = Some (i, m) →
  messages st' = <[i := Message.set_reactions f m]> (messages st) →
  reactionsOf messageId st' = Some (f (Message.reactions m)).
Proof.
  intros Hfind Hm. unfold reactionsOf. rewrite Hm.
  by erewrite findIndex_insert by done.
Qed.

(** A [reaction_add] frame, through the listener, applies [addReaction] to
    the reaction map of the message it names. *)
Lemma reaction_add_effect o message userId st messageId reaction r :
  reactionFrame "reaction_add" messageId reaction message →
  reactionsOf messageId st = Some r →
  reactionsOf messageId (after (onMessage o (Some message) userId) st)
  = Some (addReaction reaction userId r).
Proof.
  intros Hframe Hr. unfold reactionsOf in Hr.
  destruct (findIndex messageId (messages st)) as [[i m]|] eqn:Hfind; [|done].
  injection Hr as <-. cbn [snd].
  destruct Hframe as (Htype & Hmid & Hne & Hkey & Hkne).
  destruct (handleReactionAdd_window o message userId st _ _ _ _ Hmid Hne Hkey Hkne Hfind)
    as (c & st1 & Hrun & Hm).
  eapply reactionsOf_insert; [exact Hfind|].
  erewrite onMessage_window; [exact Hm|].
  by rewrite handleMessage_reaction_add.
Qed.

Lemma reaction_remove_effect o message userId st messageId reaction r :
  reactionFrame "reaction_remove" messageId reaction message →
  reactionsOf messageId st = Some r →
  reactionsOf messageId (after (onMessage o (Some message) userId) st)
  = Some (removeReaction reaction userId r).
Proof.
  intros Hframe Hr. unfold reactionsOf in Hr.
  destruct (findIndex messageId (messages st)) as [[i m]|] eqn:Hfind; [|done].
  injection Hr as <-. cbn [snd].
  destruct Hframe as (Htype & Hmid & Hne & Hkey & Hkne).
  destruct (handleReactionRemove_window o message userId st _ _ _ _ Hmid Hne Hkey Hkne Hfind)
    as (c & st1 & Hrun & Hm).
  eapply reactionsOf_insert; [exact Hfind|].
  erewrite onMessage_window; [exact Hm|].
  by rewrite handleMessage_reaction_remove.
Qed.

Lemma filter_out_absent userId (users : list string) :
  userId ∉ users →
  List.filter (λ id, negb (String.eqb id userId)) users = users.
Proof.
  induction users as [|u users IH]; [done|].
  intros Hout. apply not_elem_of_cons in Hout as [Hne Hout]. cbn.
  destruct (String.eqb_spec u userId); [congruence|]. cbn. by rewrite IH.
Qed.

Lemma filter_out_snoc userId (users : list string) :
  userId ∉ users →
  List.filter (λ id, negb (String.eqb id userId)) (users ++ [userId]) = users.
Proof.
  intros Hout. rewrite List.filter_app, filter_out_absent by done. cbn.
  rewrite String.eqb_refl. cbn. by rewrite app_nil_r.
Qed.

(** The round trip on the reaction map itself. *)
Lemma removeReaction_addReaction reaction userId r :
  userId ∉ default [] (r !! reaction) →
  r !! reaction ≠ Some [] →
  removeReaction reaction userId (addReaction reaction userId r) = r.
Proof.
  intros Hout Hnonempty.
  destruct (r !! reaction) as [users|] eqn:Hkey; cbn in Hout.
  - rewrite (addReaction_fresh _ _ _ _ Hkey Hout).
    unfold removeReaction. rewrite lookup_insert_eq. cbn zeta.
    rewrite filter_out_snoc by done.
    destruct users as [|u users]; [done|]. cbn [length Nat.eqb].
    rewrite insert_insert_eq. by apply insert_id.
  - destruct (decide (reaction ∈ prototypeKeys)) as [Hproto|Hplain].
    + rewrite (addReaction_inherited _ _ _ Hkey Hproto).
      unfold removeReaction. by rewrite Hkey.
    + rewrite (addReaction_new_key _ _ _ Hkey Hplain).
      unfold removeReaction. rewrite lookup_insert_eq. cbn.
      rewrite String.eqb_refl. cbn. rewrite delete_insert_eq. by apply delete_id.
Qed.

Lemma addReaction_idempotent reaction userId r :
  addReaction reaction userId (addReaction reaction userId r)
  = addReaction reaction userId r.
Proof.
  destruct (r !! reaction) as [users|] eqn:Hkey.
  - destruct (decide (userId ∈ users)) as [Hin|Hout].
    + by rewrite !(addReaction_member _ _ _ _ Hkey Hin).
    + rewrite (addReaction_fresh _ _ _ _ Hkey Hout).
      eapply addReaction_member; [apply lookup_insert_eq|]. set_solver.
  - destruct (decide (reaction ∈ prototypeKeys)) as [Hproto|Hplain].
    + by rewrite !(addReaction_inherited _ _ _ Hkey Hproto).
    + rewrite (addReaction_new_key _ _ _ Hkey Hplain).
      eapply addReaction_member; [apply lookup_insert_eq|]. set_solver.
Qed.

Lemma addReaction_count reaction userId r :
  readProperty reaction r ≠ Inherited →
  (reactionCount reaction userId r ≤ 1)%nat →
  reactionCount reaction userId (addReaction reaction userId r) = 1.
Proof.
  unfold reactionCount. intros Hplain Hle.
  destruct (r !! reaction) as [users|] eqn:Hkey; cbn in Hle.
  - destruct (decide (userId ∈ users)) as [Hin|Hout].
    + rewrite (addReaction_member _ _ _ _ Hkey Hin), Hkey. cbn.
      apply list_elem_of_In, (count_occ_In string_dec) in Hin. lia.
    + rewrite (addReaction_fresh _ _ _ _ Hkey Hout), lookup_insert_eq. cbn.
      rewrite count_occ_app. cbn. destruct (string_dec userId userId); [|done].
      rewrite list_elem_of_In, (count_occ_not_In string_dec) in Hout. lia.
  - assert (reaction ∉ prototypeKeys) as Hnot.
    { intros Hproto. apply Hplain. unfold readProperty.
      by rewrite Hkey, bool_decide_true. }
    rewrite (addReaction_new_key _ _ _ Hkey Hnot), lookup_insert_eq. cbn.
    by destruct (string_dec userId userId).
Qed.

(** Any non-empty run of adds for one (message, key, user) has the effect of
    a single add. *)
Lemma reaction_adds_effect (adds : list (Oracle * WSMessage.t)) userId st messageId
    reaction r :
  Forall (λ a, reactionFrame "reaction_add" messageId reaction (snd a)) adds →
  reactionsOf messageId st = Some r →
  reactionsOf messageId (run ((λ a, command (fst a) (snd a) userId) <$> adds) st)
  = Some (match adds with [] => r | _ => addReaction reaction userId r end).
Proof.
  intros Hadds. revert st r. induction Hadds as [|[o message] adds Hframe _ IH];
    intros st r Hr; [done|].
  cbn [fmap list_fmap run command oracle frame sender fst snd].
  rewrite (IH _ _ (reaction_add_effect o message userId st _ _ _ Hframe Hr)).
  destruct adds; [done|]. by rewrite addReaction_idempotent.
Qed.

(** C7.  The guarantee stops at a reaction key that names a member of
    [Object.prototype].  Bob adds the reaction [constructor] to the message
    [m1] of the window: the lookup yields the inherited constructor function,
    the call of [includes] on it throws, the listener answers bob with
    [Invalid message format], and the reaction map still holds nobody under
    the key, where the add was to record bob exactly once. *)
Theorem reaction_add_inherited_key :
  reactionsOf "m1" Example.busy = Some {[ "+1" := ["bob"] ]}
  ∧ handleReactionAdd Example.fine Example.addConstructor "bob" Example.busy
    = (Thrown, Example.busy)
  ∧ reactionsOf "m1"
      (after (onMessage Example.fine (Some Example.addConstructor) "bob") Example.busy)
    = Some {[ "+1" := ["bob"] ]}
  ∧ reactionCount "constructor" "bob" {[ "+1" := ["bob"] ]} = 0
  ∧ wire (after (onMessage Example.fine (Some Example.addConstructor) "bob") Example.busy)
    = [("bob", error "Invalid message format")].
Proof. repeat split; by vm_compute. Qed.

(** C6, as amended.  For a message of the window whose reaction map has no
    empty user list under the key, and a user who has not yet reacted with
    that key, [reaction_add] followed at once by [reaction_remove] for the
    same (message, key, user) restores the reaction map exactly, a key
    created by the add being pruned again by the remove. *)
Theorem reaction_roundtrip o1 o2 (add remove : WSMessage.t) userId st messageId
    reaction r :
  reactionFrame "reaction_add" messageId reaction add →
  reactionFrame "reaction_remove" messageId reaction remove →
  reactionsOf messageId st = Some r →
  userId ∉ default [] (r !! reaction) →
  r !! reaction ≠ Some [] →
  reactionsOf messageId (run [command o1 add userId; command o2 remove userId] st)
  = Some r.
Proof.
  intros Hadd Hremove Hr Hout Hnonempty.
  cbn [run command oracle frame sender].
  rewrite (reaction_remove_effect o2 remove userId _ messageId reaction
             (addReaction reaction userId r) Hremove).
  - by rewrite removeReaction_addReaction.
  - by apply reaction_add_effect.
Qed.

(** ** Commands that name a message the actor cannot act on *)

Lemma findIndex_None messageId l :
  Forall (λ m, Message.id m ≠ messageId) l → findIndex messageId l = None.
Proof. intros Hall. by apply list_find_None. Qed.

Lemma handleEditMessage_rejected o message userId st messageId :
  WSMessage.messageId message = Some messageId →
  messageId ≠ "" →
  truthy (trim <$> WSMessage.content message) = true →
  (findIndex messageId (messages st) = None
   ∨ ∃ i m, findIndex messageId (messages st) = Some (i, m) ∧ Message.userId m ≠ userId) →
  handleEditMessage o message userId st
  = sendToUser userId (error "Message not found or unauthorized") st.
Proof.
  intros Hmid Hne Hcontent Hfind.
  unfold handleEditMessage. cbn zeta. rewrite Hmid, Hcontent, truthy_Some by done.
  cbn [negb orb default from_option]. unfold Datatypes.id.
  unfold bind at 1, gets at 1.
  destruct Hfind as [->|(i & m & -> & Hauthor)]; [reflexivity|].
  destruct (String.eqb_spec (Message.userId m) userId); [done|reflexivity].
Qed.

Lemma handleEditMessage_invalid o message userId st :
  truthy (WSMessage.messageId message) && truthy (trim <$> WSMessage.content message)
  = false →
  handleEditMessage o message userId st
  = sendToUser userId (error "Invalid edit request") st.
Proof.
  intros Hinvalid. unfold handleEditMessage. cbn zeta.
  rewrite <- negb_andb, Hinvalid. reflexivity.
Qed.

Lemma handleDeleteMessage_rejected o message userId st messageId :
  WSMessage.messageId message = Some messageId →
  messageId ≠ "" →
  (findIndex messageId (messages st) = None
   ∨ ∃ i m, findIndex messageId (messages st) = Some (i, m) ∧ Message.userId m ≠ userId) →
  handleDeleteMessage o message userId st
  = sendToUser userId (error "Message not found or unauthorized") st.
Proof.
  intros Hmid Hne Hfind.
  unfold handleDeleteMessage. cbn zeta. rewrite Hmid, truthy_Some by done.
  cbn [negb default from_option]. unfold Datatypes.id.
  unfold bind at 1, gets at 1.
  destruct Hfind as [->|(i & m & -> & Hauthor)]; [reflexivity|].
  destruct (String.eqb_spec (Message.userId m) userId); [done|reflexivity].
Qed.

Lemma handleReactionAdd_unknown o message userId st :
  findIndex (default "" (WSMessage.messageId message)) (messages st) = None →
  handleReactionAdd o message userId st = (Returned tt, st).
Proof.
  intros Hfind. unfold handleReactionAdd. cbn zeta.
  destruct (negb _ || negb _); [reflexivity|].
  unfold bind at 1, gets at 1. by rewrite Hfind.
Qed.

Lemma handleReactionRemove_unknown o message userId st :
  findIndex (default "" (WSMessage.messageId message)) (messages st) = None →
  handleReactionRemove o message userId st = (Returned tt, st).
Proof.
  intros Hfind. unfold handleReactionRemove. cbn zeta.
  destruct (negb _ || negb _); [reflexivity|].
  unfold bind at 1, gets at 1. by rewrite Hfind.
Qed.

Lemma sendToUser_wire userId message st :
  wire (after (sendToUser userId message) st)
  = wire st ++ (if liveSession userId st then [(userId, message)] else []).
Proof.
  unfold after. by destruct (sendToUser_spec userId message st) as (st' & -> & _ & Hw).
Qed.

Lemma sendToUser_deliveryOnly userId message st :
  deliveryOnly st (after (sendToUser userId message) st).
Proof.
  unfold after. by destruct (sendToUser_spec userId message st) as (st' & -> & ? & _).
Qed.

(** C5.  An [edit_message] naming a message that is not in the window, or
    whose author is someone else, ends in one unicast of an error to the
    sender and nothing more: window (content, [edited], [editedAt] of every
    entry), table and snapshot are as before.  With both required fields
    present the error is the combined "Message not found or unauthorized",
    the same whichever of the two cases applies. *)
Theorem edit_rejected o message userId st messageId :
  WSMessage.messageId message = Some messageId →
  (findIndex messageId (messages st) = None
   ∨ ∃ i m, findIndex messageId (messages st) = Some (i, m) ∧ Message.userId m ≠ userId) →
  let reason :=
    if truthy (Some messageId) && truthy (trim <$> WSMessage.content message)
    then "Message not found or unauthorized" else "Invalid edit request" in
  let st' := after (handleEditMessage o message userId) st in
  handleEditMessage o message userId st = sendToUser userId (error reason) st
  ∧ messages st' = messages st
  ∧ DB st' = DB st
  ∧ storage st' = storage st
  ∧ wire st' = wire st ++ (if liveSession userId st then [(userId, error reason)] else []).
Proof.
  intros Hmid Hfind reason st'.
  assert (Heq : handleEditMessage o message userId st = sendToUser userId (error reason) st).
  { subst reason.
    destruct (truthy (Some messageId) && truthy (trim <$> WSMessage.content message))
      eqn:Hvalid.
    - apply andb_true_iff in Hvalid as [Hne Hcontent].
      eapply handleEditMessage_rejected; [done| |done..].
      intros ->. by cbn in Hne.
    - apply handleEditMessage_invalid. by rewrite Hmid. }
  split; [exact Heq|]. subst st'. unfold after. rewrite Heq.
  pose proof (sendToUser_deliveryOnly userId (error reason) st) as Hd.
  pose proof (sendToUser_wire userId (error reason) st) as Hw.
  unfold after in Hd, Hw. unfold deliveryOnly in Hd. destruct_and!. by repeat split.
Qed.

(** C8, as amended.  When the message id of a command is not in the window:
    [edit_message] (given content) and [delete_message] answer with one error
    event to the sender; [reaction_add] and [reaction_remove] return without
    sending anything and without touching the state. *)
Theorem unknown_message_id o message userId st messageId :
  WSMessage.messageId message = Some messageId →
  messageId ≠ "" →
  Forall (λ m, Message.id m ≠ messageId) (messages st) →
  let notFound := error "Message not found or unauthorized" in
  (truthy (trim <$> WSMessage.content message) = true →
   handleEditMessage o message userId st = sendToUser userId notFound st)
  ∧ handleDeleteMessage o message userId st = sendToUser userId notFound st
  ∧ wire (after (sendToUser userId notFound) st)
    = wire st ++ (if liveSession userId st then [(userId, notFound)] else [])
  ∧ handleReactionAdd o message userId st = (Returned tt, st)
  ∧ handleReactionRemove o message userId st = (Returned tt, st).
Proof.
  intros Hmid Hne Hunknown notFound.
  pose proof (findIndex_None _ _ Hunknown) as Hfind.
  split; [|split; [|split; [|split]]].
  - intros Hcontent. eapply handleEditMessage_rejected; eauto.
  - eapply handleDeleteMessage_rejected; eauto.
  - apply sendToUser_wire.
  - apply handleReactionAdd_unknown. by rewrite Hmid.
  - apply handleReactionRemove_unknown. by rewrite Hmid.
Qed.

(** ** Typing *)

(** C9.  A [typing_start] from a user who is already typing changes nothing:
    the typing set, the timer map, the pending timers and the wire are those
    of before, so the running timer is neither refreshed nor replaced and no
    [typing_start] goes out. *)
Theorem typing_start_while_typing o message userId st :
  WSMessage.type message = "typing_start" →
  userId ∈ typingUsers st →
  handleTypingStart userId st = (Returned tt, st)
  ∧ onMessage o (Some message) userId st = (Returned tt, st).
Proof.
  intros Htype Htyping.
  assert (Hstart : handleTypingStart userId st = (Returned tt, st)).
  { unfold handleTypingStart, bind at 1, gets at 1. by rewrite bool_decide_true. }
  split; [exact Hstart|].
  assert (Hroute : handleMessage o message userId = handleTypingStart userId).
  { unfold handleMessage. by rewrite Htype. }
  unfold onMessage, tryCatch. by rewrite Hroute, Hstart.
Qed.

(** ** A send that goes through *)

Lemma handleSendMessage_success o message userId st :
  validContent (env st) message = true →
  dbThrows o = false →
  putThrows o = false →
  let fresh := newMessage o message userId (contentOf message) st in
  ∃ st' later, handleSendMessage o message userId st = (Returned tt, st')
    ∧ messages st' = trimWindow (messages st ++ [fresh])
    ∧ stored_messages (storage st') = Some (messages st')
    ∧ wire st' = wire st ++ broadcastFrames (new_message fresh) None (sessions st) ++ later
    ∧ Forall (λ f, snd f = typing_stop userId ∧ fst f ≠ userId) later.
Proof.
  intros Hvalid Hdb Hput fresh.
  unfold handleSendMessage. cbn zeta. unfold bind at 1, gets at 1.
  rewrite (validContent_guard _ _ Hvalid).
  unfold bind at 1, gets at 1. unfold bind at 1, gets at 1.
  fold (contentOf message). fold fresh.
  set (row := newRow o message userId (contentOf message) st).
  unfold tryCatch, dbRun. rewrite Hdb.
  unfold bind at 1, modify at 1. unfold bind at 1, modify at 1.
  unfold bind at 1, gets at 1. cbn [messages set_messages set_DB].
  set (st1 := set_messages (λ l, l ++ [fresh]) (set_DB (sqlInsert row) st)).
  assert (Hwhen : ∃ st2, when (100 <? length (messages st ++ [fresh]))%nat
                    (modify (set_messages (sliceLast 50))) st1 = (Returned tt, st2)
            ∧ messages st2 = trimWindow (messages st ++ [fresh])
            ∧ sessions st2 = sessions st ∧ wire st2 = wire st).
  { unfold when, trimWindow.
    destruct (100 <? length (messages st ++ [fresh]))%nat; eexists;
      (split; [reflexivity|]); by repeat split. }
  destruct Hwhen as (st2 & Hrun & Hm & Hs & Hw).
  unfold bind at 1. rewrite Hrun.
  unfold bind at 1, storagePutMessages. rewrite Hput. unfold modify. unfold bind at 1.
  match goal with |- context [broadcast ?m ?x ?s] =>
    destruct (broadcast_spec m x s) as (st3 & -> & Hdel & Hw3) end.
  destruct (handleTypingStop_spec userId st3) as (st4 & later & -> & Hk & Hw4 & Hlater).
  unfold deliveryOnly in Hdel. unfold storesKept in Hk. destruct_and!.
  cbn [messages storage sessions wire set_storage stored_messages] in *.
  exists st4, later. split; [reflexivity|]. repeat split.
  - congruence.
  - repeat match goal with H : storage _ = _ |- _ => rewrite H end.
    cbn. congruence.
  - rewrite Hw4, Hw3, Hs, Hw. by rewrite <- app_assoc.
  - exact Hlater.
Qed.

Lemma Map_get_elem_of {V} (k : string) (m : list (string * V)) v :
  Map_get k m = Some v → (k, v) ∈ m.
Proof.
  induction m as [|[k' v'] m IH]; [done|]. cbn.
  destruct (String.eqb_spec k' k) as [->|_].
  - intros [= ->]. by left.
  - intros ?. right. by apply IH.
Qed.

Lemma broadcastFrames_all message entries u ws :
  (u, ws) ∈ entries → isOpen ws = true → sendThrows ws = false →
  (u, message) ∈ broadcastFrames message None entries.
Proof.
  intros Hin Hopen Hsend. unfold broadcastFrames.
  apply list_elem_of_fmap. exists (u, ws). split; [done|].
  apply list_elem_of_In, List.filter_In. split; [by apply list_elem_of_In|].
  cbn. by rewrite Hopen, Hsend.
Qed.

(** C10.  A [send_message] that goes through broadcasts [new_message] with no
    user excluded: every registered session that is open (and whose socket
    accepts the send) gets the event, the sender's own session included; what
    follows on the wire is at most the sender's [typing_stop]. *)
Theorem send_reaches_every_session o message userId st :
  validContent (env st) message = true →
  dbThrows o = false →
  putThrows o = false →
  let fresh := newMessage o message userId (contentOf message) st in
  let st' := after (handleSendMessage o message userId) st in
  (∃ later, wire st'
            = wire st ++ broadcastFrames (new_message fresh) None (sessions st) ++ later
            ∧ Forall (λ f, snd f = typing_stop userId ∧ fst f ≠ userId) later)
  ∧ (∀ u ws, (u, ws) ∈ sessions st → isOpen ws = true → sendThrows ws = false →
             (u, new_message fresh) ∈ wire st')
  ∧ (liveSession userId st = true → (userId, new_message fresh) ∈ wire st').
Proof.
  intros Hvalid Hdb Hput fresh st'.
  destruct (handleSendMessage_success o message userId st Hvalid Hdb Hput)
    as (st1 & later & Hrun & _ & _ & Hw & Hlater).
  fold fresh in Hw.
  assert (Hst' : st' = st1) by (subst st'; unfold after; by rewrite Hrun).
  rewrite Hst'. clear Hst' st'.
  assert (Hall : ∀ u ws, (u, ws) ∈ sessions st → isOpen ws = true →
                         sendThrows ws = false → (u, new_message fresh) ∈ wire st1).
  { intros u ws Hin Hopen Hsend. rewrite Hw.
    apply elem_of_app. right. apply elem_of_app. left.
    by eapply broadcastFrames_all. }
  split; [by exists later|]. split; [exact Hall|].
  unfold liveSession. intros Hlive.
  destruct (Map_get userId (sessions st)) as [ws|] eqn:Hget; [|done].
  apply andb_true_iff in Hlive as [Hopen Hsend]. apply negb_true_iff in Hsend.
  eapply Hall; [by apply Map_get_elem_of|done..].
Qed.

(** ** Deleting *)

Lemma handleDeleteMessage_success o message userId st messageId i m :
  WSMessage.messageId message = Some messageId →
  messageId ≠ "" →
  findIndex messageId (messages st) = Some (i, m) →
  Message.userId m = userId →
  dbThrows o = false →
  putThrows o = false →
  ∃ st', handleDeleteMessage o message userId st = (Returned tt, st')
    ∧ messages st' = delete i (messages st)
    ∧ DB st' = sqlSoftDelete messageId userId (DB st)
    ∧ stored_messages (storage st') = Some (messages st')
    ∧ wire st' = wire st ++ broadcastFrames (message_deleted messageId) None (sessions st).
Proof.
  intros Hmid Hne Hfind Hauthor Hdb Hput.
  unfold handleDeleteMessage. cbn zeta. rewrite Hmid, truthy_Some by done.
  cbn [negb default from_option]. unfold Datatypes.id.
  unfold bind at 1, gets at 1. rewrite Hfind, Hauthor, String.eqb_refl. cbn [negb].
  unfold tryCatch, dbRun, storagePutMessages. rewrite Hdb, Hput.
  unfold bind at 1, modify at 1. unfold bind at 1, modify at 1.
  unfold bind at 1, modify at 1.
  match goal with |- context [broadcast ?e ?x ?s] =>
    destruct (broadcast_spec e x s) as (st' & -> & Hd & Hw) end.
  unfold deliveryOnly in Hd. destruct_and!.
  cbn [messages storage DB sessions wire set_storage set_messages set_DB] in *.
  exists st'. split; [reflexivity|]. repeat split; try congruence.
  repeat match goal with H : storage _ = _ |- _ => rewrite H end. cbn. congruence.
Qed.

Lemma findIndex_NoDup l i m :
  NoDup (Message.id <$> l) → l !! i = Some m → findIndex (Message.id m) l = Some (i, m).
Proof.
  intros Hnodup Hi. apply list_find_Some. split; [done|]. split; [done|].
  intros j y Hj Hlt Hid.
  assert (i = j); [|lia].
  eapply NoDup_lookup; [exact Hnodup| |]; rewrite list_lookup_fmap.
  - by rewrite Hi.
  - rewrite Hj. cbn. by rewrite Hid.
Qed.

Lemma delete_NoDup_id l i m :
  NoDup (Message.id <$> l) → l !! i = Some m →
  Forall (λ m', Message.id m' ≠ Message.id m) (delete i l).
Proof.
  intros Hnodup Hi.
  rewrite <- (take_drop_middle l i m Hi) in Hnodup.
  rewrite fmap_app, fmap_cons in Hnodup.
  apply NoDup_app in Hnodup as (_ & Hleft & Hright%NoDup_cons).
  destruct Hright as [Hright _].
  rewrite delete_take_drop. apply Forall_app. split; apply Forall_forall.
  - intros m' Hin Hid. apply (Hleft (Message.id m')).
    + apply list_elem_of_fmap. by exists m'.
    + rewrite Hid. by left.
  - intros m' Hin Hid. apply Hright. rewrite <- Hid.
    apply list_elem_of_fmap. by exists m'.
Qed.

Lemma sqlSoftDelete_ids messageId userId db :
  DbRow.id <$> sqlSoftDelete messageId userId db = DbRow.id <$> db.
Proof.
  unfold sqlSoftDelete. induction db as [|r db IH]; [done|]. cbn. f_equal; [|exact IH].
  by destruct (_ && _).
Qed.

Lemma sqlSoftDelete_marks messageId userId db :
  Forall (λ r, DbRow.id r = messageId → DbRow.userId r = userId → DbRow.deleted r = true)
         (sqlSoftDelete messageId userId db).
Proof.
  unfold sqlSoftDelete. apply Forall_forall. intros r' Hin.
  apply list_elem_of_In, List.in_map_iff in Hin as (r & <- & _).
  destruct (String.eqb_spec (DbRow.id r) messageId) as [Hid|Hid];
    destruct (String.eqb_spec (DbRow.userId r) userId) as [Hu|Hu]; cbn; done.
Qed.

(** C3.  A [delete_message] from the author of a message of the window (ids
    in the window being distinct, the update and the snapshot put going
    through): the table keeps every row, in place, and the rows of that id and
    author carry [deleted = true]; the window loses exactly the entry of that
    message, so no entry of that id remains, and the snapshot is the new
    window; [message_deleted], which carries the id alone, is broadcast with
    no user excluded. *)
Theorem delete_by_author o message userId st messageId m :
  WSMessage.messageId message = Some messageId →
  messageId ≠ "" →
  m ∈ messages st →
  Message.id m = messageId →
  Message.userId m = userId →
  NoDup (Message.id <$> messages st) →
  dbThrows o = false →
  putThrows o = false →
  let st' := after (handleDeleteMessage o message userId) st in
  DB st' = sqlSoftDelete messageId userId (DB st)
  ∧ DbRow.id <$> DB st' = DbRow.id <$> DB st
  ∧ Forall (λ r, DbRow.id r = messageId → DbRow.userId r = userId → DbRow.deleted r = true)
           (DB st')
  ∧ (∃ i, messages st !! i = Some m ∧ messages st' = delete i (messages st))
  ∧ Forall (λ m', Message.id m' ≠ messageId) (messages st')
  ∧ stored_messages (storage st') = Some (messages st')
  ∧ wire st' = wire st ++ broadcastFrames (message_deleted messageId) None (sessions st).
Proof.
  intros Hmid Hne Hin Hid Hauthor Hnodup Hdb Hput st'.
  apply list_elem_of_lookup in Hin as [i Hi].
  pose proof (findIndex_NoDup _ _ _ Hnodup Hi) as Hfind. rewrite Hid in Hfind.
  destruct (handleDeleteMessage_success o message userId st messageId i m
              Hmid Hne Hfind Hauthor Hdb Hput) as (st1 & Hrun & Hm & HDB & Hsnap & Hw).
  assert (Hst' : st' = st1) by (subst st'; unfold after; by rewrite Hrun).
  rewrite Hst'. clear Hst' st'.
  split; [exact HDB|]. split; [rewrite HDB; apply sqlSoftDelete_ids|].
  split; [rewrite HDB; apply sqlSoftDelete_marks|].
  split; [by exists i|].
  split; [|by split].
  rewrite Hm, <- Hid. by apply delete_NoDup_id.
Qed.

(** ** History *)

Lemma ascii_compare_trans x y z c :
  Ascii.compare x y = c → Ascii.compare y z = c → Ascii.compare x z = c.
Proof.
  unfold Ascii.compare. destruct c.
  - rewrite !N.compare_eq_iff. congruence.
  - rewrite !N.compare_lt_iff. lia.
  - rewrite !N.compare_gt_iff. lia.
Qed.

Lemma string_leb_trans (a b c : string) :
  String.leb a b = true → String.leb b c = true → String.leb a c = true.
Proof.
  unfold String.leb. revert b c.
  induction a as [|x a IH]; intros [|y b] [|z c]; cbn [String.compare]; try done.
  destruct (Ascii.compare x y) eqn:Hxy; [|clear IH|done].
  - apply Ascii.compare_eq_iff in Hxy as ->.
    destruct (Ascii.compare y z); [apply IH|done..].
  - destruct (Ascii.compare y z) eqn:Hyz; [| |done].
    + apply Ascii.compare_eq_iff in Hyz as ->. by rewrite Hxy.
    + by rewrite (ascii_compare_trans x y z Lt).
Qed.

Global Instance timestampGe_total : Total timestampGe.
Proof.
  intros r1 r2. unfold timestampGe.
  destruct (String.leb_total (DbRow.timestamp r1) (DbRow.timestamp r2)); auto.
Qed.

Global Instance timestampLe_trans : Transitive timestampLe.
Proof. intros m1 m2 m3. unfold timestampLe. apply string_leb_trans. Qed.

Lemma Sorted_take {A} (R : relation A) n l : Sorted R l → Sorted R (take n l).
Proof.
  intros Hs. revert n. induction Hs as [|x l Hs IH Hhd]; intros [|n]; cbn;
    try constructor; [apply IH|].
  destruct Hhd; destruct n; cbn; by constructor.
Qed.

Lemma sqlLimit_Sorted {A} (R : relation A) limit l :
  Sorted R l → Sorted R (sqlLimit limit l).
Proof. unfold sqlLimit. destruct (limit <? 0)%Z; [done|]. apply Sorted_take. Qed.

Lemma sqlLimit_subseteq {A} limit (l : list A) : sqlLimit limit l ⊆ l.
Proof.
  unfold sqlLimit. destruct (limit <? 0)%Z; [done|].
  intros x (i & Hi & _)%elem_of_take. by eapply list_elem_of_lookup_2.
Qed.

Lemma sqlLimit_length {A} limit (l : list A) :
  (0 ≤ limit)%Z → (Z.of_nat (length (sqlLimit limit l)) ≤ limit)%Z.
Proof.
  intros Hnonneg. unfold sqlLimit.
  destruct (Z.ltb_spec limit 0); [lia|]. rewrite length_take. lia.
Qed.

(** Every row the query returns is a row of the table that passes the
    [WHERE] clause. *)
Lemma sqlSelectHistory_sound channel before limit db r :
  r ∈ sqlSelectHistory channel before limit db →
  r ∈ db ∧ DbRow.channelId r = channel ∧ DbRow.deleted r = false
  ∧ match before with
    | Some b => String.ltb (DbRow.timestamp r) b = true
    | None => True
    end.
Proof.
  unfold sqlSelectHistory. cbn zeta. intros Hin%sqlLimit_subseteq.
  rewrite merge_sort_Permutation in Hin.
  apply list_elem_of_In, List.filter_In in Hin as [Hin Hwhere].
  apply andb_true_iff in Hwhere as [Hwhere Hbefore].
  apply andb_true_iff in Hwhere as [Hchannel Hdeleted].
  split; [by apply list_elem_of_In|]. split; [by apply String.eqb_eq|].
  split; [by apply negb_true_iff|]. by destruct before.
Qed.

Lemma sqlSelectHistory_Sorted channel before limit db :
  Sorted timestampGe (sqlSelectHistory channel before limit db).
Proof. unfold sqlSelectHistory. cbn zeta. apply sqlLimit_Sorted, Sorted_merge_sort, _. Qed.

Lemma truthy_before (before : option string) b :
  before = Some b → b ≠ "" → (if truthy before then before else None) = Some b.
Proof. intros -> Hne. by rewrite truthy_Some. Qed.

(** C4.  A history fetch returns only rows of the table that are not marked
    deleted and belong to the actor's channel; with a (non-empty) [before]
    every returned timestamp is strictly below it; with a non-negative
    [limit] at most that many messages come back, and at most 50 when the
    parameter is missing; the messages are in ascending timestamp order. *)
Theorem history_fetch o request st :
  let result := getMessages o request st in
  Forall (λ m, ∃ r, r ∈ DB st ∧ m = rowToMessage (members st !! DbRow.userId r) r
                    ∧ DbRow.deleted r = false ∧ DbRow.channelId r = channelId st) result
  ∧ Forall (λ m, Message.deleted m = false ∧ Message.channelId m = channelId st) result
  ∧ (∀ b, before request = Some b → b ≠ "" →
          Forall (λ m, String.ltb (Message.timestamp m) b = true) result)
  ∧ (∀ n, limit request = Some n → (0 ≤ n)%Z → (Z.of_nat (length result) ≤ n)%Z)
  ∧ (limit request = None → (length result ≤ 50)%nat)
  ∧ StronglySorted timestampLe result.
Proof.
  intros result. subst result. unfold getMessages. cbn zeta.
  destruct (dbThrows o).
  { repeat split; intros; try constructor; cbn; lia. }
  set (cursor := if truthy (before request) then before request else None).
  set (bound := default 50%Z (limit request)).
  set (rows := sqlSelectHistory (channelId st) cursor bound (DB st)).
  assert (Hrows : ∀ r, r ∈ reverse rows →
            r ∈ DB st ∧ DbRow.channelId r = channelId st ∧ DbRow.deleted r = false
            ∧ match cursor with
              | Some b => String.ltb (DbRow.timestamp r) b = true
              | None => True
              end).
  { intros r Hr. rewrite elem_of_reverse in Hr. by apply sqlSelectHistory_sound in Hr. }
  assert (Hmap : ∀ (P : Message.t → Prop),
            (∀ r, r ∈ reverse rows → P (rowToMessage (members st !! DbRow.userId r) r)) →
            Forall P (List.map (λ r, rowToMessage (members st !! DbRow.userId r) r)
                               (reverse rows))).
  { intros P HP. apply Forall_forall. intros m Hm.
    apply list_elem_of_In, List.in_map_iff in Hm as (r & <- & Hr).
    by apply HP, list_elem_of_In. }
  split; [|split; [|split; [|split; [|split]]]].
  - apply Hmap. intros r Hr. destruct (Hrows r Hr) as (? & ? & ? & _). by exists r.
  - apply Hmap. intros r Hr. by destruct (Hrows r Hr) as (? & ? & ? & _).
  - intros b Hb Hne. apply Hmap. intros r Hr.
    destruct (Hrows r Hr) as (_ & _ & _ & Hlt).
    subst cursor. by rewrite (truthy_before _ _ Hb Hne) in Hlt.
  - intros n Hn Hnonneg. rewrite length_map, length_reverse.
    subst rows bound. rewrite Hn. cbn. unfold sqlSelectHistory. cbn zeta.
    by apply sqlLimit_length.
  - intros Hn. rewrite length_map, length_reverse.
    subst rows bound. rewrite Hn. cbn. unfold sqlSelectHistory. cbn zeta.
    rewrite length_take. change (Z.to_nat 50) with 50%nat. lia.
  - apply Sorted_StronglySorted; [apply _|].
    apply (Sorted_fmap _ (flip timestampGe)); [by intros r1 r2|].
    apply Sorted_reverse, sqlSelectHistory_Sorted.
Qed.

(** ** The rolling window *)

Lemma sliceLast_length {A} n (l : list A) : length (sliceLast n l) = min n (length l).
Proof. unfold sliceLast. rewrite length_drop. lia. Qed.

Lemma trimWindow_overflow w :
  100 < length w → trimWindow w = sliceLast 50 w ∧ length (trimWindow w) = 50.
Proof.
  intros Hlen. unfold trimWindow.
  destruct (Nat.ltb_spec 100 (length w)); [|lia].
  split; [done|]. rewrite sliceLast_length. lia.
Qed.

Lemma trimWindow_fits w : length w ≤ 100 → trimWindow w = w.
Proof. intros Hlen. unfold trimWindow. by destruct (Nat.ltb_spec 100 (length w)); [lia|]. Qed.

Lemma trimWindow_bound w : length (trimWindow w) ≤ 100.
Proof.
  unfold trimWindow. destruct (Nat.ltb_spec 100 (length w)); [|done].
  rewrite sliceLast_length. lia.
Qed.

Lemma handleMessage_send o message userId :
  WSMessage.type message = "send_message" →
  handleMessage o message userId = handleSendMessage o message userId.
Proof. intros Ht. unfold handleMessage. by rewrite Ht. Qed.

Lemma onMessage_send o message userId st :
  WSMessage.type message = "send_message" →
  onMessage o (Some message) userId st = handleSendMessage o message userId st.
Proof.
  intros Ht. unfold onMessage, tryCatch. rewrite (handleMessage_send _ _ _ Ht).
  pose proof (handleSendMessage_returns o message userId st) as Hret.
  destruct (handleSendMessage o message userId st) as [[[]|] st']; cbn in Hret; done.
Qed.

Lemma newMessage_config o message userId content st st0 :
  members st = members st0 → channelId st = channelId st0 →
  newMessage o message userId content st = newMessage o message userId content st0.
Proof. intros Hm Hc. unfold newMessage. by rewrite Hm, Hc. Qed.

Lemma run_sends sends st st0 :
  env st = env st0 → members st = members st0 → channelId st = channelId st0 →
  Forall (goesThrough (env st0)) sends →
  messages (run (sendCommand <$> sends) st)
  = foldl (λ w s, trimWindow (w ++ [created st0 s])) (messages st) sends.
Proof.
  intros He Hm Hc Hsends. revert st He Hm Hc.
  induction Hsends as [|s sends (Htype & Hvalid & Hdb) _ IH]; intros st He Hm Hc; [done|].
  cbn [fmap list_fmap run sendCommand command oracle frame sender foldl].
  unfold after at 1. rewrite (onMessage_send _ _ _ _ Htype). rewrite <- He in Hvalid.
  destruct (handleSendMessage_inserted _ _ (sendUser s) st Hvalid Hdb)
    as (st1 & Hrun & Hw & _ & He1 & Hm1 & Hc1).
  rewrite Hrun. cbn [snd].
  rewrite IH by congruence. rewrite Hw. unfold created.
  by rewrite (newMessage_config _ _ _ _ st st0).
Qed.

Lemma foldl_trim_fits {A} (f : A → Message.t) (l : list A) :
  length l ≤ 100 →
  foldl (λ w x, trimWindow (w ++ [f x])) [] l = f <$> l.
Proof.
  induction l as [|x l IH] using rev_ind; [done|].
  rewrite length_app. cbn. intros Hlen.
  rewrite foldl_snoc, IH, fmap_app by lia. cbn.
  apply trimWindow_fits. rewrite length_app, length_fmap. cbn. lia.
Qed.

Lemma sliceLast_fmap {A B} (f : A → B) n (l : list A) :
  sliceLast n (f <$> l) = f <$> sliceLast n l.
Proof. unfold sliceLast. by rewrite fmap_drop, length_fmap. Qed.

Lemma foldl_trim_101 {A} (f : A → Message.t) (l : list A) :
  length l = 101 →
  foldl (λ w x, trimWindow (w ++ [f x])) [] l = f <$> sliceLast 50 l.
Proof.
  destruct l as [|x l _] using rev_ind; [done|].
  rewrite length_app. cbn. intros Hlen.
  rewrite foldl_snoc, foldl_trim_fits by lia.
  rewrite <- sliceLast_fmap, fmap_app. cbn.
  apply trimWindow_overflow. rewrite length_app, length_fmap. cbn. lia.
Qed.


(** ** How a command can change the window *)

Lemma sendToUser_window userId message st :
  ∃ st', sendToUser userId message st = (Returned tt, st') ∧ messages st' = messages st.
Proof.
  destruct (sendToUser_spec userId message st) as (st' & Hrun & Hd & _).
  exists st'. split; [done|]. unfold deliveryOnly in Hd. by destruct_and!.
Qed.

Lemma handleSendMessage_step o message userId st :
  ∃ st', handleSendMessage o message userId st = (Returned tt, st')
         ∧ windowStep o (messages st) (messages st').
Proof.
  destruct (validContent (env st) message) eqn:Hvalid.
  - destruct (dbThrows o) eqn:Hdb.
    + rewrite (handleSendMessage_insert_fails o message userId st Hvalid Hdb).
      destruct (sendToUser_window userId (error "Failed to send message") st)
        as (st' & -> & Hm).
      exists st'. split; [done|]. by apply step_same.
    + destruct (handleSendMessage_inserted o message userId st Hvalid Hdb)
        as (st' & -> & Hm & _).
      exists st'. split; [done|].
      by apply (step_push _ _ _ (newMessage o message userId (contentOf message) st)).
  - unfold handleSendMessage. cbn zeta. unfold bind at 1, gets at 1.
    assert (Hguard : negb (truthy (trim <$> WSMessage.content message))
                     || tooLong (env st) (default "" (trim <$> WSMessage.content message))
                     = true).
    { unfold validContent in Hvalid. cbn zeta in Hvalid.
      destruct (truthy (trim <$> WSMessage.content message)); [|done].
      cbn in *. by apply negb_false_iff in Hvalid. }
    rewrite Hguard.
    destruct (sendToUser_window userId
                (error "Message content is invalid or too long") st) as (st' & -> & Hm).
    exists st'. split; [done|]. by apply step_same.
Qed.

Lemma handleEditMessage_step o message userId st :
  ∃ st', handleEditMessage o message userId st = (Returned tt, st')
         ∧ windowStep o (messages st) (messages st').
Proof.
  assert (Hsame : ∀ reason, ∃ st', sendToUser userId (error reason) st = (Returned tt, st')
                                   ∧ windowStep o (messages st) (messages st')).
  { intros reason. destruct (sendToUser_window userId (error reason) st) as (st' & -> & Hm).
    exists st'. split; [done|]. by apply step_same. }
  unfold handleEditMessage. cbn zeta.
  destruct (negb _ || negb _); [apply Hsame|].
  unfold bind at 1, gets at 1.
  destruct (findIndex _ (messages st)) as [[i m]|]; [|apply Hsame].
  destruct (negb _); [apply Hsame|].
  unfold tryCatch, dbRun. destruct (dbThrows o).
  { unfold bind at 1, throw. apply Hsame. }
  unfold bind at 1, modify at 1. unfold bind at 1, modify at 1.
  unfold bind at 1, storagePutMessages. destruct (putThrows o).
  - unfold throw.
    match goal with |- context [sendToUser ?u ?e ?s] =>
      destruct (sendToUser_window u e s) as (st' & -> & Hm) end.
    exists st'. split; [done|]. rewrite Hm. by eapply step_edit.
  - unfold modify. unfold bind at 1, gets at 1.
    match goal with |- context [match ?x with Some _ => _ | None => _ end] =>
      destruct x end.
    + match goal with |- context [broadcast ?e ?x ?s] =>
        destruct (broadcast_spec e x s) as (st' & -> & Hd & _) end.
      exists st'. split; [done|]. unfold deliveryOnly in Hd. destruct_and!.
      match goal with H : messages st' = _ |- _ => rewrite H end. by eapply step_edit.
    + eexists. split; [reflexivity|]. by eapply step_edit.
Qed.

Lemma handleDeleteMessage_step o message userId st :
  ∃ st', handleDeleteMessage o message userId st = (Returned tt, st')
         ∧ windowStep o (messages st) (messages st').
Proof.
  assert (Hsame : ∀ reason, ∃ st', sendToUser userId (error reason) st = (Returned tt, st')
                                   ∧ windowStep o (messages st) (messages st')).
  { intros reason. destruct (sendToUser_window userId (error reason) st) as (st' & -> & Hm).
    exists st'. split; [done|]. by apply step_same. }
  unfold handleDeleteMessage. cbn zeta.
  destruct (negb _); [apply Hsame|].
  unfold bind at 1, gets at 1.
  destruct (findIndex _ (messages st)) as [[i m]|]; [|apply Hsame].
  destruct (negb _); [apply Hsame|].
  unfold tryCatch, dbRun. destruct (dbThrows o).
  { unfold bind at 1, throw. apply Hsame. }
  unfold bind at 1, modify at 1. unfold bind at 1, modify at 1.
  unfold bind at 1, storagePutMessages. destruct (putThrows o).
  - unfold throw.
    match goal with |- context [sendToUser ?u ?e ?s] =>
      destruct (sendToUser_window u e s) as (st' & -> & Hm) end.
    exists st'. split; [done|]. rewrite Hm. by eapply step_delete.
  - unfold modify.
    match goal with |- context [broadcast ?e ?x ?s] =>
      destruct (broadcast_spec e x s) as (st' & -> & Hd & _) end.
    exists st'. split; [done|]. unfold deliveryOnly in Hd. destruct_and!.
    match goal with H : messages st' = _ |- _ => rewrite H end. by eapply step_delete.
Qed.

Lemma truthy_inv x : truthy x = true → ∃ s, x = Some s ∧ s ≠ "".
Proof.
  destruct x as [s|]; [|done]. cbn. intros Hs%negb_true_iff.
  exists s. split; [done|]. intros ->. done.
Qed.

Lemma handleReactionAdd_step o message userId st :
  ∃ c st', handleReactionAdd o message userId st = (c, st')
           ∧ windowStep o (messages st) (messages st').
Proof.
  destruct (truthy (WSMessage.messageId message)) eqn:Hmid;
    [destruct (truthy (WSMessage.reaction message)) eqn:Hkey|].
  - apply truthy_inv in Hmid as (messageId & Hmid & Hne).
    apply truthy_inv in Hkey as (reaction & Hkey & Hkne).
    destruct (findIndex messageId (messages st)) as [[i m]|] eqn:Hfind.
    + destruct (handleReactionAdd_window o message userId st _ _ _ _
                  Hmid Hne Hkey Hkne Hfind) as (c & st' & -> & Hm).
      exists c, st'. split; [done|].
      eapply step_react; [|exact Hm]. by eapply findIndex_lookup.
    + rewrite handleReactionAdd_unknown by (by rewrite Hmid).
      eexists _, _. split; [done|]. by apply step_same.
  - unfold handleReactionAdd. cbn zeta. rewrite Hmid, Hkey.
    eexists _, _. split; [reflexivity|]. by apply step_same.
  - unfold handleReactionAdd. cbn zeta. rewrite Hmid.
    eexists _, _. split; [reflexivity|]. by apply step_same.
Qed.

Lemma handleReactionRemove_step o message userId st :
  ∃ c st', handleReactionRemove o message userId st = (c, st')
           ∧ windowStep o (messages st) (messages st').
Proof.
  destruct (truthy (WSMessage.messageId message)) eqn:Hmid;
    [destruct (truthy (WSMessage.reaction message)) eqn:Hkey|].
  - apply truthy_inv in Hmid as (messageId & Hmid & Hne).
    apply truthy_inv in Hkey as (reaction & Hkey & Hkne).
    destruct (findIndex messageId (messages st)) as [[i m]|] eqn:Hfind.
    + destruct (handleReactionRemove_window o message userId st _ _ _ _
                  Hmid Hne Hkey Hkne Hfind) as (c & st' & -> & Hm).
      exists c, st'. split; [done|].
      eapply step_unreact; [|exact Hm]. by eapply findIndex_lookup.
    + rewrite handleReactionRemove_unknown by (by rewrite Hmid).
      eexists _, _. split; [done|]. by apply step_same.
  - unfold handleReactionRemove. cbn zeta. rewrite Hmid, Hkey.
    eexists _, _. split; [reflexivity|]. by apply step_same.
  - unfold handleReactionRemove. cbn zeta. rewrite Hmid.
    eexists _, _. split; [reflexivity|]. by apply step_same.
Qed.

Lemma handleTypingStart_window userId st :
  ∃ st', handleTypingStart userId st = (Returned tt, st') ∧ messages st' = messages st.
Proof.
  unfold handleTypingStart, bind, gets, modify, ret.
  destruct (bool_decide (userId ∈ typingUsers st)); [by exists st|].
  cbn [typingTimeouts set_typingUsers].
  destruct (typingTimeouts st !! userId) as [h|];
    [unfold when, clearTimeout, modify, ret; destruct (negb (h =? 0))|];
    unfold setTimeout, bind, gets, modify, ret;
    match goal with |- context [broadcast ?e ?x ?s] =>
      destruct (broadcast_spec e x s) as (st' & -> & Hd & _) end;
    exists st'; (split; [done|]); unfold deliveryOnly in Hd; by destruct_and!.
Qed.

Lemma handleTypingStop_window userId st :
  ∃ st', handleTypingStop userId st = (Returned tt, st') ∧ messages st' = messages st.
Proof.
  destruct (handleTypingStop_spec userId st) as (st' & later & -> & Hk & _).
  exists st'. split; [done|]. unfold storesKept in Hk. by destruct_and!.
Qed.

Lemma handleMessage_step o message userId st :
  ∃ c st', handleMessage o message userId st = (c, st')
           ∧ windowStep o (messages st) (messages st').
Proof.
  assert (Hsame : ∀ (m : Act unit),
            (∃ st', m st = (Returned tt, st') ∧ messages st' = messages st) →
            ∃ c st', m st = (c, st') ∧ windowStep o (messages st) (messages st')).
  { intros m (st' & -> & Hm). exists (Returned tt), st'. split; [done|]. by apply step_same. }
  assert (Hret : ∀ (m : Act unit),
            (∃ st', m st = (Returned tt, st') ∧ windowStep o (messages st) (messages st')) →
            ∃ c st', m st = (c, st') ∧ windowStep o (messages st) (messages st')).
  { intros m (st' & -> & Hm). by exists (Returned tt), st'. }
  unfold handleMessage. cbn zeta.
  repeat match goal with |- context [if ?b then _ else _] => destruct b end.
  - apply Hret, handleSendMessage_step.
  - apply Hret, handleEditMessage_step.
  - apply Hret, handleDeleteMessage_step.
  - apply Hsame, handleTypingStart_window.
  - apply Hsame, handleTypingStop_window.
  - apply handleReactionAdd_step.
  - apply handleReactionRemove_step.
  - apply Hsame, sendToUser_window.
  - apply Hsame, sendToUser_window.
Qed.

(** One frame through the listener, parsed or not. *)
Lemma onMessage_step o parsed userId st :
  windowStep o (messages st) (messages (after (onMessage o parsed userId) st)).
Proof.
  destruct parsed as [message|].
  - destruct (handleMessage_step o message userId st) as (c & st' & Hrun & Hstep).
    by rewrite (onMessage_window _ _ _ _ _ _ Hrun).
  - unfold after, onMessage, tryCatch, throw.
    destruct (sendToUser_window userId (error "Invalid message format") st)
      as (st' & -> & Hm).
    by apply step_same.
Qed.

(** ** Invariants kept by every command *)

Lemma windowStep_bounded o w w' :
  windowStep o w w' → windowBounded w → windowBounded w'.
Proof.
  unfold windowBounded.
  intros [->| fresh _ _ -> | i c t -> | i -> | i m k u _ -> | i m k u _ ->] Hw.
  - done.
  - apply trimWindow_bound.
  - by rewrite length_alter.
  - pose proof (sublist_length _ _ (sublist_delete w i)). lia.
  - by rewrite length_insert.
  - by rewrite length_insert.
Qed.

Lemma addReaction_wf reaction userId r :
  reactionsWf r → reactionsWf (addReaction reaction userId r).
Proof.
  intros Hwf. destruct (r !! reaction) as [users|] eqn:Hkey.
  - destruct (decide (userId ∈ users)) as [Hin|Hout].
    + by rewrite (addReaction_member _ _ _ _ Hkey Hin).
    + rewrite (addReaction_fresh _ _ _ _ Hkey Hout). intros k us.
      destruct (decide (reaction = k)) as [<-|Hne].
      * rewrite lookup_insert_eq. intros [= <-].
        destruct (Hwf _ _ Hkey) as [_ Hnodup].
        split; [by destruct users|].
        apply NoDup_app. split; [done|]. split; [|apply NoDup_singleton].
        intros x Hx ->%list_elem_of_singleton. done.
      * rewrite lookup_insert_ne by done. apply Hwf.
  - destruct (decide (reaction ∈ prototypeKeys)) as [Hproto|Hplain];
      [by rewrite (addReaction_inherited _ _ _ Hkey Hproto)|].
    rewrite (addReaction_new_key _ _ _ Hkey Hplain). intros k us.
    destruct (decide (reaction = k)) as [<-|Hne].
    + rewrite lookup_insert_eq. intros [= <-]. split; [done|apply NoDup_singleton].
    + rewrite lookup_insert_ne by done. apply Hwf.
Qed.

Lemma removeReaction_wf reaction userId r :
  reactionsWf r → reactionsWf (removeReaction reaction userId r).
Proof.
  intros Hwf. unfold removeReaction.
  destruct (r !! reaction) as [users|] eqn:Hkey; [|done]. cbn zeta.
  destruct (Nat.eqb_spec (length (List.filter (λ id, negb (String.eqb id userId)) users)) 0)
    as [Hlen|Hlen]; intros k us.
  - destruct (decide (reaction = k)) as [<-|Hne].
    + by rewrite lookup_delete_eq.
    + rewrite lookup_delete_ne by done. apply Hwf.
  - destruct (decide (reaction = k)) as [<-|Hne].
    + rewrite lookup_insert_eq. intros [= <-]. split.
      * intros Hnil. by rewrite Hnil in Hlen.
      * apply NoDup_ListNoDup, List.NoDup_filter, NoDup_ListNoDup.
        by destruct (Hwf _ _ Hkey).
    + rewrite lookup_insert_ne by done. apply Hwf.
Qed.

Lemma windowStep_reactionsWf o w w' :
  windowStep o w w' → windowReactionsWf w → windowReactionsWf w'.
Proof.
  unfold windowReactionsWf.
  intros [->| fresh _ Hempty -> | i c t -> | i -> | i m k u Hi -> | i m k u Hi ->] Hw.
  - done.
  - assert (Hall : Forall (λ m, reactionsWf (Message.reactions m)) (w ++ [fresh])).
    { apply Forall_app. split; [done|]. constructor; [|constructor].
      rewrite Hempty. intros k us. by rewrite lookup_empty. }
    unfold trimWindow. destruct (100 <? length (w ++ [fresh])); [|done].
    by apply Forall_drop.
  - apply Forall_alter; [done|]. by intros m _ Hm.
  - by apply Forall_delete.
  - apply Forall_insert; [done|]. apply addReaction_wf.
    eapply (proj1 (Forall_forall _ _) Hw). by eapply list_elem_of_lookup_2.
  - apply Forall_insert; [done|]. apply removeReaction_wf.
    eapply (proj1 (Forall_forall _ _) Hw). by eapply list_elem_of_lookup_2.
Qed.

(** The ids of the new window are distinct again, and none is new except the
    UUID the platform handed out. *)
Lemma windowStep_ids o w w' :
  windowStep o w w' → idsDistinct w → randomUUID o ∉ (Message.id <$> w) →
  idsDistinct w' ∧ (Message.id <$> w') ⊆ randomUUID o :: (Message.id <$> w).
Proof.
  unfold idsDistinct.
  assert (Hkeep : (Message.id <$> w) ⊆ randomUUID o :: (Message.id <$> w))
    by (intros x Hx; by right).
  intros [->| fresh Hid _ -> | i c t -> | i -> | i m k u Hi -> | i m k u Hi ->] Hw Hfresh.
  - done.
  - assert (Hall : NoDup (Message.id <$> w ++ [fresh])).
    { rewrite fmap_app. apply NoDup_app. split; [done|]. cbn. rewrite Hid.
      split; [|apply NoDup_singleton]. by intros x Hx ->%list_elem_of_singleton. }
    assert (Hsub : (Message.id <$> trimWindow (w ++ [fresh]))
                   `sublist_of` (Message.id <$> w ++ [fresh])).
    { unfold trimWindow. destruct (100 <? length (w ++ [fresh])); [|done].
      unfold sliceLast. rewrite fmap_drop. apply sublist_drop. }
    split; [by eapply sublist_NoDup|].
    intros x Hx. apply (elem_of_sublist _ _ _ Hx) in Hsub as Hx'. clear Hx.
    rename Hx' into Hx. rewrite fmap_app in Hx. cbn in Hx. rewrite Hid in Hx.
    apply elem_of_app in Hx as [Hx|Hx%list_elem_of_singleton]; [by right|].
    rewrite Hx. by left.
  - rewrite (list_fmap_alter _ _ id) by (by apply Forall_forall).
    replace (alter id i (Message.id <$> w)) with (Message.id <$> w); [done|].
    apply list_eq. intros j. destruct (decide (i = j)) as [->|Hne].
    + rewrite list_lookup_alter_eq. by destruct (_ !! j).
    + by rewrite list_lookup_alter_ne.
  - rewrite list_fmap_delete. split; [eapply sublist_NoDup, sublist_delete; done|].
    intros x Hx. right. eapply elem_of_sublist; [exact Hx|apply sublist_delete].
  - rewrite list_fmap_insert. cbn.
    by rewrite list_insert_id by (by rewrite list_lookup_fmap, Hi).
  - rewrite list_fmap_insert. cbn.
    by rewrite list_insert_id by (by rewrite list_lookup_fmap, Hi).
Qed.

(** Between commands the window never holds more than 100 messages. *)
Lemma run_windowBounded cmds st :
  windowBounded (messages st) → windowBounded (messages (run cmds st)).
Proof.
  revert st. induction cmds as [|c cmds IH]; intros st Hw; [done|].
  cbn [run]. apply IH. eapply windowStep_bounded; [apply onMessage_step|done].
Qed.

(** Reaction maps stay well-formed: no empty user list, no user twice. *)
Lemma run_reactionsWf cmds st :
  windowReactionsWf (messages st) → windowReactionsWf (messages (run cmds st)).
Proof.
  revert st. induction cmds as [|c cmds IH]; intros st Hw; [done|].
  cbn [run]. apply IH. eapply windowStep_reactionsWf; [apply onMessage_step|done].
Qed.

(** Ids stay distinct as long as the UUIDs handed out are new. *)
Lemma run_idsDistinct cmds st :
  NoDup (((λ c, randomUUID (oracle c)) <$> cmds) ++ (Message.id <$> messages st)) →
  idsDistinct (messages (run cmds st)).
Proof.
  revert st. induction cmds as [|c cmds IH]; intros st Hnodup.
  - done.
  - cbn [run]. cbn in Hnodup. apply NoDup_cons in Hnodup as [Hfresh Hnodup].
    apply NoDup_app in Hnodup as (Hcmds & Hdisjoint & Hids).
    assert (Hnew : randomUUID (oracle c) ∉ (Message.id <$> messages st)).
    { intros Hin. apply Hfresh, elem_of_app. by right. }
    destruct (windowStep_ids _ _ _ (onMessage_step (oracle c) (frame c) (sender c) st))
      as [Hids' Hsub]; [done..|].
    apply IH. apply NoDup_app. split; [done|]. split; [|done].
    intros x Hx Hx'. apply Hsub in Hx'. apply elem_of_cons in Hx' as [->|Hx'].
    + apply Hfresh, elem_of_app. by left.
    + by eapply Hdisjoint.
Qed.

(** C2.  A [send_message] that is stored appends to the window and, once the
    window then holds more than 100 entries, cuts it back to its 50 newest.
    So while the window starts within 100 it holds at most 101 entries right
    after the append and at most 100 when the handler returns, it stays
    within 100 whatever frames follow, and 101 sends on an empty window leave
    exactly the 50 newest messages. *)
Theorem window_overflow_trim o message userId st (sends : list Send)
    (cmds : list Command) :
  validContent (env st) message = true →
  dbThrows o = false →
  let appended := messages st ++ [newMessage o message userId (contentOf message) st] in
  let st' := after (handleSendMessage o message userId) st in
  (100 < length appended →
     messages st' = sliceLast 50 appended ∧ length (messages st') = 50)
  ∧ (length appended ≤ 100 → messages st' = appended)
  ∧ (length (messages st) ≤ 100 → length appended ≤ 101)
  ∧ length (messages st') ≤ 100
  ∧ (length (messages st) ≤ 100 → length (messages (run cmds st)) ≤ 100)
  ∧ (messages st = [] → length sends = 101 → Forall (goesThrough (env st)) sends →
       messages (run (sendCommand <$> sends) st) = created st <$> sliceLast 50 sends
       ∧ length (messages (run (sendCommand <$> sends) st)) = 50).
Proof.
  intros Hvalid Hdb appended st'.
  destruct (handleSendMessage_inserted o message userId st Hvalid Hdb)
    as (st1 & Hrun & Hw & _).
  assert (Hst' : st' = st1) by (subst st'; unfold after; by rewrite Hrun).
  rewrite Hst'. clear Hst' st'. fold appended in Hw. rewrite Hw.
  split; [apply trimWindow_overflow|].
  split; [apply trimWindow_fits|].
  split; [subst appended; rewrite length_app; cbn; lia|].
  split; [apply trimWindow_bound|].
  split; [apply run_windowBounded|].
  intros Hempty Hlen Hsends.
  rewrite (run_sends sends st st) by done. rewrite Hempty.
  rewrite foldl_trim_101 by done.
  split; [done|]. rewrite length_fmap, sliceLast_length. lia.
Qed.

(** ** The window a cold start loads *)

Lemma List_filter_sublist {A} (f : A → bool) (l : list A) :
  List.filter f l `sublist_of` l.
Proof.
  induction l as [|x l IH]; [done|]. cbn.
  destruct (f x); [by apply sublist_skip|by apply sublist_cons].
Qed.

Lemma sqlSelectRecent_rows channel db :
  length (sqlSelectRecent channel db) ≤ 50
  ∧ sqlSelectRecent channel db ⊆ db
  ∧ (NoDup (DbRow.id <$> db) → NoDup (DbRow.id <$> sqlSelectRecent channel db)).
Proof.
  unfold sqlSelectRecent. split; [|split].
  - pose proof (sqlLimit_length 50%Z
      (merge_sort timestampGe (List.filter (λ r,
         String.eqb (DbRow.channelId r) channel && negb (DbRow.deleted r) && true) db))).
    unfold sqlSelectHistory. cbn zeta. lia.
  - intros r Hr. by apply sqlSelectHistory_sound in Hr as [? _].
  - intros Hnodup. unfold sqlSelectHistory, sqlLimit. cbn.
    eapply sublist_NoDup; [|apply fmap_sublist, sublist_take].
    rewrite merge_sort_Permutation.
    eapply sublist_NoDup; [exact Hnodup|]. apply fmap_sublist, List_filter_sublist.
Qed.

(** With no snapshot to resume from, the window is loaded from the table: at
    most 50 messages, each built from a row, with no reactions. *)
Lemma construct_window o e s db :
  stored_messages s = None ∨ stored_messages s = Some [] →
  ∃ rows, messages (construct o e s db) = hydrateRow <$> rows
          ∧ length rows ≤ 50 ∧ rows ⊆ db
          ∧ (NoDup (DbRow.id <$> db) → NoDup (DbRow.id <$> rows)).
Proof.
  intros Hstored.
  assert (Hnone : ∃ rows : list DbRow.t, [] = hydrateRow <$> rows ∧ length rows ≤ 50
            ∧ rows ⊆ db ∧ (NoDup (DbRow.id <$> db) → NoDup (DbRow.id <$> rows))).
  { exists []. cbn. repeat split; [lia|by intros ? ?%elem_of_nil|by constructor]. }
  assert (Hloaded : ∀ channel, ∃ rows : list DbRow.t,
            List.map hydrateRow (reverse (sqlSelectRecent channel db)) = hydrateRow <$> rows
            ∧ length rows ≤ 50 ∧ rows ⊆ db
            ∧ (NoDup (DbRow.id <$> db) → NoDup (DbRow.id <$> rows))).
  { intros channel. destruct (sqlSelectRecent_rows channel db) as (Hlen & Hsub & Hids).
    exists (reverse (sqlSelectRecent channel db)). split; [done|].
    split; [by rewrite length_reverse|]. split.
    - intros r Hr. rewrite elem_of_reverse in Hr. by apply Hsub.
    - intros Hnodup. rewrite fmap_reverse, reverse_Permutation. by apply Hids. }
  unfold construct. cbn zeta.
  destruct Hstored as [-> | ->];
    (destruct (String.eqb _ ""); [exact Hnone|]);
    (destruct (dbThrows o || putThrows o); [exact Hnone|]); apply Hloaded.
Qed.

Lemma hydrated_invariants (rows : list DbRow.t) :
  length rows ≤ 50 →
  windowBounded (hydrateRow <$> rows)
  ∧ windowReactionsWf (hydrateRow <$> rows)
  ∧ (NoDup (DbRow.id <$> rows) → idsDistinct (hydrateRow <$> rows)).
Proof.
  intros Hlen. unfold windowBounded, windowReactionsWf, idsDistinct. split; [|split].
  - rewrite length_fmap. lia.
  - apply Forall_fmap, Forall_forall. intros r _ k users. cbn. by rewrite lookup_empty.
  - intros Hnodup. by rewrite <- list_fmap_compose.
Qed.

(** From a cold start on a table with distinct primary keys, whatever frames
    arrive (each send with a UUID neither in the table nor handed out
    before), the window stays within 100 entries, its ids stay distinct and
    its reaction maps stay well-formed. *)
Lemma reachable_invariants o e s db cmds :
  stored_messages s = None ∨ stored_messages s = Some [] →
  NoDup (((λ c, randomUUID (oracle c)) <$> cmds) ++ (DbRow.id <$> db)) →
  let st := run cmds (construct o e s db) in
  windowBounded (messages st)
  ∧ windowReactionsWf (messages st)
  ∧ idsDistinct (messages st).
Proof.
  intros Hstored Hnodup st. subst st.
  destruct (construct_window o e s db Hstored) as (rows & Hw & Hlen & Hsub & Hids).
  destruct (hydrated_invariants rows Hlen) as (Hbounded & Hwf & Hdistinct).
  apply NoDup_app in Hnodup as (Hcmds & Hdisjoint & Hdb).
  split; [|split].
  - apply run_windowBounded. by rewrite Hw.
  - apply run_reactionsWf. by rewrite Hw.
  - apply run_idsDistinct. rewrite Hw. apply NoDup_app. split; [done|]. split.
    + intros x Hx Hx'. apply (Hdisjoint x Hx).
      rewrite <- list_fmap_compose in Hx'.
      apply list_elem_of_fmap in Hx' as (r & -> & Hr).
      apply list_elem_of_fmap. exists r. split; [done|]. by apply Hsub.
    + apply Hdistinct, Hids, Hdb.
Qed.

(** ** Well-formed reaction maps meet the side conditions of the reaction laws *)

Lemma reactionsWf_count reaction userId r :
  reactionsWf r → reactionCount reaction userId r ≤ 1.
Proof.
  intros Hwf. unfold reactionCount.
  destruct (r !! reaction) as [users|] eqn:Hkey; cbn; [|lia].
  destruct (Hwf _ _ Hkey) as [_ Hnodup].
  apply NoDup_ListNoDup in Hnodup.
  by apply (proj1 (List.NoDup_count_occ string_dec users)).
Qed.

Lemma reactionsWf_nonempty reaction r : reactionsWf r → r !! reaction ≠ Some [].
Proof. intros Hwf Hkey. by destruct (Hwf _ _ Hkey). Qed.

(** ** Where the superseded copy of the class differs *)

(** On overflow it keeps the newest 100 entries, not 50. *)
Lemma legacy_push_keeps_100 fresh w :
  100 < length (w ++ [fresh]) →
  Legacy.pushMessage fresh w = sliceLast 100 (w ++ [fresh])
  ∧ length (Legacy.pushMessage fresh w) = 100.
Proof.
  intros Hlen. unfold Legacy.pushMessage. cbn zeta.
  destruct (Nat.ltb_spec 100 (length (w ++ [fresh]))); [|lia].
  split; [done|]. rewrite sliceLast_length. lia.
Qed.

(** A delete flags the window entry and leaves it in place. *)
Lemma legacy_delete_flags i m w :
  w !! i = Some m →
  Legacy.deleteInWindow i w !! i = Some (Message.set_deleted true m)
  ∧ length (Legacy.deleteInWindow i w) = length w.
Proof.
  intros Hi. unfold Legacy.deleteInWindow.
  by rewrite list_lookup_alter_eq, Hi, length_alter.
Qed.

(** Its history query has no [deleted = 0] condition. *)
Lemma legacy_history_shows_deleted :
  Legacy.sqlSelectHistory "general" None 50%Z [DbRow.set_deleted Example.helloRow]
  = [DbRow.set_deleted Example.helloRow]
  ∧ sqlSelectHistory "general" None 50%Z [DbRow.set_deleted Example.helloRow] = [].
Proof. split; reflexivity. Qed.

(** A negative [limit] is no bound at all. *)
Lemma sqlLimit_negative {A} limit (rows : list A) :
  (limit < 0)%Z → sqlLimit limit rows = rows.
Proof. intros Hneg. unfold sqlLimit. by destruct (Z.ltb_spec limit 0); [|lia]. Qed.


(** * Further properties of the class *)

(** ** Rules for [wp] *)

Lemma wp_ret {A} (a : A) Q st : Q (Returned a) st → wp (ret a) Q st.
Proof. done. Qed.

Lemma wp_throw {A} (Q : Completion A → ChatRoom → Prop) st : Q Thrown st → wp throw Q st.
Proof. done. Qed.

Lemma wp_gets {A} (f : ChatRoom → A) Q st : Q (Returned (f st)) st → wp (gets f) Q st.
Proof. done. Qed.

Lemma wp_modify f Q st : Q (Returned tt) (f st) → wp (modify f) Q st.
Proof. done. Qed.

Lemma wp_bind {A B} (m : Act A) (k : A → Act B) Q st :
  wp m (λ c st', match c with
                 | Returned a => wp (k a) Q st'
                 | Thrown => Q Thrown st'
                 end) st →
  wp (bind m k) Q st.
Proof. unfold wp, bind. by destruct (m st) as [[a|] st']. Qed.

Lemma wp_tryCatch (body handler : Act unit) Q st :
  wp body (λ c st', match c with
                    | Returned a => Q (Returned a) st'
                    | Thrown => wp handler Q st'
                    end) st →
  wp (tryCatch body handler) Q st.
Proof. unfold wp, tryCatch. by destruct (body st) as [[a|] st']. Qed.

Lemma wp_mono {A} (m : Act A) (Q Q' : Completion A → ChatRoom → Prop) st :
  wp m Q st → (∀ c st', Q c st' → Q' c st') → wp m Q' st.
Proof. unfold wp. auto. Qed.

Lemma wp_after {A} (m : Act A) (P : ChatRoom → Prop) st :
  wp m (λ _ st', P st') st → P (after m st).
Proof. done. Qed.

(** ** Delivery, in full *)

Lemma filter_filter {A} (f g : A → bool) (l : list A) :
  List.filter f (List.filter g l) = List.filter (λ x, g x && f x) l.
Proof.
  induction l as [|x l IH]; [done|]. cbn.
  destruct (g x); cbn; [destruct (f x)|]; by rewrite IH.
Qed.

Lemma filter_ext_in {A} (f g : A → bool) (l : list A) :
  (∀ x, x ∈ l → f x = g x) → List.filter f l = List.filter g l.
Proof.
  intros Hfg. apply List.filter_ext_in. intros x Hx. by apply Hfg, list_elem_of_In.
Qed.

Lemma withoutUsers_nil entries : withoutUsers [] entries = entries.
Proof.
  unfold withoutUsers. induction entries as [|e entries IH]; [done|]. cbn.
  rewrite bool_decide_false by apply not_elem_of_nil. cbn. by rewrite IH.
Qed.

Lemma withoutUsers_cons u users entries :
  withoutUsers users (Map_delete u entries) = withoutUsers (u :: users) entries.
Proof.
  unfold withoutUsers, Map_delete. rewrite filter_filter. apply filter_ext_in.
  intros e _. destruct (String.eqb_spec (fst e) u) as [->|Hne]; cbn.
  - by rewrite bool_decide_true by (by left).
  - destruct (decide (fst e ∈ users)) as [Hin|Hout].
    + by rewrite !bool_decide_true by (done || by right).
    + rewrite !bool_decide_false; [done| |done].
      by intros [?|?]%elem_of_cons.
Qed.

(** The registry a broadcast leaves: the sessions of the users it evicted
    are gone, all others are where they were. *)
Lemma broadcast_loop_sessions message excludeUserId entries st :
  sessions (after (forEach entries (broadcastTo message excludeUserId)) st)
  = withoutUsers (evictedUsers excludeUserId entries) (sessions st).
Proof.
  revert st. induction entries as [|e entries IH]; intros st.
  - cbn. by rewrite withoutUsers_nil.
  - unfold after in *. cbn [forEach]. unfold bind. rewrite broadcastTo_spec.
    unfold evictedUsers, evicts. cbn [List.filter].
    destruct (negb (bool_decide (Some (fst e) = excludeUserId)) && isOpen (snd e));
      cbn [andb]; [destruct (sendThrows (snd e))|]; rewrite IH; cbn [sessions set_sessions set_wire];
      [by rewrite withoutUsers_cons|done..].
Qed.

Lemma broadcast_full message excludeUserId st :
  ∃ st', broadcast message excludeUserId st = (Returned tt, st')
         ∧ deliveryOnly st st'
         ∧ wire st' = wire st ++ broadcastFrames message excludeUserId (sessions st)
         ∧ sessions st' = withoutUsers (evictedUsers excludeUserId (sessions st)) (sessions st).
Proof.
  destruct (broadcast_spec message excludeUserId st) as (st' & Hrun & Hd & Hw).
  exists st'. split; [done|]. split; [done|]. split; [done|].
  pose proof (broadcast_loop_sessions message excludeUserId (sessions st) st) as Hs.
  unfold after in Hs. unfold broadcast, bind, gets in Hrun. by rewrite Hrun in Hs.
Qed.

Lemma sendToUser_full userId message st :
  ∃ st', sendToUser userId message st = (Returned tt, st')
         ∧ deliveryOnly st st'
         ∧ wire st' = wire st ++ unicastFrames userId message st
         ∧ sessions st' =
             match Map_get userId (sessions st) with
             | Some ws => if isOpen ws && sendThrows ws
                          then Map_delete userId (sessions st) else sessions st
             | None => sessions st
             end.
Proof.
  destruct (sendToUser_spec userId message st) as (st' & Hrun & Hd & Hw).
  exists st'. split; [done|]. split; [done|]. split; [done|].
  apply (f_equal snd) in Hrun. cbn in Hrun. rewrite <- Hrun.
  unfold sendToUser, bind, gets, when, tryCatch, wsSend, throw, modify, ret.
  destruct (Map_get userId (sessions st)) as [ws|]; [|done]. cbn.
  destruct (isOpen ws); [|done]. by destruct (sendThrows ws).
Qed.

Lemma withoutUsers_sublist users entries : withoutUsers users entries `sublist_of` entries.
Proof. apply List_filter_sublist. Qed.

Lemma Map_delete_sublist {V} k (m : list (string * V)) : Map_delete k m `sublist_of` m.
Proof. apply List_filter_sublist. Qed.

Lemma wp_broadcast message excludeUserId Q st :
  (∀ st', deliveryOnly st st' →
          wire st' = wire st ++ broadcastFrames message excludeUserId (sessions st) →
          sessions st' = withoutUsers (evictedUsers excludeUserId (sessions st)) (sessions st) →
          sessions st' `sublist_of` sessions st →
          Q (Returned tt) st') →
  wp (broadcast message excludeUserId) Q st.
Proof.
  intros HQ. destruct (broadcast_full message excludeUserId st) as (st' & Hrun & ? & ? & Hs).
  unfold wp. rewrite Hrun. cbn [fst snd]. apply HQ; [done..|].
  rewrite Hs. apply withoutUsers_sublist.
Qed.

Lemma wp_sendToUser userId message Q st :
  (∀ st', deliveryOnly st st' →
          wire st' = wire st ++ unicastFrames userId message st →
          sessions st' = match Map_get userId (sessions st) with
                         | Some ws => if isOpen ws && sendThrows ws
                                      then Map_delete userId (sessions st) else sessions st
                         | None => sessions st
                         end →
          sessions st' `sublist_of` sessions st →
          Q (Returned tt) st') →
  wp (sendToUser userId message) Q st.
Proof.
  intros HQ. destruct (sendToUser_full userId message st) as (st' & Hrun & ? & ? & Hs).
  unfold wp. rewrite Hrun. cbn [fst snd]. apply HQ; [done..|]. rewrite Hs.
  destruct (Map_get userId (sessions st)) as [ws|]; [|done].
  destruct (isOpen ws && sendThrows ws); [apply Map_delete_sublist|done].
Qed.

Lemma NoDup_keys_eq {V} (l : list (string * V)) e e' :
  NoDup (fst <$> l) → e ∈ l → e' ∈ l → fst e = fst e' → e = e'.
Proof.
  induction l as [|x l IH]; [by intros _ ?%elem_of_nil|].
  rewrite fmap_cons. intros [Hx Hl]%NoDup_cons He He' Hkey.
  apply elem_of_cons in He as [->|He]; apply elem_of_cons in He' as [->|He'].
  - done.
  - exfalso. apply Hx. rewrite Hkey. apply list_elem_of_fmap. by exists e'.
  - exfalso. apply Hx. rewrite <- Hkey. apply list_elem_of_fmap. by exists e.
  - by apply IH.
Qed.

Lemma withoutUsers_evicted excludeUserId entries :
  NoDup (fst <$> entries) →
  withoutUsers (evictedUsers excludeUserId entries) entries
  = List.filter (λ e, negb (evicts excludeUserId e)) entries.
Proof.
  intros Hnodup. unfold withoutUsers. apply filter_ext_in. intros e He. f_equal.
  destruct (evicts excludeUserId e) eqn:Hev.
  - apply bool_decide_eq_true. unfold evictedUsers. apply list_elem_of_fmap.
    exists e. split; [done|]. by apply list_elem_of_In, List.filter_In, conj; [apply list_elem_of_In|].
  - apply bool_decide_eq_false. unfold evictedUsers. intros (e' & Hkey & He')%list_elem_of_fmap.
    apply list_elem_of_In, List.filter_In in He' as [He'%list_elem_of_In Hev'].
    rewrite (NoDup_keys_eq entries e e' Hnodup He He' Hkey) in Hev. congruence.
Qed.

Lemma Map_get_delete_ne {V} (k k' : string) (m : list (string * V)) :
  k ≠ k' → Map_get k' (Map_delete k m) = Map_get k' m.
Proof.
  intros Hne. induction m as [|[k0 v] m IH]; [done|]. unfold Map_delete in *. cbn.
  destruct (String.eqb_spec k0 k) as [->|Hk0]; cbn.
  - destruct (String.eqb_spec k k'); [done|exact IH].
  - destruct (String.eqb_spec k0 k'); [done|exact IH].
Qed.

Lemma Map_get_delete_eq {V} (k : string) (m : list (string * V)) :
  Map_get k (Map_delete k m) = None.
Proof.
  induction m as [|[k0 v] m IH]; [done|]. unfold Map_delete in *. cbn.
  destruct (String.eqb_spec k0 k) as [->|Hk0]; cbn; [exact IH|].
  destruct (String.eqb_spec k0 k); [done|exact IH].
Qed.

(** X1.  [broadcast] never throws and touches nothing but the registry and
    the wire.  With one session per user, the frames it adds are the message
    for every registered socket that is not the excluded user's, is open and
    accepts the send, in registration order; the sockets it evicts are exactly
    those that are not excluded, open, and raise on send.  A closed socket is
    skipped and stays registered; one raising socket does not keep the others
    from being served. *)
Theorem broadcast_isolates_failures message excludeUserId st :
  registryWf st →
  let st' := after (broadcast message excludeUserId) st in
  fst (broadcast message excludeUserId st) = Returned tt
  ∧ deliveryOnly st st'
  ∧ wire st' = wire st ++
      ((λ e, (fst e, message)) <$>
         List.filter (λ e, negb (bool_decide (Some (fst e) = excludeUserId))
                           && isOpen (snd e) && negb (sendThrows (snd e))) (sessions st))
  ∧ sessions st' = List.filter (λ e, negb (evicts excludeUserId e)) (sessions st)
  ∧ (∀ u ws, (u, ws) ∈ sessions st → isOpen ws = false → (u, ws) ∈ sessions st')
  ∧ (∀ u ws, (u, ws) ∈ sessions st → Some u ≠ excludeUserId → isOpen ws = true →
             sendThrows ws = false →
             (u, ws) ∈ sessions st' ∧ (u, message) ∈ wire st').
Proof.
  intros Hwf st'.
  destruct (broadcast_full message excludeUserId st) as (st1 & Hrun & Hd & Hw & Hs).
  assert (Hst' : st' = st1) by (subst st'; unfold after; by rewrite Hrun).
  rewrite Hst', Hrun. clear Hst' st'.
  rewrite withoutUsers_evicted in Hs by done.
  assert (Hstay : ∀ u ws, (u, ws) ∈ sessions st → evicts excludeUserId (u, ws) = false →
                          (u, ws) ∈ sessions st1).
  { intros u ws Hin Hev. rewrite Hs. apply list_elem_of_In, List.filter_In.
    split; [by apply list_elem_of_In|]. by rewrite Hev. }
  split; [done|]. split; [done|]. split; [exact Hw|]. split; [exact Hs|]. split.
  - intros u ws Hin Hclosed. apply Hstay; [done|]. unfold evicts. cbn.
    rewrite Hclosed. by rewrite andb_false_r.
  - intros u ws Hin Hne Hopen Hsend. split.
    + apply Hstay; [done|]. unfold evicts. cbn. rewrite Hsend. by rewrite andb_false_r.
    + rewrite Hw. apply elem_of_app. right. unfold broadcastFrames.
      apply list_elem_of_fmap. exists (u, ws). split; [done|].
      apply list_elem_of_In, List.filter_In. split; [by apply list_elem_of_In|]. cbn.
      rewrite Hopen, Hsend. by rewrite bool_decide_false.
Qed.

(** X2.  [sendToUser] never throws, touches nothing but the registry and the
    wire, and can only reach the named user: it adds the one frame when that
    user's socket is registered, open and accepts the send; with no session or
    a closed socket it does nothing at all; a socket that raises is evicted
    without any frame or error.  No other user's session is affected. *)
Theorem sendToUser_outcomes userId message st :
  let st' := after (sendToUser userId message) st in
  fst (sendToUser userId message st) = Returned tt
  ∧ deliveryOnly st st'
  ∧ wire st' = wire st ++ (if liveSession userId st then [(userId, message)] else [])
  ∧ (Map_get userId (sessions st) = None → st' = st)
  ∧ (∀ ws, Map_get userId (sessions st) = Some ws → isOpen ws = false → st' = st)
  ∧ (∀ ws, Map_get userId (sessions st) = Some ws → isOpen ws = true →
           sendThrows ws = true →
           sessions st' = Map_delete userId (sessions st)
           ∧ Map_get userId (sessions st') = None)
  ∧ (∀ u, u ≠ userId → Map_get u (sessions st') = Map_get u (sessions st)).
Proof.
  intros st'.
  destruct (sendToUser_full userId message st) as (st1 & Hrun & Hd & Hw & Hs).
  assert (Hst' : st' = st1) by (subst st'; unfold after; by rewrite Hrun).
  split; [by rewrite Hrun|]. rewrite Hst'. split; [done|]. split; [exact Hw|].
  assert (Hcompute : ∀ st2, sendToUser userId message st = (Returned tt, st2) → st1 = st2)
    by (intros st2 Hrun2; congruence).
  split; [|split; [|split]].
  - intros Hget. apply Hcompute.
    unfold sendToUser, bind, gets. by rewrite Hget.
  - intros ws Hget Hclosed. apply Hcompute.
    unfold sendToUser, bind, gets, when. by rewrite Hget, Hclosed.
  - intros ws Hget Hopen Hthrows. rewrite Hs, Hget, Hopen, Hthrows. cbn.
    split; [done|apply Map_get_delete_eq].
  - intros u Hne. rewrite Hs. destruct (Map_get userId (sessions st)) as [ws|]; [|done].
    destruct (isOpen ws && sendThrows ws); [|done]. by apply Map_get_delete_ne.
Qed.

(** ** Running a handler symbolically *)

Lemma wp_returns {A} (m : Act A) (P : A → ChatRoom → Prop) st :
  wp m (λ c st', match c with Returned a => P a st' | Thrown => False end) st →
  ∃ a st', m st = (Returned a, st') ∧ P a st'.
Proof. unfold wp. destruct (m st) as [[a|] st']; [|done]. by exists a, st'. Qed.

Ltac wp_step :=
  lazymatch goal with
  | |- wp (bind _ _) _ _ => apply wp_bind
  | |- wp (ret _) _ _ => apply wp_ret
  | |- wp throw _ _ => apply wp_throw
  | |- wp (gets _) _ _ => apply wp_gets
  | |- wp (modify _) _ _ => apply wp_modify
  | |- wp (tryCatch _ _) _ _ => apply wp_tryCatch
  | |- wp (when _ _) _ _ => unfold when at 1
  | |- wp (dbRun _ _) _ _ => unfold dbRun at 1
  | |- wp (storagePutMessages _) _ _ => unfold storagePutMessages at 1
  | |- wp (clearTimeout _) _ _ => unfold clearTimeout at 1
  | |- wp (setTimeout _) _ _ => unfold setTimeout at 1
  | |- wp (updateReactions _ _) _ _ => unfold updateReactions at 1
  | |- wp (broadcast _ _) _ _ => apply wp_broadcast; intros ? ? ? ? ?
  | |- wp (sendToUser _ _) _ _ => apply wp_sendToUser; intros ? ? ? ? ?
  | |- wp (if ?b then _ else _) _ _ => destruct b eqn:?
  | |- wp (match ?x with _ => _ end) _ _ => destruct x eqn:?
  end; lazy beta iota.

Ltac wp_run := repeat wp_step.

(** Unfold what delivery keeps and name the fields. *)
Ltac fields :=
  unfold deliveryOnly, storesKept in *; destruct_and?;
  cbn [env sessions members messages typingUsers channelId typingTimeouts storage DB
       timers nextTimer wire set_sessions set_members set_messages set_typingUsers
       set_channelId set_typingTimeouts set_storage set_DB set_timers set_wire
       stored_messages stored_channelId stored_members] in *.

(** Turn the boolean tests a run has gone through into propositions. *)
Ltac bools :=
  repeat match goal with
         | H : negb _ = true |- _ => apply negb_true_iff in H
         | H : negb _ = false |- _ => apply negb_false_iff in H
         | H : bool_decide _ = true |- _ => apply bool_decide_eq_true in H
         | H : bool_decide _ = false |- _ => apply bool_decide_eq_false in H
         | H : _ && _ = true |- _ => apply andb_true_iff in H as [? ?]
         | H : _ || _ = false |- _ => apply orb_false_iff in H as [? ?]
         | H : (_ =? _)%nat = true |- _ => apply Nat.eqb_eq in H
         | H : (_ =? _)%nat = false |- _ => apply Nat.eqb_neq in H
         | H : String.eqb _ _ = true |- _ => apply String.eqb_eq in H
         | H : String.eqb _ _ = false |- _ => apply String.eqb_neq in H
         end.

Lemma handleTypingStop_full userId st :
  ∃ st', handleTypingStop userId st = (Returned tt, st')
    ∧ storesKept st st'
    ∧ typingUsers st' = typingUsers st ∖ {[userId]}
    ∧ nextTimer st' = nextTimer st
    ∧ sessions st' `sublist_of` sessions st
    ∧ (userId ∉ typingUsers st → st' = st)
    ∧ (userId ∈ typingUsers st →
         wire st' = wire st ++ broadcastFrames (typing_stop userId) (Some userId) (sessions st)
         ∧ sessions st' = withoutUsers (evictedUsers (Some userId) (sessions st)) (sessions st)
         ∧ match typingTimeouts st !! userId with
           | Some (S h) => typingTimeouts st' = delete userId (typingTimeouts st)
                           ∧ timers st' = delete (S h) (timers st)
           | _ => typingTimeouts st' = typingTimeouts st ∧ timers st' = timers st
           end).
Proof.
  cut (wp (handleTypingStop userId) (λ c st', match c with
         | Returned _ =>
    storesKept st st'
    ∧ typingUsers st' = typingUsers st ∖ {[userId]}
    ∧ nextTimer st' = nextTimer st
    ∧ sessions st' `sublist_of` sessions st
    ∧ (userId ∉ typingUsers st → st' = st)
    ∧ (userId ∈ typingUsers st →
         wire st' = wire st ++ broadcastFrames (typing_stop userId) (Some userId) (sessions st)
         ∧ sessions st' = withoutUsers (evictedUsers (Some userId) (sessions st)) (sessions st)
         ∧ match typingTimeouts st !! userId with
           | Some (S h) => typingTimeouts st' = delete userId (typingTimeouts st)
                           ∧ timers st' = delete (S h) (timers st)
           | _ => typingTimeouts st' = typingTimeouts st ∧ timers st' = timers st
           end)
         | Thrown => False end) st).
  { intros (a & st' & Hrun & H)%wp_returns. destruct a. by exists st'. }
  unfold handleTypingStop. wp_run; fields; bools.
  - split; [done|]. split; [|done]. apply set_eq. intros u.
    rewrite elem_of_difference, elem_of_singleton.
    split; [intros Hu; split; [done|by intros ->]|by intros [? _]].
  - do 4 (split; [done|]). split; [done|]. intros _. rewrite Heqo. by destruct n.
  - do 4 (split; [done|]). split; [done|]. intros _. rewrite Heqo. by subst n.
  - do 4 (split; [done|]). split; [done|]. intros _. by rewrite Heqo.
Qed.

Lemma wp_handleTypingStop userId Q st :
  (∀ st', storesKept st st' →
          typingUsers st' = typingUsers st ∖ {[userId]} →
          nextTimer st' = nextTimer st →
          sessions st' `sublist_of` sessions st →
          (userId ∉ typingUsers st → st' = st) →
          (userId ∈ typingUsers st →
             wire st' = wire st
                        ++ broadcastFrames (typing_stop userId) (Some userId) (sessions st)
             ∧ sessions st'
               = withoutUsers (evictedUsers (Some userId) (sessions st)) (sessions st)
             ∧ match typingTimeouts st !! userId with
               | Some (S h) => typingTimeouts st' = delete userId (typingTimeouts st)
                               ∧ timers st' = delete (S h) (timers st)
               | _ => typingTimeouts st' = typingTimeouts st ∧ timers st' = timers st
               end) →
          Q (Returned tt) st') →
  wp (handleTypingStop userId) Q st.
Proof.
  intros HQ.
  destruct (handleTypingStop_full userId st) as (st' & Hrun & ? & ? & ? & ? & ? & ?).
  unfold wp. rewrite Hrun. by apply HQ.
Qed.

(** [wp_step], with [handleTypingStop] taken as one step. *)
Ltac wp_go :=
  repeat first
    [ lazymatch goal with
      | |- wp (handleTypingStop _) _ _ =>
          apply wp_handleTypingStop; intros ? ? ? ? ? ? ?
      end
    | wp_step ].

(** ** Typing *)

Lemma handleTypingStart_full userId st :
  ∃ st', handleTypingStart userId st = (Returned tt, st')
    ∧ storesKept st st'
    ∧ sessions st' `sublist_of` sessions st
    ∧ (userId ∈ typingUsers st → st' = st)
    ∧ (userId ∉ typingUsers st →
         typingUsers st' = typingUsers st ∪ {[userId]}
         ∧ typingTimeouts st' = <[userId := nextTimer st]> (typingTimeouts st)
         ∧ timers st' = <[nextTimer st := userId]>
                          (match typingTimeouts st !! userId with
                           | Some (S h) => delete (S h) (timers st)
                           | _ => timers st
                           end)
         ∧ nextTimer st' = S (nextTimer st)
         ∧ wire st' = wire st
                      ++ broadcastFrames (typing_start userId) (Some userId) (sessions st)
         ∧ sessions st'
           = withoutUsers (evictedUsers (Some userId) (sessions st)) (sessions st)).
Proof.
  cut (wp (handleTypingStart userId) (λ c st', match c with
         | Returned _ =>
    storesKept st st'
    ∧ sessions st' `sublist_of` sessions st
    ∧ (userId ∈ typingUsers st → st' = st)
    ∧ (userId ∉ typingUsers st →
         typingUsers st' = typingUsers st ∪ {[userId]}
         ∧ typingTimeouts st' = <[userId := nextTimer st]> (typingTimeouts st)
         ∧ timers st' = <[nextTimer st := userId]>
                          (match typingTimeouts st !! userId with
                           | Some (S h) => delete (S h) (timers st)
                           | _ => timers st
                           end)
         ∧ nextTimer st' = S (nextTimer st)
         ∧ wire st' = wire st
                      ++ broadcastFrames (typing_start userId) (Some userId) (sessions st)
         ∧ sessions st'
           = withoutUsers (evictedUsers (Some userId) (sessions st)) (sessions st))
         | Thrown => False end) st).
  { intros (a & st' & Hrun & H)%wp_returns. destruct a. by exists st'. }
  unfold handleTypingStart. wp_run; fields; bools.
  - by repeat split.
  - do 2 (split; [done|]). split; [done|]. intros _. rewrite Heqo.
    destruct n; [done|]. by repeat split.
  - do 2 (split; [done|]). split; [done|]. intros _. rewrite Heqo. subst n.
    by repeat split.
  - do 2 (split; [done|]). split; [done|]. intros _. rewrite Heqo. by repeat split.
Qed.

Lemma typingWf_same st st' :
  typingUsers st' = typingUsers st → typingTimeouts st' = typingTimeouts st →
  timers st' = timers st → nextTimer st' = nextTimer st →
  typingWf st → typingWf st'.
Proof. unfold typingWf. by intros -> -> -> ->. Qed.

Lemma typingWf_idle userId st :
  typingWf st → userId ∉ typingUsers st → typingTimeouts st !! userId = None.
Proof.
  intros (Hset & _) Hidle. apply eq_None_not_Some. by rewrite <- Hset.
Qed.

Lemma typingWf_typing userId st :
  typingWf st → userId ∈ typingUsers st →
  ∃ h, typingTimeouts st !! userId = Some (S h) ∧ timers st !! S h = Some userId.
Proof.
  intros (Hset & Hmap & _) [h Hh]%Hset. destruct (Hmap _ _ Hh) as [Hne Hpending].
  destruct h as [|h]; [done|]. by exists h.
Qed.

Lemma typingWf_started userId st st' :
  typingWf st → userId ∉ typingUsers st →
  typingUsers st' = typingUsers st ∪ {[userId]} →
  typingTimeouts st' = <[userId := nextTimer st]> (typingTimeouts st) →
  timers st' = <[nextTimer st := userId]> (timers st) →
  nextTimer st' = S (nextTimer st) →
  typingWf st'.
Proof.
  intros Hwf Hidle HU HT HP HN.
  pose proof (typingWf_idle _ _ Hwf Hidle) as Hnone.
  destruct Hwf as (Hset & Hmap & Hpend & Hpos).
  unfold typingWf. rewrite HU, HT, HP, HN. split; [|split; [|split]].
  - intros v. rewrite elem_of_union, elem_of_singleton, Hset.
    destruct (decide (userId = v)) as [->|Hne].
    + rewrite lookup_insert_eq. split; [by eexists|by right].
    + rewrite lookup_insert_ne by done. split; [by intros [?|?]|by left].
  - intros v h. destruct (decide (userId = v)) as [->|Hne].
    + rewrite lookup_insert_eq. intros [= <-]. split; [lia|apply lookup_insert_eq].
    + rewrite lookup_insert_ne by done. intros Hv.
      destruct (Hmap _ _ Hv) as [Hh Hp]. split; [done|].
      destruct (Hpend _ _ Hp) as [Hlt _]. rewrite lookup_insert_ne by lia. done.
  - intros h v. destruct (decide (nextTimer st = h)) as [<-|Hne].
    + rewrite lookup_insert_eq. intros [= <-]. split; [lia|apply lookup_insert_eq].
    + rewrite lookup_insert_ne by done. intros Hp.
      destruct (Hpend _ _ Hp) as [Hlt Hv]. split; [lia|].
      rewrite lookup_insert_ne; [done|]. intros ->. congruence.
  - lia.
Qed.

Lemma typingWf_stopped userId h st st' :
  typingWf st → typingTimeouts st !! userId = Some h →
  typingUsers st' = typingUsers st ∖ {[userId]} →
  typingTimeouts st' = delete userId (typingTimeouts st) →
  timers st' = delete h (timers st) →
  nextTimer st' = nextTimer st →
  typingWf st'.
Proof.
  intros (Hset & Hmap & Hpend & Hpos) Hh HU HT HP HN.
  unfold typingWf. rewrite HU, HT, HP, HN. split; [|split; [|split]].
  - intros v. rewrite elem_of_difference, elem_of_singleton, Hset.
    destruct (decide (userId = v)) as [->|Hne].
    + rewrite lookup_delete_eq. split; [by intros [_ ?]|by intros [? ?]].
    + rewrite lookup_delete_ne by done. split; [by intros [? _]|done].
  - intros v k. destruct (decide (userId = v)) as [->|Hne].
    + by rewrite lookup_delete_eq.
    + rewrite lookup_delete_ne by done. intros Hv.
      destruct (Hmap _ _ Hv) as [Hk Hp]. split; [done|].
      rewrite lookup_delete_ne; [done|]. intros ->.
      destruct (Hmap _ _ Hh) as [_ Hp']. congruence.
  - intros k v. destruct (decide (h = k)) as [->|Hne].
    + by rewrite lookup_delete_eq.
    + rewrite lookup_delete_ne by done. intros Hp.
      destruct (Hpend _ _ Hp) as [Hlt Hv]. split; [done|].
      rewrite lookup_delete_ne; [done|]. intros ->. congruence.
  - done.
Qed.

Lemma handleTypingStart_typingWf userId st :
  typingWf st → typingWf (after (handleTypingStart userId) st).
Proof.
  intros Hwf. unfold after.
  destruct (handleTypingStart_full userId st) as (st' & -> & _ & _ & Htyping & Hidle).
  destruct (decide (userId ∈ typingUsers st)) as [Hin|Hout].
  - by rewrite (Htyping Hin).
  - destruct (Hidle Hout) as (HU & HT & HP & HN & _).
    rewrite (typingWf_idle _ _ Hwf Hout) in HP.
    by eapply typingWf_started.
Qed.

Lemma handleTypingStop_typingWf userId st :
  typingWf st → typingWf (after (handleTypingStop userId) st).
Proof.
  intros Hwf. unfold after.
  destruct (handleTypingStop_full userId st) as (st' & -> & _ & HU & HN & _ & Hidle & Htyping).
  destruct (decide (userId ∈ typingUsers st)) as [Hin|Hout].
  - destruct (typingWf_typing _ _ Hwf Hin) as (h & Hh & _).
    destruct (Htyping Hin) as (_ & _ & Hfields). rewrite Hh in Hfields.
    destruct Hfields as [HT HP]. by eapply typingWf_stopped.
  - by rewrite (Hidle Hout).
Qed.

(** ** Invariants through the handlers *)

Lemma preserves_ret {A} I (a : A) : preserves I (ret a).
Proof. by intros st. Qed.

Lemma preserves_throw {A} I : preserves I (@throw A).
Proof. by intros st. Qed.

Lemma preserves_gets {A} I (f : ChatRoom → A) : preserves I (gets f).
Proof. by intros st. Qed.

Lemma preserves_modify I f : (∀ st, I st → I (f st)) → preserves I (modify f).
Proof. intros Hf st. apply Hf. Qed.

Lemma preserves_bind {A B} I (m : Act A) (k : A → Act B) :
  preserves I m → (∀ a, preserves I (k a)) → preserves I (bind m k).
Proof.
  intros Hm Hk st HI. specialize (Hm st HI). unfold after, bind in *.
  destruct (m st) as [[a|] st']; cbn in *; [by apply Hk|done].
Qed.

Lemma preserves_tryCatch I body handler :
  preserves I body → preserves I handler → preserves I (tryCatch body handler).
Proof.
  intros Hb Hh st HI. specialize (Hb st HI). unfold after, tryCatch in *.
  destruct (body st) as [[a|] st']; cbn in *; [done|by apply Hh].
Qed.

Lemma preserves_forEach {A} I (l : list A) f :
  (∀ x, preserves I (f x)) → preserves I (forEach l f).
Proof.
  intros Hf. induction l as [|x l IH]; cbn [forEach].
  - apply preserves_ret.
  - by apply preserves_bind.
Qed.

Ltac preserve_step :=
  lazymatch goal with
  | |- preserves _ (bind _ _) => apply preserves_bind; [|intros ?]
  | |- preserves _ (ret _) => apply preserves_ret
  | |- preserves _ throw => apply preserves_throw
  | |- preserves _ (gets _) => apply preserves_gets
  | |- preserves _ (tryCatch _ _) => apply preserves_tryCatch
  | |- preserves _ (forEach _ _) => apply preserves_forEach; intros ?
  | |- preserves _ (when _ _) => unfold when at 1
  | |- preserves _ (dbRun _ _) => unfold dbRun at 1
  | |- preserves _ (storagePutMessages _) => unfold storagePutMessages at 1
  | |- preserves _ (updateReactions _ _) => unfold updateReactions at 1
  | |- preserves _ (wsSend _ _ _) => unfold wsSend at 1
  | |- preserves _ (broadcastTo _ _ _) => unfold broadcastTo at 1
  | |- preserves _ (if ?b then _ else _) => destruct b
  | |- preserves _ (match ?x with _ => _ end) => destruct x
  end; lazy beta iota zeta.

(** What an invariant needs to hold through every event: it does not read
    the wire, the window, the stores or the member directory, it survives a
    session being registered or dropped, and the typing handlers keep it. *)
Section Invariant.

Variable I : ChatRoom → Prop.
Hypothesis I_wire : ∀ f st, I st → I (set_wire f st).
Hypothesis I_messages : ∀ f st, I st → I (set_messages f st).
Hypothesis I_storage : ∀ f st, I st → I (set_storage f st).
Hypothesis I_DB : ∀ f st, I st → I (set_DB f st).
Hypothesis I_members : ∀ f st, I st → I (set_members f st).
Hypothesis I_channelId : ∀ c st, I st → I (set_channelId c st).
Hypothesis I_dropped : ∀ userId st, I st → I (set_sessions (Map_delete userId) st).
Hypothesis I_registered : ∀ userId ws st, I st → I (set_sessions (Map_set userId ws) st).
Hypothesis I_typingStart : ∀ userId, preserves I (handleTypingStart userId).
Hypothesis I_typingStop : ∀ userId, preserves I (handleTypingStop userId).
Hypothesis I_fireTimer : ∀ h, preserves I (fireTimer h).

Ltac preserve :=
  repeat preserve_step;
  try lazymatch goal with
      | |- preserves _ (modify _) => apply preserves_modify; intros ? ?
      end;
  eauto using I_wire, I_messages, I_storage, I_DB, I_members, I_channelId,
    I_dropped, I_registered, I_typingStart, I_typingStop, I_fireTimer.

Lemma sendToUser_preserves userId message : preserves I (sendToUser userId message).
Proof. unfold sendToUser. preserve. Qed.

Lemma broadcast_preserves message excludeUserId :
  preserves I (broadcast message excludeUserId).
Proof. unfold broadcast. preserve. Qed.

Ltac preserve' :=
  repeat first [apply sendToUser_preserves | apply broadcast_preserves | preserve_step];
  try lazymatch goal with
      | |- preserves _ (modify _) => apply preserves_modify; intros ? ?
      end;
  eauto using I_wire, I_messages, I_storage, I_DB, I_members, I_channelId,
    I_dropped, I_registered, I_typingStart, I_typingStop, I_fireTimer.

Lemma handleSendMessage_preserves o message userId :
  preserves I (handleSendMessage o message userId).
Proof. unfold handleSendMessage. preserve'. Qed.

Lemma handleMessage_preserves o message userId :
  preserves I (handleMessage o message userId).
Proof.
  unfold handleMessage, handleEditMessage, handleDeleteMessage,
    handleReactionAdd, handleReactionRemove.
  repeat first [apply handleSendMessage_preserves | preserve_step]; preserve'.
Qed.

Lemma onMessage_preserves o parsed userId : preserves I (onMessage o parsed userId).
Proof. unfold onMessage. preserve'. apply handleMessage_preserves. Qed.

Lemma handleSession_preserves ws userId : preserves I (handleSession ws userId).
Proof. unfold handleSession. preserve'. Qed.

Lemma handleDisconnect_preserves userId : preserves I (handleDisconnect userId).
Proof. unfold handleDisconnect. preserve'. Qed.

Lemma handleWebSocket_preserves o decodeURIComponent server request :
  preserves I (handleWebSocket o decodeURIComponent server request).
Proof. unfold handleWebSocket. preserve'; apply handleSession_preserves. Qed.

Lemma setChannelId_preserves o channel : preserves I (setChannelId o channel).
Proof. unfold setChannelId. preserve'. Qed.

Lemma dispatch_preserves e : preserves I (dispatch e).
Proof.
  destruct e; cbn [dispatch].
  - apply preserves_bind; [apply handleWebSocket_preserves|intros; apply preserves_ret].
  - apply onMessage_preserves.
  - apply handleDisconnect_preserves.
  - apply I_fireTimer.
  - apply setChannelId_preserves.
Qed.

End Invariant.

Lemma play_preserves I events st :
  (∀ e, preserves I (dispatch e)) → I st → I (play events st).
Proof.
  intros Hdispatch. revert st.
  induction events as [|e events IH]; intros st HI; cbn [play]; [done|].
  by apply IH, Hdispatch.
Qed.

(** ** The typing state stays consistent *)

Lemma fireTimer_idle h st : timers st !! h = None → fireTimer h st = (Returned tt, st).
Proof. intros Hh. unfold fireTimer, bind, gets. by rewrite Hh. Qed.

Lemma fireTimer_full h userId st :
  typingWf st → timers st !! h = Some userId →
  ∃ st', fireTimer h st = (Returned tt, st')
    ∧ storesKept st st'
    ∧ typingUsers st' = typingUsers st ∖ {[userId]}
    ∧ typingTimeouts st' = delete userId (typingTimeouts st)
    ∧ timers st' = delete h (timers st)
    ∧ nextTimer st' = nextTimer st
    ∧ wire st' = wire st ++ broadcastFrames (typing_stop userId) (Some userId) (sessions st)
    ∧ sessions st' = withoutUsers (evictedUsers (Some userId) (sessions st)) (sessions st).
Proof.
  intros Hwf Hh.
  destruct Hwf as (Hset & Hmap & Hpend & Hpos).
  destruct (Hpend _ _ Hh) as [_ Hu]. destruct (Hmap _ _ Hu) as [Hne _].
  assert (Hin : userId ∈ typingUsers st) by (apply Hset; by eexists).
  destruct h as [|h]; [done|].
  unfold fireTimer, bind, gets, clearTimeout, modify. rewrite Hh.
  destruct (handleTypingStop_full userId (set_timers (delete (S h)) id st))
    as (st' & -> & Hkept & HU & HN & _ & _ & Htyping).
  destruct (Htyping Hin) as (Hwire & Hsessions & Hfields).
  fields. rewrite Hu in Hfields. destruct Hfields as [HT HP].
  exists st'. rewrite delete_delete_eq in HP. by repeat split.
Qed.

Lemma fireTimer_typingWf h : preserves typingWf (fireTimer h).
Proof.
  intros st Hwf. unfold after. destruct (timers st !! h) as [userId|] eqn:Hh.
  - destruct (fireTimer_full _ _ _ Hwf Hh) as (st' & -> & _ & HU & HT & HP & HN & _).
    destruct Hwf as (Hset & Hmap & Hpend & Hpos).
    destruct (Hpend _ _ Hh) as [_ Hu].
    by eapply (typingWf_stopped userId h st).
  - by rewrite fireTimer_idle.
Qed.

Lemma typingWf_dispatch e : preserves typingWf (dispatch e).
Proof.
  apply dispatch_preserves;
    try (intros; eapply typingWf_same; [..|eassumption]; reflexivity).
  - intros userId st. apply handleTypingStart_typingWf.
  - intros userId st. apply handleTypingStop_typingWf.
  - apply fireTimer_typingWf.
Qed.

Lemma handleSendMessage_typingWf o message userId :
  preserves typingWf (handleSendMessage o message userId).
Proof.
  apply handleSendMessage_preserves;
    try (intros; eapply typingWf_same; [..|eassumption]; reflexivity).
  intros u st. apply handleTypingStop_typingWf.
Qed.

Lemma Map_set_keys {V} k (v : V) m :
  fst <$> Map_set k v m = if bool_decide (k ∈ fst <$> m) then fst <$> m else (fst <$> m) ++ [k].
Proof.
  induction m as [|[k' v'] m IH]; cbn; [done|].
  destruct (String.eqb k' k) eqn:Hk.
  - apply String.eqb_eq in Hk as ->. cbn. rewrite bool_decide_eq_true_2; [done|left].
  - apply String.eqb_neq in Hk. cbn. rewrite IH.
    destruct (decide (k ∈ fst <$> m)) as [Hin|Hout].
    + rewrite !bool_decide_eq_true_2; [done|by right|done].
    + rewrite !bool_decide_eq_false_2; [done| |done].
      intros [?|?]%elem_of_cons; congruence.
Qed.

Lemma registryWf_shrink st st' :
  sessions st' `sublist_of` sessions st → registryWf st → registryWf st'.
Proof.
  unfold registryWf. intros Hsub Hnodup.
  eapply sublist_NoDup; [done|by apply fmap_sublist].
Qed.

Lemma registryWf_dispatch e : preserves registryWf (dispatch e).
Proof.
  apply dispatch_preserves; try done.
  - intros userId st. apply registryWf_shrink. apply Map_delete_sublist.
  - intros userId ws st Hwf. unfold registryWf in *. cbn. rewrite Map_set_keys.
    case_bool_decide as Hin; [done|]. apply NoDup_app. split; [done|]. split.
    + intros x Hx ->%list_elem_of_singleton. done.
    + apply NoDup_singleton.
  - intros userId st. unfold after.
    destruct (handleTypingStart_full userId st) as (st' & -> & _ & Hsub & _).
    by apply registryWf_shrink.
  - intros userId st. unfold after.
    destruct (handleTypingStop_full userId st) as (st' & -> & _ & _ & _ & Hsub & _).
    by apply registryWf_shrink.
  - intros h st Hwf. unfold after, fireTimer, bind, gets, clearTimeout, modify.
    destruct (timers st !! h) as [userId|]; [|done].
    destruct (handleTypingStop_full userId (set_timers (delete h) id st))
      as (st' & -> & _ & _ & _ & Hsub & _).
    by eapply registryWf_shrink.
Qed.

Lemma construct_typingWf o e s db : typingWf (construct o e s db).
Proof.
  unfold construct.
  repeat lazymatch goal with
         | |- context [match ?x with _ => _ end] => destruct x
         end;
    (split; [|split; [|split]]); cbn; try done; try lia.
  all: intros u; rewrite lookup_empty; split; [set_solver|by intros [? ?]].
Qed.

Lemma construct_registryWf o e s db : registryWf (construct o e s db).
Proof.
  unfold registryWf, construct.
  repeat lazymatch goal with
         | |- context [match ?x with _ => _ end] => destruct x
         end; cbn; apply NoDup_nil_2.
Qed.

(** X3. A [typing_start] from a user who is not typing, in a consistent
    typing state: the user joins the typing set, a timer with a handle never
    used before is armed for them and recorded in the timer map, every other
    live session (never the user's own) receives [typing_start], and the
    window, the table and the snapshot are untouched. *)
Theorem typing_start_when_idle userId st :
  typingWf st → userId ∉ typingUsers st →
  let st' := after (handleTypingStart userId) st in
  fst (handleTypingStart userId st) = Returned tt
  ∧ storesKept st st'
  ∧ typingUsers st' = typingUsers st ∪ {[userId]}
  ∧ typingTimeouts st' = <[userId := nextTimer st]> (typingTimeouts st)
  ∧ timers st !! nextTimer st = None
  ∧ timers st' = <[nextTimer st := userId]> (timers st)
  ∧ wire st' = wire st ++ broadcastFrames (typing_start userId) (Some userId) (sessions st)
  ∧ (∀ f, f ∈ broadcastFrames (typing_start userId) (Some userId) (sessions st) →
          fst f ≠ userId)
  ∧ typingWf st'.
Proof.
  intros Hwf Hidle st'. subst st'. unfold after.
  pose proof (handleTypingStart_typingWf userId st Hwf) as Hwf'. unfold after in Hwf'.
  destruct (handleTypingStart_full userId st) as (st' & Hrun & Hkept & _ & _ & Hfull).
  rewrite Hrun in *. cbn [fst snd] in *.
  destruct (Hfull Hidle) as (HU & HT & HP & HN & Hwire & _).
  rewrite (typingWf_idle _ _ Hwf Hidle) in HP.
  do 4 (split; [done|]). split; [|split; [done|split; [done|split; [|done]]]].
  - destruct Hwf as (_ & _ & Hpend & _).
    destruct (timers st !! nextTimer st) as [u|] eqn:Hn; [|done].
    destruct (Hpend _ _ Hn). lia.
  - intros f Hf Heq.
    pose proof (broadcastFrames_Forall (typing_start userId) (Some userId) (sessions st))
      as Hall.
    rewrite Forall_forall in Hall. destruct (Hall f Hf) as [_ Hne]. congruence.
Qed.

(** X4. Start then stop is a round trip on the typing state: for a user who
    was not typing, [typing_start] followed by [typing_stop] leaves the typing
    set, the timer map and the pending timers exactly as they were (only the
    handle counter has moved on), so the timer armed by the start can no
    longer fire: its expiry finds nothing pending and changes nothing.  On
    the wire there are the two notices, each to the sessions live at the
    time. *)
Theorem typing_start_stop_roundtrip userId st :
  typingWf st → userId ∉ typingUsers st →
  let st1 := after (handleTypingStart userId) st in
  let st2 := after (handleTypingStop userId) st1 in
  typingUsers st2 = typingUsers st
  ∧ typingTimeouts st2 = typingTimeouts st
  ∧ timers st2 = timers st
  ∧ nextTimer st2 = S (nextTimer st)
  ∧ storesKept st st2
  ∧ wire st2 = wire st
               ++ broadcastFrames (typing_start userId) (Some userId) (sessions st)
               ++ broadcastFrames (typing_stop userId) (Some userId) (sessions st1)
  ∧ fireTimer (nextTimer st) st2 = (Returned tt, st2).
Proof.
  intros Hwf Hidle st1 st2. subst st1 st2. unfold after.
  destruct (handleTypingStart_full userId st) as (st1 & -> & Hkept1 & _ & _ & Hfull).
  destruct (Hfull Hidle) as (HU1 & HT1 & HP1 & HN1 & Hwire1 & _). cbn [snd].
  pose proof (typingWf_idle _ _ Hwf Hidle) as Hnone. rewrite Hnone in HP1.
  destruct (handleTypingStop_full userId st1)
    as (st2 & -> & Hkept2 & HU2 & HN2 & _ & _ & Htyping).
  cbn [snd].
  assert (Hin : userId ∈ typingUsers st1).
  { rewrite HU1. by apply elem_of_union_r, elem_of_singleton. }
  destruct (Htyping Hin) as (Hwire2 & _ & Hfields).
  destruct Hwf as (_ & _ & Hpend & Hpos).
  assert (Hfresh : timers st !! nextTimer st = None).
  { destruct (timers st !! nextTimer st) as [u|] eqn:Hn; [|done].
    destruct (Hpend _ _ Hn). lia. }
  rewrite HT1, lookup_insert_eq in Hfields.
  destruct (nextTimer st) as [|n] eqn:Hnext; [lia|].
  destruct Hfields as [HT2 HP2].
  assert (Htimers : timers st2 = timers st).
  { rewrite HP2, HP1. by apply delete_insert_id. }
  split; [|split; [|split; [done|split; [lia|split; [|split]]]]].
  - rewrite HU2, HU1. apply set_eq. intros u.
    rewrite elem_of_difference, elem_of_union, elem_of_singleton.
    split; [by intros [[?|?] ?]|]. intros Hu. split; [by left|by intros ->].
  - rewrite HT2. by apply delete_insert_id.
  - fields. repeat split; congruence.
  - rewrite Hwire2, Hwire1. by rewrite <- app_assoc.
  - apply fireTimer_idle. by rewrite Htimers.
Qed.

(** X5. Expiry of a typing timer, in a consistent typing state: when the
    pending timer [h] of [userId] fires, the user leaves the typing set, the
    timer leaves the timer map and the pending timers, every other live
    session receives [typing_stop], nothing else of the typing state and none
    of the stores change, and the state is consistent again, so firing the
    same handle once more does nothing. *)
Theorem typing_timer_expiry h userId st :
  typingWf st → timers st !! h = Some userId →
  let st' := after (fireTimer h) st in
  userId ∈ typingUsers st
  ∧ typingUsers st' = typingUsers st ∖ {[userId]}
  ∧ typingTimeouts st' = delete userId (typingTimeouts st)
  ∧ timers st' = delete h (timers st)
  ∧ storesKept st st'
  ∧ wire st' = wire st ++ broadcastFrames (typing_stop userId) (Some userId) (sessions st)
  ∧ typingWf st'
  ∧ fireTimer h st' = (Returned tt, st').
Proof.
  intros Hwf Hh st'. subst st'.
  pose proof (fireTimer_typingWf h st Hwf) as Hwf'. unfold after in *.
  destruct (fireTimer_full _ _ _ Hwf Hh) as (st' & Hrun & Hkept & HU & HT & HP & HN & Hwire & _).
  rewrite Hrun in *. cbn [snd] in *.
  split; [|do 6 (split; [done|])].
  - destruct Hwf as (Hset & _ & Hpend & _). apply Hset.
    destruct (Hpend _ _ Hh) as [_ Hu]. by eexists.
  - apply fireTimer_idle. rewrite HP. apply lookup_delete_eq.
Qed.

(** X6. Whatever happens to an instance after a cold start (connections,
    frames of any kind that parse or not, closed sockets, expiring timers,
    channel assignments, with any of the platform's failures), the typing state
    is consistent and no user holds two sessions: a user is shown as typing
    exactly when a timer is recorded for them, that timer is pending and will
    clear them, and no timer is pending for anybody else. *)
Theorem reachable_typing_consistent o e s db events :
  let st := play events (construct o e s db) in
  registryWf st ∧ typingWf st
  ∧ ∀ userId, userId ∈ typingUsers st →
      ∃ h, timers st !! h = Some userId
           ∧ userId ∉ typingUsers (after (fireTimer h) st).
Proof.
  intros st. subst st.
  assert (Hreg : registryWf (play events (construct o e s db))).
  { apply play_preserves; [apply registryWf_dispatch|apply construct_registryWf]. }
  assert (Hwf : typingWf (play events (construct o e s db))).
  { apply play_preserves; [apply typingWf_dispatch|apply construct_typingWf]. }
  split; [done|]. split; [done|]. intros userId Hin.
  destruct (typingWf_typing _ _ Hwf Hin) as (h & _ & Hh).
  exists (S h). split; [done|]. unfold after.
  destruct (fireTimer_full _ _ _ Hwf Hh) as (st' & -> & _ & HU & _). cbn [snd].
  rewrite HU, elem_of_difference, elem_of_singleton. by intros [_ ?].
Qed.

(** ** Sessions *)

Lemma Map_get_set_eq {V} (k : string) (v : V) m : Map_get k (Map_set k v m) = Some v.
Proof.
  induction m as [|[k' v'] m IH]; cbn; [by rewrite String.eqb_refl|].
  destruct (String.eqb k' k) eqn:Hk; cbn; [by rewrite String.eqb_refl|by rewrite Hk].
Qed.

Lemma Map_get_set_ne {V} (k k' : string) (v : V) m :
  k ≠ k' → Map_get k' (Map_set k v m) = Map_get k' m.
Proof.
  intros Hne. induction m as [|[k0 v0] m IH]; cbn.
  - by apply String.eqb_neq in Hne as ->.
  - destruct (String.eqb_spec k0 k) as [->|Hk0]; cbn.
    + apply String.eqb_neq in Hne. by rewrite Hne.
    + by rewrite IH.
Qed.

Lemma Map_get_elem_of_NoDup {V} (k : string) (v : V) m :
  NoDup (fst <$> m) → (k, v) ∈ m → Map_get k m = Some v.
Proof.
  induction m as [|[k' v'] m IH]; [by intros _ ?%elem_of_nil|].
  rewrite fmap_cons. intros [Hk' Hm]%NoDup_cons Hin. cbn.
  apply elem_of_cons in Hin as [[= -> ->]|Hin].
  - by rewrite String.eqb_refl.
  - destruct (String.eqb_spec k' k) as [->|_]; [|by apply IH].
    exfalso. apply Hk'. apply list_elem_of_fmap. by exists (k, v).
Qed.

Lemma Map_get_None {V} (k : string) (m : list (string * V)) :
  Map_get k m = None ↔ k ∉ fst <$> m.
Proof.
  induction m as [|[k' v'] m IH]; cbn.
  - split; [intros _ ?%elem_of_nil|]; done.
  - rewrite not_elem_of_cons. destruct (String.eqb_spec k' k) as [->|Hne].
    + split; [done|]. by intros [? _].
    + rewrite IH. split; [by intros ?; split|by intros [_ ?]].
Qed.

Lemma registryWf_registered userId ws st :
  registryWf st → registryWf (set_sessions (Map_set userId ws) st).
Proof.
  unfold registryWf. cbn. intros Hwf. rewrite Map_set_keys.
  case_bool_decide as Hin; [done|]. apply NoDup_app. split; [done|]. split.
  - by intros x Hx ->%list_elem_of_singleton.
  - apply NoDup_singleton.
Qed.

(** A frame an evicting broadcast would have produced is not lost: the
    sockets a broadcast evicts are those that raise. *)
Lemma broadcastFrames_survivors message excludeUserId excludeUserId' entries :
  NoDup (fst <$> entries) →
  broadcastFrames message excludeUserId
    (withoutUsers (evictedUsers excludeUserId' entries) entries)
  = broadcastFrames message excludeUserId entries.
Proof.
  intros Hnodup. rewrite withoutUsers_evicted by done. unfold broadcastFrames. f_equal.
  rewrite filter_filter. apply filter_ext_in. intros e He.
  unfold evicts. destruct (sendThrows e.2); [|by rewrite !andb_false_r].
  cbn. by rewrite !andb_false_r.
Qed.

Lemma broadcastFrames_deleted message userId entries :
  broadcastFrames message (Some userId) (Map_delete userId entries)
  = broadcastFrames message (Some userId) entries.
Proof.
  unfold broadcastFrames, Map_delete. f_equal. rewrite filter_filter.
  apply filter_ext_in. intros e He.
  destruct (String.eqb_spec e.1 userId) as [->|Hne]; cbn.
  - by rewrite bool_decide_eq_true_2.
  - done.
Qed.

Lemma handleSession_live ws userId st :
  registryWf st → isOpen ws = true → sendThrows ws = false →
  let registry := Map_set userId ws (sessions st) in
  ∃ st', handleSession ws userId st = (Returned tt, st')
    ∧ deliveryOnly st st'
    ∧ wire st' = wire st
        ++ [(userId, init (messages st));
            (userId, user_list (List.map (λ e, memberInfo (members st !! fst e) (fst e))
                                         registry))]
        ++ broadcastFrames (user_joined (memberInfo (members st !! userId) userId))
             (Some userId) registry
    ∧ sessions st' = List.filter (λ e, negb (evicts (Some userId) e)) registry.
Proof.
  intros Hwf Hopen Hsend registry.
  cut (wp (handleSession ws userId) (λ c st', match c with
         | Returned _ =>
    deliveryOnly st st'
    ∧ wire st' = wire st
        ++ [(userId, init (messages st));
            (userId, user_list (List.map (λ e, memberInfo (members st !! fst e) (fst e))
                                         registry))]
        ++ broadcastFrames (user_joined (memberInfo (members st !! userId) userId))
             (Some userId) registry
    ∧ sessions st' = List.filter (λ e, negb (evicts (Some userId) e)) registry
         | Thrown => False end) st).
  { intros (a & st' & Hrun & H)%wp_returns. destruct a. by exists st'. }
  unfold handleSession. wp_run.
  rename st' into st1, st'0 into st2, st'1 into st3.
  assert (Hlive1 : liveSession userId (set_sessions (Map_set userId ws) st) = true).
  { unfold liveSession. cbn. by rewrite Map_get_set_eq, Hopen, Hsend. }
  unfold unicastFrames in *. rewrite Hlive1 in *. fields.
  rewrite Map_get_set_eq, Hopen, Hsend in *. cbn [andb] in *.
  assert (Hlive2 : liveSession userId st1 = true).
  { unfold liveSession. by rewrite H1, Map_get_set_eq, Hopen, Hsend. }
  rewrite Hlive2, H1, Map_get_set_eq, Hopen, Hsend in *. cbn [andb] in *.
  split; [repeat split; congruence|]. split.
  - rewrite H8, H4, H0, H5. rewrite <- !app_assoc. cbn.
    by replace (members st1) with (members st) by congruence.
  - rewrite H9, H5. apply withoutUsers_evicted.
    by apply (registryWf_registered userId ws st).
Qed.

Lemma filter_idemp {A} (f : A → bool) (l : list A) :
  List.filter f (List.filter f l) = List.filter f l.
Proof.
  rewrite filter_filter. apply filter_ext_in. intros x _. by destruct (f x).
Qed.

Lemma memberInfo_uids (members : gmap string ChannelMember.t) (entries : list (string * WebSocket)) :
  UserInfo.uid <$> List.map (λ e, memberInfo (members !! fst e) (fst e)) entries
  = fst <$> entries.
Proof. induction entries as [|e entries IH]; cbn; [done|]. by rewrite IH. Qed.

(** X7. A connection whose socket is open and accepts sends, registered for
    [userId]: the socket becomes the user's one session (replacing one they
    had; nobody else's session changes), the user is sent [init] with the
    window and then [user_list] with one entry per registered user,
    themselves included; every other live session, and not the user, is sent
    [user_joined].  Nothing but the registry and the wire changes. *)
Theorem session_join ws userId st :
  registryWf st → isOpen ws = true → sendThrows ws = false →
  let registry := Map_set userId ws (sessions st) in
  let users := List.map (λ e, memberInfo (members st !! fst e) (fst e)) registry in
  let st' := after (handleSession ws userId) st in
  fst (handleSession ws userId st) = Returned tt
  ∧ deliveryOnly st st'
  ∧ wire st' = wire st
      ++ [(userId, init (messages st)); (userId, user_list users)]
      ++ broadcastFrames (user_joined (memberInfo (members st !! userId) userId))
           (Some userId) registry
  ∧ Map_get userId (sessions st') = Some ws
  ∧ (∀ u, u ≠ userId → Map_get u registry = Map_get u (sessions st))
  ∧ UserInfo.uid <$> users = fst <$> registry
  ∧ NoDup (fst <$> registry)
  ∧ userId ∈ fst <$> registry
  ∧ registryWf st'.
Proof.
  intros Hwf Hopen Hsend registry users st'. subst st'. unfold after.
  destruct (handleSession_live ws userId st Hwf Hopen Hsend)
    as (st' & -> & Hd & Hwire & Hsessions).
  cbn [fst snd].
  pose proof (registryWf_registered userId ws st Hwf) as Hreg. unfold registryWf in Hreg.
  cbn in Hreg. fold registry in Hreg, Hsessions.
  assert (Hin : (userId, ws) ∈ registry).
  { apply Map_get_elem_of. apply Map_get_set_eq. }
  assert (Hwf' : registryWf st').
  { unfold registryWf. rewrite Hsessions.
    eapply sublist_NoDup; [exact Hreg|]. apply fmap_sublist, List_filter_sublist. }
  do 3 (split; [done|]). split; [|split; [|split; [|split; [done|split; [|done]]]]].
  - apply Map_get_elem_of_NoDup; [done|]. rewrite Hsessions.
    apply list_elem_of_In, List.filter_In. split; [by apply list_elem_of_In|].
    unfold evicts. cbn. by rewrite bool_decide_eq_true_2.
  - intros u Hne. by apply Map_get_set_ne.
  - apply memberInfo_uids.
  - apply list_elem_of_fmap. by exists (userId, ws).
Qed.

Lemma handleDisconnect_full userId st :
  registryWf st → typingWf st →
  ∃ st', handleDisconnect userId st = (Returned tt, st')
    ∧ storesKept st st'
    ∧ sessions st' = List.filter (λ e, negb (evicts (Some userId) e))
                                 (Map_delete userId (sessions st))
    ∧ typingUsers st' = typingUsers st ∖ {[userId]}
    ∧ typingTimeouts st' = delete userId (typingTimeouts st)
    ∧ wire st' = wire st
        ++ (if bool_decide (userId ∈ typingUsers st)
            then broadcastFrames (typing_stop userId) (Some userId) (sessions st) else [])
        ++ broadcastFrames (user_left userId) (Some userId) (sessions st).
Proof.
  intros Hreg Hwf.
  set (st0 := set_sessions (Map_delete userId) st).
  assert (Hreg0 : NoDup (fst <$> sessions st0)).
  { apply (registryWf_shrink st); [apply Map_delete_sublist|done]. }
  unfold handleDisconnect, bind, modify. fold st0.
  destruct (handleTypingStop_full userId st0)
    as (st1 & -> & Hkept1 & HU1 & _ & _ & Hidle & Htyping).
  destruct (broadcast_full (user_left userId) (Some userId) st1)
    as (st2 & -> & Hd2 & Hwire2 & Hsessions2).
  exists st2. split; [done|].
  destruct (decide (userId ∈ typingUsers st)) as [Hin|Hout].
  - destruct (typingWf_typing _ _ Hwf Hin) as (h & Hh & _).
    destruct (Htyping Hin) as (Hwire1 & Hsessions1 & Hfields).
    subst st0. fields. rewrite Hh in Hfields. destruct Hfields as [HT1 _].
    rewrite bool_decide_eq_true_2 by done.
    split; [repeat split; congruence|]. split; [|split; [congruence|split; [congruence|]]].
    + rewrite Hsessions2, Hsessions1.
      rewrite (withoutUsers_evicted _ (Map_delete userId (sessions st))) by done.
      rewrite withoutUsers_evicted.
      * apply filter_idemp.
      * eapply sublist_NoDup; [exact Hreg0|]. apply fmap_sublist, List_filter_sublist.
    + rewrite Hwire2, Hwire1, Hsessions1, <- app_assoc.
      rewrite broadcastFrames_survivors by done.
      by rewrite !broadcastFrames_deleted.
  - rewrite (Hidle Hout) in *. subst st0. fields.
    rewrite bool_decide_eq_false_2 by done.
    split; [repeat split; congruence|]. split; [|split; [congruence|split]].
    + rewrite Hsessions2. by apply withoutUsers_evicted.
    + rewrite (delete_id (typingTimeouts st)) by (by apply typingWf_idle). congruence.
    + rewrite Hwire2. by rewrite broadcastFrames_deleted.
Qed.

(** X8. A closed or failed socket of [userId], in a consistent state:
    [handleDisconnect] removes whatever session is registered for the user,
    takes them out of the typing set and cancels their typing timer, and tells
    every other live session: [typing_stop] first if the user was typing, then
    [user_left].  The user gets no frame, the stores are untouched, and the
    state stays consistent. *)
Theorem disconnect_cleans_up userId st :
  registryWf st → typingWf st →
  let st' := after (handleDisconnect userId) st in
  fst (handleDisconnect userId st) = Returned tt
  ∧ storesKept st st'
  ∧ Map_get userId (sessions st') = None
  ∧ (∀ u ws, (u, ws) ∈ sessions st → u ≠ userId →
             (isOpen ws && sendThrows ws) = false → (u, ws) ∈ sessions st')
  ∧ (userId ∉ typingUsers st')
  ∧ typingUsers st' = typingUsers st ∖ {[userId]}
  ∧ typingTimeouts st' = delete userId (typingTimeouts st)
  ∧ (∀ h, timers st' !! h ≠ Some userId)
  ∧ wire st' = wire st
      ++ (if bool_decide (userId ∈ typingUsers st)
          then broadcastFrames (typing_stop userId) (Some userId) (sessions st) else [])
      ++ broadcastFrames (user_left userId) (Some userId) (sessions st)
  ∧ registryWf st' ∧ typingWf st'.
Proof.
  intros Hreg Hwf st'. subst st'.
  pose proof (registryWf_dispatch (Closed userId) st Hreg) as Hreg'.
  pose proof (typingWf_dispatch (Closed userId) st Hwf) as Hwf'.
  cbn [dispatch] in Hreg', Hwf'. unfold after in *.
  destruct (handleDisconnect_full userId st Hreg Hwf)
    as (st' & Hrun & Hkept & Hsessions & HU & HT & Hwire).
  rewrite Hrun in *. cbn [fst snd] in *.
  do 2 (split; [done|]). split; [|split; [|split; [|do 2 (split; [done|]); split; [|done]]]].
  - apply Map_get_None. rewrite Hsessions.
    intros (e & Hkey & He)%list_elem_of_fmap.
    apply list_elem_of_In, List.filter_In in He as [He _].
    apply List.filter_In in He as [_ He]. bools. congruence.
  - intros u ws Hin Hne Hok. rewrite Hsessions.
    apply list_elem_of_In, List.filter_In. split.
    + apply List.filter_In. split; [by apply list_elem_of_In|]. cbn.
      by apply negb_true_iff, String.eqb_neq.
    + unfold evicts. cbn. by rewrite <- andb_assoc, Hok, andb_false_r.
  - rewrite HU, elem_of_difference, elem_of_singleton. by intros [_ ?].
  - intros h Hh. destruct Hwf' as (_ & _ & Hpend & _).
    destruct (Hpend _ _ Hh) as [_ Hu]. by rewrite HT, lookup_delete_eq in Hu.
Qed.

(** ** What is in memory is in the key-value storage *)

(** Reads every field of the last state back to the first. *)
Ltac chain :=
  repeat match goal with
         | H : storage ?s = _ |- context [storage ?s] => rewrite H
         | H : messages ?s = _ |- context [messages ?s] => rewrite H
         | H : members ?s = _ |- context [members ?s] => rewrite H
         | H : channelId ?s = _ |- context [channelId ?s] => rewrite H
         | H : DB ?s = _ |- context [DB ?s] => rewrite H
         | H : env ?s = _ |- context [env ?s] => rewrite H
         end.

(** [new Map(Array.from(members.entries()))] is [members]. *)
Lemma list_to_map_reverse_to_list (m : gmap string ChannelMember.t) :
  list_to_map (reverse (map_to_list m)) = m.
Proof.
  rewrite <- (list_to_map_to_list m) at 2. apply list_to_map_proper.
  - rewrite fmap_reverse, reverse_Permutation. apply NoDup_fst_map_to_list.
  - apply reverse_Permutation.
Qed.

Lemma orElse_Some (s d : string) : orElse (Some s) d = if String.eqb s "" then d else s.
Proof. done. Qed.

Lemma reactionUsers_created i reaction users st m :
  messages st !! i = Some m →
  reactionUsers i reaction
    (set_messages (alter (Message.set_reactions (<[reaction := users]>)) i) st)
  = Own users.
Proof.
  intros Hi. unfold reactionUsers, readProperty. cbn [messages set_messages].
  rewrite (alter_found _ _ _ _ Hi), list_lookup_insert_eq by by eapply lookup_lt_Some.
  cbn. by rewrite lookup_insert_eq.
Qed.

(** The list created for a new reaction key is empty, so the user is not in it. *)
Ltac fresh_key :=
  match goal with
  | Hfound : findIndex _ (messages ?st) = Some (?i, _),
    Hin : reactionUsers ?i ?r (set_messages _ ?st) = _ |- _ =>
      let Hi := fresh in
      destruct (findIndex_lookup _ _ _ _ Hfound) as [Hi _];
      rewrite (reactionUsers_created _ _ _ _ _ Hi) in Hin;
      try discriminate Hin;
      injection Hin as <-;
      repeat match goal with
             | H : context [bool_decide (_ ∈ [])] |- _ =>
                 rewrite bool_decide_eq_false_2 in H by apply not_elem_of_nil
             end;
      try discriminate
  end.

Ltac durable_done :=
  unfold durable, storedChannelId, storedMembers, storedWindow in *;
  fields; try discriminate; chain; cbn;
  rewrite ?list_to_map_reverse_to_list; try done.

Lemma durable_dispatch e st : putsSucceed e → durable st → durable (after (dispatch e) st).
Proof.
  intros Hput Hdur. apply wp_after. destruct e; cbn [dispatch putsSucceed] in *.
  - unfold handleWebSocket, handleSession. wp_go; durable_done.
  - unfold onMessage, handleMessage, handleSendMessage, handleEditMessage,
      handleDeleteMessage, handleReactionAdd, handleReactionRemove, handleTypingStart.
    wp_go; durable_done. all: fresh_key.
  - unfold handleDisconnect. wp_go; durable_done.
  - unfold fireTimer. wp_go; durable_done.
  - unfold setChannelId. wp_go; durable_done.
    split; [|done]. by destruct (String.eqb_spec channel "").
Qed.

Lemma durable_play events st :
  Forall putsSucceed events → durable st → durable (play events st).
Proof.
  intros Hputs. revert st.
  induction Hputs as [|e events He _ IH]; intros st Hdur; cbn [play]; [done|].
  by apply IH, durable_dispatch.
Qed.

Lemma construct_durable o e s db : durable (construct o e s db).
Proof.
  unfold durable, storedChannelId, storedMembers, storedWindow, construct.
  destruct s as [[[|m window]|] channel entries]; cbn;
    try destruct (String.eqb (orElse channel "") ""); cbn;
    try destruct (dbThrows o || putThrows o); cbn; done.
Qed.

(** X9. A restart loses nothing that was acknowledged.  Take any run after
    a cold start in which the storage puts go through (the table may fail, and
    sockets may fail, close or be replaced at will): the instance a later
    cold start builds from the storage and the table has the same channel id
    and the same member directory, and the same window whenever the window
    is not empty.  Sessions and typing indicators are not carried over. *)
Theorem restart_restores o e s db events o' :
  Forall putsSucceed events →
  let st := play events (construct o e s db) in
  let st' := construct o' (env st) (storage st) (DB st) in
  channelId st' = channelId st
  ∧ members st' = members st
  ∧ (messages st ≠ [] → messages st' = messages st)
  ∧ sessions st' = [] ∧ typingUsers st' = ∅ ∧ typingTimeouts st' = ∅.
Proof.
  intros Hputs st st'.
  assert (Hdur : durable st) by (apply durable_play; [done|apply construct_durable]).
  destruct Hdur as (Hchannel & Hmembers & Hwindow).
  unfold storedChannelId, storedMembers, storedWindow in *. subst st'.
  generalize dependent st. intros st. clear Hputs. intros Hchannel Hmembers Hwindow.
  unfold construct.
  destruct (stored_messages (storage st)) as [[|m window]|]; cbn in Hwindow;
    try destruct (String.eqb (orElse (stored_channelId (storage st)) "") "");
    try destruct (dbThrows o' || putThrows o'); cbn; repeat split; try done;
    intros Hne; by rewrite <- Hwindow in Hne.
Qed.

(** ** The member directory *)

Lemma members_kept_dispatch userId member e st :
  members st !! userId = Some member →
  members (after (dispatch e) st) !! userId = Some member.
Proof.
  intros Hmember. apply wp_after. destruct e; cbn [dispatch].
  - unfold handleWebSocket, handleSession. wp_go; fields; chain; cbn; try done.
    all: rewrite lookup_insert_ne; [done|congruence].
  - unfold onMessage, handleMessage, handleSendMessage, handleEditMessage,
      handleDeleteMessage, handleReactionAdd, handleReactionRemove, handleTypingStart.
    wp_go; fields; chain; cbn; try done.
  - unfold handleDisconnect. wp_go; fields; chain; cbn; try done.
  - unfold fireTimer. wp_go; fields; chain; cbn; try done.
  - unfold setChannelId. wp_go; fields; chain; cbn; try done.
Qed.

(** X10. A member record, once in the directory, is permanent: no event
    changes or removes it.  In particular the profile under which a user
    first connected stays, whatever name or picture a later connection
    carries. *)
Theorem member_profile_permanent events userId member st :
  members st !! userId = Some member →
  members (play events st) !! userId = Some member.
Proof.
  revert st. induction events as [|e events IH]; intros st Hmember; cbn [play]; [done|].
  by apply IH, members_kept_dispatch.
Qed.

(** ** Sending *)

Lemma handleSendMessage_put_fails o message userId st :
  validContent (env st) message = true → dbThrows o = false → putThrows o = true →
  let fresh := newMessage o message userId (contentOf message) st in
  let row := newRow o message userId (contentOf message) st in
  ∃ st', handleSendMessage o message userId st = (Returned tt, st')
    ∧ env st' = env st ∧ members st' = members st ∧ channelId st' = channelId st
    ∧ DB st' = DB st ++ [row]
    ∧ messages st' = trimWindow (messages st ++ [fresh])
    ∧ storage st' = storage st
    ∧ typingUsers st' = typingUsers st ∧ typingTimeouts st' = typingTimeouts st
    ∧ timers st' = timers st
    ∧ wire st' = wire st ++ unicastFrames userId (error "Failed to send message") st.
Proof.
  intros Hvalid Hdb Hput fresh row.
  cut (wp (handleSendMessage o message userId) (λ c st', match c with
         | Returned _ =>
    env st' = env st ∧ members st' = members st ∧ channelId st' = channelId st
    ∧ DB st' = DB st ++ [row]
    ∧ messages st' = trimWindow (messages st ++ [fresh])
    ∧ storage st' = storage st
    ∧ typingUsers st' = typingUsers st ∧ typingTimeouts st' = typingTimeouts st
    ∧ timers st' = timers st
    ∧ wire st' = wire st ++ unicastFrames userId (error "Failed to send message") st
         | Thrown => False end) st).
  { intros (a & st' & Hrun & H)%wp_returns. destruct a. by exists st'. }
  apply validContent_guard in Hvalid.
  unfold handleSendMessage. wp_go; try congruence; fields.
  all: subst fresh row; unfold trimWindow, contentOf, unicastFrames, liveSession in *.
  all: fields; rewrite Heqb1; by repeat split.
Qed.

(** X11. A [send_message] whose row is inserted but whose snapshot put is
    rejected is applied in part: the row is in the table and the message in the
    window, the persisted snapshot is the old one, nobody is sent
    [new_message], the sender's typing indicator stays, and the one frame
    that may go out tells the sender 'Failed to send message'.  The handler
    does not throw. *)
Theorem send_put_failure_partial o message userId st :
  validContent (env st) message = true → dbThrows o = false → putThrows o = true →
  let fresh := newMessage o message userId (contentOf message) st in
  let st' := after (handleSendMessage o message userId) st in
  fst (handleSendMessage o message userId st) = Returned tt
  ∧ DB st' = DB st ++ [newRow o message userId (contentOf message) st]
  ∧ messages st' = trimWindow (messages st ++ [fresh])
  ∧ storage st' = storage st
  ∧ typingUsers st' = typingUsers st ∧ typingTimeouts st' = typingTimeouts st
  ∧ timers st' = timers st
  ∧ wire st' = wire st ++ unicastFrames userId (error "Failed to send message") st
  ∧ (∀ f, f ∈ wire st' → f ∈ wire st ∨ f = (userId, error "Failed to send message")).
Proof.
  intros Hvalid Hdb Hput fresh st'. subst st'. unfold after.
  destruct (handleSendMessage_put_fails o message userId st Hvalid Hdb Hput)
    as (st' & -> & _ & _ & _ & HDB & Hwindow & Hstorage & HU & HT & HP & Hwire).
  cbn [fst snd]. do 8 (split; [done|]).
  intros f. rewrite Hwire, elem_of_app. intros [?|Hf]; [by left|right].
  unfold unicastFrames in Hf. destruct (liveSession userId st).
  - by apply list_elem_of_singleton in Hf.
  - by apply elem_of_nil in Hf.
Qed.

(** [handleTypingStop] run right after a broadcast. *)
Lemma typingStop_settles userId excludeUserId st st1 st2 :
  registryWf st → typingWf st →
  typingUsers st1 = typingUsers st → typingTimeouts st1 = typingTimeouts st →
  sessions st1 = withoutUsers (evictedUsers excludeUserId (sessions st)) (sessions st) →
  (userId ∉ typingUsers st1 → st2 = st1) →
  (userId ∈ typingUsers st1 →
     wire st2 = wire st1
                ++ broadcastFrames (typing_stop userId) (Some userId) (sessions st1)
     ∧ sessions st2
       = withoutUsers (evictedUsers (Some userId) (sessions st1)) (sessions st1)
     ∧ match typingTimeouts st1 !! userId with
       | Some (S h) => typingTimeouts st2 = delete userId (typingTimeouts st1)
                       ∧ timers st2 = delete (S h) (timers st1)
       | _ => typingTimeouts st2 = typingTimeouts st1 ∧ timers st2 = timers st1
       end) →
  typingTimeouts st2 = delete userId (typingTimeouts st)
  ∧ wire st2 = wire st1
      ++ (if bool_decide (userId ∈ typingUsers st)
          then broadcastFrames (typing_stop userId) (Some userId) (sessions st) else []).
Proof.
  intros Hreg Hwf HU HT Hsessions Hidle Htyping. rewrite HU, HT in *.
  destruct (decide (userId ∈ typingUsers st)) as [Hin|Hout].
  - rewrite bool_decide_eq_true_2 by done.
    destruct (typingWf_typing _ _ Hwf Hin) as (h & Hh & _).
    destruct (Htyping Hin) as (Hwire & _ & Hfields). rewrite Hh in Hfields.
    split; [by destruct Hfields|].
    by rewrite Hwire, Hsessions, broadcastFrames_survivors.
  - rewrite bool_decide_eq_false_2 by done. rewrite (Hidle Hout), app_nil_r.
    split; [|done]. rewrite HT. symmetry. apply delete_id. by apply typingWf_idle.
Qed.

Lemma handleSendMessage_ok o message userId st :
  registryWf st → typingWf st →
  validContent (env st) message = true → dbThrows o = false → putThrows o = false →
  let fresh := newMessage o message userId (contentOf message) st in
  let row := newRow o message userId (contentOf message) st in
  ∃ st', handleSendMessage o message userId st = (Returned tt, st')
    ∧ env st' = env st ∧ members st' = members st ∧ channelId st' = channelId st
    ∧ DB st' = DB st ++ [row]
    ∧ messages st' = trimWindow (messages st ++ [fresh])
    ∧ storage st' = {| stored_messages := Some (messages st');
                       stored_channelId := stored_channelId (storage st);
                       stored_members := stored_members (storage st) |}
    ∧ typingUsers st' = typingUsers st ∖ {[userId]}
    ∧ typingTimeouts st' = delete userId (typingTimeouts st)
    ∧ wire st' = wire st
        ++ broadcastFrames (new_message fresh) None (sessions st)
        ++ (if bool_decide (userId ∈ typingUsers st)
            then broadcastFrames (typing_stop userId) (Some userId) (sessions st) else []).
Proof.
  intros Hreg Hwf Hvalid Hdb Hput fresh row.
  cut (wp (handleSendMessage o message userId) (λ c st', match c with
         | Returned _ =>
    env st' = env st ∧ members st' = members st ∧ channelId st' = channelId st
    ∧ DB st' = DB st ++ [row]
    ∧ messages st' = trimWindow (messages st ++ [fresh])
    ∧ storage st' = {| stored_messages := Some (messages st');
                       stored_channelId := stored_channelId (storage st);
                       stored_members := stored_members (storage st) |}
    ∧ typingUsers st' = typingUsers st ∖ {[userId]}
    ∧ typingTimeouts st' = delete userId (typingTimeouts st)
    ∧ wire st' = wire st
        ++ broadcastFrames (new_message fresh) None (sessions st)
        ++ (if bool_decide (userId ∈ typingUsers st)
            then broadcastFrames (typing_stop userId) (Some userId) (sessions st) else [])
         | Thrown => False end) st).
  { intros (a & st' & Hrun & H)%wp_returns. destruct a. by exists st'. }
  apply validContent_guard in Hvalid.
  unfold handleSendMessage. wp_go; try congruence; fields.
  all: subst fresh row; unfold trimWindow, contentOf in *; fields; rewrite Heqb1.
  all: destruct (typingStop_settles userId None st st' st'0) as [HT Hwire]; try done.
  all: rewrite HT, Hwire, H0, <- app_assoc. all: unfold sqlInsert in *.
  all: repeat split; congruence.
Qed.

(** X12. A [send_message] that goes through, in a consistent state: exactly
    one row is appended to the table, the window gains the message (and is
    cut back past 100 entries), the persisted snapshot is the new window, and
    sending ends the sender's typing indicator: the user leaves the typing
    set, the timer is cancelled so that none stays pending for them, and after
    the [new_message] frames the other sessions get [typing_stop] if, and only
    if, the sender was typing. *)
Theorem send_stores_and_stops_typing o message userId st :
  registryWf st → typingWf st →
  validContent (env st) message = true → dbThrows o = false → putThrows o = false →
  let fresh := newMessage o message userId (contentOf message) st in
  let st' := after (handleSendMessage o message userId) st in
  DB st' = DB st ++ [newRow o message userId (contentOf message) st]
  ∧ messages st' = trimWindow (messages st ++ [fresh])
  ∧ stored_messages (storage st') = Some (messages st')
  ∧ (userId ∉ typingUsers st')
  ∧ typingUsers st' = typingUsers st ∖ {[userId]}
  ∧ typingTimeouts st' = delete userId (typingTimeouts st)
  ∧ (∀ h, timers st' !! h ≠ Some userId)
  ∧ wire st' = wire st
      ++ broadcastFrames (new_message fresh) None (sessions st)
      ++ (if bool_decide (userId ∈ typingUsers st)
          then broadcastFrames (typing_stop userId) (Some userId) (sessions st) else [])
  ∧ typingWf st'.
Proof.
  intros Hreg Hwf Hvalid Hdb Hput fresh st'. subst st'.
  pose proof (handleSendMessage_typingWf o message userId st Hwf) as Hwf'.
  unfold after in *.
  destruct (handleSendMessage_ok o message userId st Hreg Hwf Hvalid Hdb Hput)
    as (st' & Hrun & _ & _ & _ & HDB & Hwindow & Hstorage & HU & HT & Hwire).
  rewrite Hrun in *. cbn [fst snd] in *.
  do 2 (split; [done|]). split; [by rewrite Hstorage|]. split; [|split; [done|]].
  - rewrite HU, elem_of_difference, elem_of_singleton. by intros [_ ?].
  - split; [done|]. split; [|done]. intros h Hh.
    destruct Hwf' as (_ & _ & Hpend & _). destruct (Hpend _ _ Hh) as [_ Hu].
    by rewrite HT, lookup_delete_eq in Hu.
Qed.

(** ** History, in full *)

Global Instance timestampGe_trans : Transitive timestampGe.
Proof. intros r1 r2 r3 H12 H23. unfold timestampGe in *. by eapply string_leb_trans. Qed.

(** [LIMIT] on sorted rows keeps the first ones: whatever it drops comes
    after everything it keeps, and it drops nothing unless the bound is
    reached. *)
Lemma sqlLimit_newest {A} (R : relation A) limit (l : list A) x :
  StronglySorted R l → x ∈ l →
  x ∈ sqlLimit limit l
  ∨ (Z.of_nat (length (sqlLimit limit l)) = limit ∧ ∀ a, a ∈ sqlLimit limit l → R a x).
Proof.
  intros Hsorted Hx. unfold sqlLimit. destruct (Z.ltb_spec limit 0) as [Hneg|Hpos]; [by left|].
  rewrite <- (take_drop (Z.to_nat limit) l) in Hx, Hsorted.
  apply elem_of_app in Hx as [Hx|Hx]; [by left|right]. split.
  - rewrite length_take_le; [lia|].
    destruct (decide (Z.to_nat limit ≤ length l)) as [|Hshort]; [done|].
    rewrite drop_ge in Hx by lia. by apply elem_of_nil in Hx.
  - intros a Ha. by eapply StronglySorted_app_1_elem_of.
Qed.

Lemma sqlSelectHistory_complete channel before limit db r :
  r ∈ db → DbRow.channelId r = channel → DbRow.deleted r = false →
  match before with
  | Some b => String.ltb (DbRow.timestamp r) b = true
  | None => True
  end →
  let rows := sqlSelectHistory channel before limit db in
  r ∈ rows ∨ (Z.of_nat (length rows) = limit ∧ ∀ a, a ∈ rows → timestampGe a r).
Proof.
  intros Hin Hchannel Hdeleted Hbefore. unfold sqlSelectHistory. cbn zeta.
  apply sqlLimit_newest; [apply StronglySorted_merge_sort; apply _|].
  rewrite merge_sort_Permutation.
  apply list_elem_of_In, List.filter_In. split; [by apply list_elem_of_In|].
  rewrite Hdeleted. apply String.eqb_eq in Hchannel as ->. cbn.
  by destruct before.
Qed.

(** X13. The history endpoint returns the newest rows that qualify.  Every
    row of the table that is of the instance's channel, not deleted, and older
    than [before] when that is given, is either in the response, or the
    response is full ([limit] messages, 50 by default) and every message in it
    is at least as new as that row.  So nothing is left out unless the limit
    is reached, and then only the oldest. *)
Theorem history_returns_newest o request st r :
  dbThrows o = false →
  r ∈ DB st → DbRow.channelId r = channelId st → DbRow.deleted r = false →
  (∀ b, before request = Some b → b ≠ "" → String.ltb (DbRow.timestamp r) b = true) →
  let response := getMessages o request st in
  rowToMessage (members st !! DbRow.userId r) r ∈ response
  ∨ (Z.of_nat (length response) = default 50%Z (limit request)
     ∧ ∀ m, m ∈ response → String.leb (DbRow.timestamp r) (Message.timestamp m) = true).
Proof.
  intros Hdb Hin Hchannel Hdeleted Hbefore response. subst response.
  unfold getMessages. rewrite Hdb.
  set (before' := if truthy (before request) then before request else None).
  assert (Hbefore' : match before' with
                     | Some b => String.ltb (DbRow.timestamp r) b = true
                     | None => True
                     end).
  { subst before'. destruct (before request) as [b|] eqn:Hb; [|done].
    destruct (truthy (Some b)) eqn:Ht; [|done]. apply Hbefore; [done|].
    intros ->. done. }
  destruct (sqlSelectHistory_complete (channelId st) before' (default 50%Z (limit request))
              (DB st) r Hin Hchannel Hdeleted Hbefore') as [Hr|[Hfull Hnewer]].
  - left. apply list_elem_of_In, List.in_map_iff. exists r. split; [done|].
    by apply list_elem_of_In, elem_of_reverse.
  - right. split.
    + by rewrite List.length_map, length_reverse.
    + intros m (a & <- & Ha)%list_elem_of_In%List.in_map_iff.
      apply list_elem_of_In in Ha. rewrite elem_of_reverse in Ha. exact (Hnewer a Ha).
Qed.

Lemma string_ltb_not_leb (a b : string) :
  String.ltb a b = true → String.leb b a = true → False.
Proof.
  unfold String.ltb, String.leb. rewrite (String.compare_antisym a b).
  by destruct (String.compare b a).
Qed.

Lemma orElse_self (s : string) : orElse (Some s) s = s.
Proof. cbn. by destruct (String.eqb s ""). Qed.

(** The row [handleSendMessage] inserts reads back as the message it made,
    short of the attachments and the mentions, which the table does not
    hold. *)
Lemma rowToMessage_newRow o message userId content st member :
  member = members st !! userId →
  let m := rowToMessage member (newRow o message userId content st) in
  let fresh := newMessage o message userId content st in
  Message.id m = Message.id fresh ∧ Message.channelId m = Message.channelId fresh
  ∧ Message.userId m = Message.userId fresh ∧ Message.content m = Message.content fresh
  ∧ Message.timestamp m = Message.timestamp fresh ∧ Message.user m = Message.user fresh
  ∧ Message.edited m = false ∧ Message.deleted m = false
  ∧ Message.reactions m = ∅ ∧ Message.attachments m = [] ∧ Message.mentions m = [].
Proof.
  intros ->. cbn. do 5 (split; [done|]). split; [|done].
  unfold memberInfo. f_equal; apply orElse_self.
Qed.

(** X14. Send, then fetch: once the row of a [send_message] is inserted
    (whether or not the snapshot put goes through), a history request that
    the table answers returns the message, provided its timestamp is past
    those of the channel's rows already there, the request's [limit] is not
    0, and its [before], if any, is past the timestamp.  What comes back has
    the id, channel, author, content, timestamp and author profile of the
    message that was broadcast, but no attachments and no mentions: the
    table does not hold them. *)
Theorem sent_message_in_history o message userId st o' request :
  validContent (env st) message = true → dbThrows o = false → dbThrows o' = false →
  (∀ r, r ∈ DB st → DbRow.channelId r = channelId st →
        String.ltb (DbRow.timestamp r) (now o) = true) →
  limit request ≠ Some 0%Z →
  (∀ b, before request = Some b → b ≠ "" → String.ltb (now o) b = true) →
  let fresh := newMessage o message userId (contentOf message) st in
  let st' := after (handleSendMessage o message userId) st in
  ∃ m, m ∈ getMessages o' request st'
       ∧ Message.id m = Message.id fresh ∧ Message.channelId m = Message.channelId fresh
       ∧ Message.userId m = userId ∧ Message.content m = contentOf message
       ∧ Message.timestamp m = now o ∧ Message.user m = Message.user fresh
       ∧ Message.attachments m = [] ∧ Message.mentions m = [].
Proof.
  intros Hvalid Hdb Hdb' Hnewest Hlimit Hbefore fresh st'. subst st'. unfold after.
  destruct (handleSendMessage_inserted o message userId st Hvalid Hdb)
    as (st' & -> & _ & HDB & _ & Hmembers & Hchannel).
  cbn [snd]. set (row := newRow o message userId (contentOf message) st) in *.
  assert (Hrow : row ∈ DB st') by (rewrite HDB; apply elem_of_app; right; left).
  assert (Hin : rowToMessage (members st' !! DbRow.userId row) row
                ∈ getMessages o' request st').
  { unfold getMessages. rewrite Hdb'.
    set (before' := if truthy (before request) then before request else None).
    assert (Hbefore' : match before' with
                       | Some b => String.ltb (DbRow.timestamp row) b = true
                       | None => True
                       end).
    { subst before'. destruct (before request) as [b|] eqn:Hb; [|done].
      destruct (truthy (Some b)) eqn:Ht; [|done]. apply Hbefore; [done|]. by intros ->. }
    apply list_elem_of_In, List.in_map_iff. exists row. split; [done|].
    apply list_elem_of_In. rewrite elem_of_reverse.
    destruct (sqlSelectHistory_complete (channelId st') before'
                (default 50%Z (limit request)) (DB st') row Hrow
                (eq_sym Hchannel) eq_refl Hbefore') as [?|[Hfull Hnewer]]; [done|].
    destruct (sqlSelectHistory (channelId st') before' (default 50%Z (limit request))
                (DB st')) as [|a rows] eqn:Hrows.
    { cbn in Hfull. destruct (limit request) as [n|]; cbn in Hfull; [|done].
      by subst n. }
    assert (Ha : a ∈ sqlSelectHistory (channelId st') before'
                       (default 50%Z (limit request)) (DB st'))
      by (rewrite Hrows; left).
    apply sqlSelectHistory_sound in Ha as (Ha & Hac & _).
    rewrite HDB in Ha. apply elem_of_app in Ha as [Ha|Ha%list_elem_of_singleton].
    - exfalso. apply (string_ltb_not_leb (DbRow.timestamp a) (now o)).
      + apply Hnewest; [done|congruence].
      + apply (Hnewer a). left.
    - subst a. left. }
  eexists. split; [exact Hin|].
  destruct (rowToMessage_newRow o message userId (contentOf message) st
              (members st' !! DbRow.userId row))
    as (? & ? & ? & ? & ? & ? & _ & _ & _ & ? & ?); [by rewrite Hmembers|].
  by repeat split.
Qed.

(** ** Editing and deleting *)

Lemma handleEditMessage_full o message userId st messageId i m :
  WSMessage.messageId message = Some messageId → messageId ≠ "" →
  truthy (trim <$> WSMessage.content message) = true →
  findIndex messageId (messages st) = Some (i, m) → Message.userId m = userId →
  let edited := Message.edit (contentOf message) (now o) m in
  ∃ st', handleEditMessage o message userId st = (Returned tt, st')
    ∧ env st' = env st ∧ members st' = members st ∧ channelId st' = channelId st
    ∧ typingUsers st' = typingUsers st ∧ typingTimeouts st' = typingTimeouts st
    ∧ timers st' = timers st
    ∧ if dbThrows o
      then DB st' = DB st ∧ messages st' = messages st ∧ storage st' = storage st
           ∧ wire st' = wire st ++ unicastFrames userId (error "Failed to edit message") st
      else DB st' = sqlUpdateContent (contentOf message) (now o) messageId userId (DB st)
           ∧ messages st' = <[i := edited]> (messages st)
           ∧ if putThrows o
             then storage st' = storage st
                  ∧ wire st' = wire st
                               ++ unicastFrames userId (error "Failed to edit message") st
             else stored_messages (storage st') = Some (messages st')
                  ∧ wire st' = wire st
                               ++ broadcastFrames (message_edited edited) None (sessions st).
Proof.
  intros Hid Hne Hcontent Hfound Hauthor edited.
  cut (wp (handleEditMessage o message userId) (λ c st', match c with
         | Returned _ =>
    env st' = env st ∧ members st' = members st ∧ channelId st' = channelId st
    ∧ typingUsers st' = typingUsers st ∧ typingTimeouts st' = typingTimeouts st
    ∧ timers st' = timers st
    ∧ if dbThrows o
      then DB st' = DB st ∧ messages st' = messages st ∧ storage st' = storage st
           ∧ wire st' = wire st ++ unicastFrames userId (error "Failed to edit message") st
      else DB st' = sqlUpdateContent (contentOf message) (now o) messageId userId (DB st)
           ∧ messages st' = <[i := edited]> (messages st)
           ∧ if putThrows o
             then storage st' = storage st
                  ∧ wire st' = wire st
                               ++ unicastFrames userId (error "Failed to edit message") st
             else stored_messages (storage st') = Some (messages st')
                  ∧ wire st' = wire st
                               ++ broadcastFrames (message_edited edited) None (sessions st)
         | Thrown => False end) st).
  { intros (a & st' & Hrun & H)%wp_returns. destruct a. by exists st'. }
  unfold handleEditMessage. rewrite Hid. cbn [default]. rewrite (truthy_Some _ Hne), Hcontent.
  cbn [negb orb]. wp_go.
  all: change (id messageId) with messageId in *; rewrite Hfound in *; simplify_eq.
  all: destruct (findIndex_lookup _ _ _ _ Hfound) as [Hi _].
  all: fields; unfold unicastFrames, liveSession in *; fields.
  all: rewrite ?(alter_found _ _ _ _ Hi) in *.
  all: rewrite ?list_lookup_insert_eq in * by (by eapply lookup_lt_Some).
  all: bools; simplify_eq; try done.
  rewrite H8, H4. by repeat split.
Qed.

(** X15. An edit by the author of a message of the window.  The entry is
    replaced in place by one with the trimmed new content, [edited] set and
    [editedAt] the time of the edit; id, channel, author, timestamp, profile,
    reactions and position are kept.  If the [UPDATE] is rejected nothing
    changes; if it is applied but the snapshot put is rejected, table and
    window are changed, the snapshot is not, and nothing is broadcast; in
    both cases the one frame that may go out tells the author 'Failed to
    edit message'.  When both go through, [message_edited] with the new
    entry goes to every live session. *)
Theorem edit_by_author o message userId st messageId i m :
  WSMessage.messageId message = Some messageId → messageId ≠ "" →
  truthy (trim <$> WSMessage.content message) = true →
  findIndex messageId (messages st) = Some (i, m) → Message.userId m = userId →
  let edited := Message.edit (contentOf message) (now o) m in
  let st' := after (handleEditMessage o message userId) st in
  fst (handleEditMessage o message userId st) = Returned tt
  ∧ sameIdentity m edited
  ∧ Message.content edited = contentOf message
  ∧ Message.edited edited = true ∧ Message.editedAt edited = Some (now o)
  ∧ Message.reactions edited = Message.reactions m
  ∧ (dbThrows o = true →
       DB st' = DB st ∧ messages st' = messages st ∧ storage st' = storage st
       ∧ wire st' = wire st ++ unicastFrames userId (error "Failed to edit message") st)
  ∧ (dbThrows o = false →
       DB st' = sqlUpdateContent (contentOf message) (now o) messageId userId (DB st)
       ∧ messages st' = <[i := edited]> (messages st)
       ∧ length (messages st') = length (messages st)
       ∧ (putThrows o = true →
            storage st' = storage st
            ∧ wire st' = wire st
                         ++ unicastFrames userId (error "Failed to edit message") st)
       ∧ (putThrows o = false →
            stored_messages (storage st') = Some (messages st')
            ∧ wire st' = wire st
                         ++ broadcastFrames (message_edited edited) None (sessions st))).
Proof.
  intros Hid Hne Hcontent Hfound Hauthor edited st'. subst st'. unfold after.
  destruct (handleEditMessage_full o message userId st messageId i m
              Hid Hne Hcontent Hfound Hauthor)
    as (st' & -> & _ & _ & _ & _ & _ & _ & Hcases).
  cbn [fst snd]. split; [done|]. split; [by repeat split|]. do 4 (split; [done|]).
  destruct (dbThrows o); (split; [intros ?|intros ?]); try done.
  destruct Hcases as (HDB & Hwindow & Hput). do 2 (split; [done|]).
  split; [by rewrite Hwindow, length_insert|].
  destruct (putThrows o); (split; [intros ?|intros ?]); done.
Qed.

Lemma handleDeleteMessage_full o message userId st messageId i m :
  WSMessage.messageId message = Some messageId → messageId ≠ "" →
  findIndex messageId (messages st) = Some (i, m) → Message.userId m = userId →
  ∃ st', handleDeleteMessage o message userId st = (Returned tt, st')
    ∧ env st' = env st ∧ members st' = members st ∧ channelId st' = channelId st
    ∧ typingUsers st' = typingUsers st ∧ typingTimeouts st' = typingTimeouts st
    ∧ timers st' = timers st
    ∧ if dbThrows o
      then DB st' = DB st ∧ messages st' = messages st ∧ storage st' = storage st
           ∧ wire st' = wire st ++ unicastFrames userId (error "Failed to delete message") st
      else DB st' = sqlSoftDelete messageId userId (DB st)
           ∧ messages st' = delete i (messages st)
           ∧ if putThrows o
             then storage st' = storage st
                  ∧ wire st' = wire st
                               ++ unicastFrames userId (error "Failed to delete message") st
             else stored_messages (storage st') = Some (messages st')
                  ∧ wire st' = wire st
                               ++ broadcastFrames (message_deleted messageId) None (sessions st).
Proof.
  intros Hid Hne Hfound Hauthor.
  cut (wp (handleDeleteMessage o message userId) (λ c st', match c with
         | Returned _ =>
    env st' = env st ∧ members st' = members st ∧ channelId st' = channelId st
    ∧ typingUsers st' = typingUsers st ∧ typingTimeouts st' = typingTimeouts st
    ∧ timers st' = timers st
    ∧ if dbThrows o
      then DB st' = DB st ∧ messages st' = messages st ∧ storage st' = storage st
           ∧ wire st' = wire st ++ unicastFrames userId (error "Failed to delete message") st
      else DB st' = sqlSoftDelete messageId userId (DB st)
           ∧ messages st' = delete i (messages st)
           ∧ if putThrows o
             then storage st' = storage st
                  ∧ wire st' = wire st
                               ++ unicastFrames userId (error "Failed to delete message") st
             else stored_messages (storage st') = Some (messages st')
                  ∧ wire st' = wire st
                               ++ broadcastFrames (message_deleted messageId) None (sessions st)
         | Thrown => False end) st).
  { intros (a & st' & Hrun & H)%wp_returns. destruct a. by exists st'. }
  unfold handleDeleteMessage. rewrite Hid. cbn [default]. rewrite (truthy_Some _ Hne).
  cbn [negb]. wp_go.
  all: change (id messageId) with messageId in *; rewrite Hfound in *; simplify_eq.
  all: fields; unfold unicastFrames, liveSession in *; fields.
  all: bools; simplify_eq; try done.
  rewrite H8, H4. by repeat split.
Qed.

(** X16. A delete by the author when a write fails.  If the [UPDATE] is
    rejected nothing changes.  If it is applied but the snapshot put is
    rejected, the row is flagged and the entry is gone from the window, but
    the snapshot still holds it and nobody is sent [message_deleted]: a cold
    start from a snapshot that was in step with the window brings the deleted
    message back into the window.  In both cases the one frame that may go
    out tells the author 'Failed to delete message', and the handler does not
    throw. *)
Theorem delete_write_failures o message userId st messageId i m :
  WSMessage.messageId message = Some messageId → messageId ≠ "" →
  findIndex messageId (messages st) = Some (i, m) → Message.userId m = userId →
  dbThrows o = true ∨ putThrows o = true →
  let st' := after (handleDeleteMessage o message userId) st in
  fst (handleDeleteMessage o message userId st) = Returned tt
  ∧ storage st' = storage st
  ∧ wire st' = wire st ++ unicastFrames userId (error "Failed to delete message") st
  ∧ (dbThrows o = true → DB st' = DB st ∧ messages st' = messages st)
  ∧ (dbThrows o = false →
       DB st' = sqlSoftDelete messageId userId (DB st)
       ∧ messages st' = delete i (messages st)
       ∧ (storedWindow (storage st) = messages st →
          ∀ o' e, m ∈ messages (construct o' e (storage st') (DB st')))).
Proof.
  intros Hid Hne Hfound Hauthor Hfail st'. subst st'. unfold after.
  destruct (handleDeleteMessage_full o message userId st messageId i m
              Hid Hne Hfound Hauthor)
    as (st' & -> & _ & _ & _ & _ & _ & _ & Hcases).
  cbn [fst snd]. split; [done|].
  destruct (dbThrows o).
  - destruct Hcases as (? & ? & ? & ?). by repeat split.
  - destruct Hfail as [|Hput]; [done|]. rewrite Hput in Hcases.
    destruct Hcases as (HDB & Hwindow & Hstorage & Hwire).
    do 2 (split; [done|]). split; [done|]. intros _. do 2 (split; [done|]).
    intros Hsync o' e. rewrite Hstorage. unfold storedWindow in Hsync.
    destruct (findIndex_lookup _ _ _ _ Hfound) as [Hi _].
    apply list_elem_of_lookup_2 in Hi. unfold construct.
    destruct (stored_messages (storage st)) as [[|m0 window]|]; cbn in Hsync;
      try (rewrite <- Hsync in Hi; by apply elem_of_nil in Hi).
    cbn. by rewrite Hsync.
Qed.

Lemma sqlSoftDelete_elem messageId userId db r :
  r ∈ sqlSoftDelete messageId userId db →
  ∃ r0, r0 ∈ db ∧ DbRow.id r = DbRow.id r0 ∧ DbRow.userId r = DbRow.userId r0
        ∧ DbRow.channelId r = DbRow.channelId r0
        ∧ (DbRow.deleted r = false → r = r0
           ∧ ¬ (DbRow.id r0 = messageId ∧ DbRow.userId r0 = userId)).
Proof.
  unfold sqlSoftDelete. intros (r0 & <- & Hr0)%list_elem_of_In%List.in_map_iff.
  exists r0. split; [by apply list_elem_of_In|].
  destruct (String.eqb_spec (DbRow.id r0) messageId) as [Heq|Hne]; cbn.
  - destruct (String.eqb_spec (DbRow.userId r0) userId) as [Heq'|Hne']; cbn.
    + by repeat split.
    + repeat split; try done. by intros [_ ?].
  - repeat split; try done. by intros [? _].
Qed.

(** X17. A deleted message does not come back from the table.  After a
    delete by the author whose [UPDATE] is applied (the rows of that id being
    the author's), no history response, whatever its parameters, contains a
    message of that id, and neither does the window of a cold start that
    loads from the table. *)
Theorem deleted_message_stays_out o message userId st messageId i m :
  WSMessage.messageId message = Some messageId → messageId ≠ "" →
  findIndex messageId (messages st) = Some (i, m) → Message.userId m = userId →
  dbThrows o = false →
  (∀ r, r ∈ DB st → DbRow.id r = messageId → DbRow.userId r = userId) →
  let st' := after (handleDeleteMessage o message userId) st in
  (∀ o' request m', m' ∈ getMessages o' request st' → Message.id m' ≠ messageId)
  ∧ (∀ o' e s m', stored_messages s = None ∨ stored_messages s = Some [] →
       m' ∈ messages (construct o' e s (DB st')) → Message.id m' ≠ messageId).
Proof.
  intros Hid Hne Hfound Hauthor Hdb Hrows st'. subst st'. unfold after.
  destruct (handleDeleteMessage_full o message userId st messageId i m
              Hid Hne Hfound Hauthor)
    as (st' & -> & _ & _ & _ & _ & _ & _ & Hcases).
  rewrite Hdb in Hcases. destruct Hcases as (HDB & _). cbn [snd].
  assert (Hlive : ∀ r, r ∈ DB st' → DbRow.deleted r = false → DbRow.id r ≠ messageId).
  { intros r Hr Hdeleted Heq. rewrite HDB in Hr.
    apply sqlSoftDelete_elem in Hr as (r0 & Hr0 & Hid0 & _ & _ & Hkept).
    destruct (Hkept Hdeleted) as [-> Hnot]. apply Hnot. split; [done|].
    by apply Hrows. }
  split.
  - intros o' request m'. unfold getMessages. destruct (dbThrows o').
    { by intros ?%elem_of_nil. }
    intros (r & <- & Hr)%list_elem_of_In%List.in_map_iff.
    apply list_elem_of_In in Hr. rewrite elem_of_reverse in Hr.
    apply sqlSelectHistory_sound in Hr as (Hr & _ & Hdeleted & _). cbn.
    by apply Hlive.
  - intros o' e s m' Hstored. unfold construct.
    assert (Hempty : ∀ w, m' ∈ w → w = [] → Message.id m' ≠ messageId).
    { intros w Hin ->. by apply elem_of_nil in Hin. }
    destruct Hstored as [-> | ->];
      (destruct (String.eqb (orElse (stored_channelId s) "") "");
       [cbn; intros Hin; by apply (Hempty [])|]);
      (destruct (dbThrows o' || putThrows o');
       [cbn; intros Hin; by apply (Hempty [])|]); cbn [messages].
    all: intros (r & <- & Hr)%list_elem_of_In%List.in_map_iff.
    all: apply list_elem_of_In in Hr; rewrite elem_of_reverse in Hr.
    all: apply sqlSelectHistory_sound in Hr as (Hr & _ & Hdeleted & _); cbn.
    all: by apply Hlive.
Qed.

(** ** Reactions, beyond the reaction map *)

Lemma handleReactionAdd_full o message userId st messageId reaction i m :
  WSMessage.messageId message = Some messageId → messageId ≠ "" →
  WSMessage.reaction message = Some reaction → reaction ≠ "" →
  findIndex messageId (messages st) = Some (i, m) →
  let users := default [] (Message.reactions m !! reaction) in
  ∃ c st', handleReactionAdd o message userId st = (c, st')
    ∧ env st' = env st ∧ members st' = members st ∧ channelId st' = channelId st
    ∧ DB st' = DB st
    ∧ typingUsers st' = typingUsers st ∧ typingTimeouts st' = typingTimeouts st
    ∧ timers st' = timers st
    ∧ messages st' = <[i := Message.set_reactions (addReaction reaction userId) m]>
                       (messages st)
    ∧ match readProperty reaction (Message.reactions m) with
      | Inherited => c = Thrown ∧ st' = st
      | Own _ | Undefined =>
          if bool_decide (userId ∈ users) then c = Returned tt ∧ st' = st
          else if putThrows o
               then c = Thrown ∧ storage st' = storage st ∧ wire st' = wire st
                    ∧ sessions st' = sessions st
               else c = Returned tt
                    ∧ stored_messages (storage st') = Some (messages st')
                    ∧ wire st' = wire st
                        ++ broadcastFrames (reaction_added messageId reaction userId) None
                             (sessions st)
      end.
Proof.
  intros Hid Hne Hreaction Hne' Hfound users.
  destruct (handleReactionAdd_window o message userId st messageId reaction i m
              Hid Hne Hreaction Hne' Hfound) as (c & st' & Hrun & Hwindow).
  exists c, st'. split; [done|].
  cut (wp (handleReactionAdd o message userId) (λ c st',
    env st' = env st ∧ members st' = members st ∧ channelId st' = channelId st
    ∧ DB st' = DB st
    ∧ typingUsers st' = typingUsers st ∧ typingTimeouts st' = typingTimeouts st
    ∧ timers st' = timers st
    ∧ match readProperty reaction (Message.reactions m) with
      | Inherited => c = Thrown ∧ st' = st
      | Own _ | Undefined =>
          if bool_decide (userId ∈ users) then c = Returned tt ∧ st' = st
          else if putThrows o
               then c = Thrown ∧ storage st' = storage st ∧ wire st' = wire st
                    ∧ sessions st' = sessions st
               else c = Returned tt
                    ∧ stored_messages (storage st') = Some (messages st')
                    ∧ wire st' = wire st
                        ++ broadcastFrames (reaction_added messageId reaction userId) None
                             (sessions st)
      end) st).
  { unfold wp. rewrite Hrun. cbn [fst snd]. intros (? & ? & ? & ? & ? & ? & ? & ?).
    by repeat split. }
  clear c st' Hrun Hwindow. destruct (findIndex_lookup _ _ _ _ Hfound) as [Hi _].
  unfold handleReactionAdd. rewrite Hid, Hreaction. cbn [default].
  rewrite (truthy_Some _ Hne), (truthy_Some _ Hne'). cbn [negb orb]. wp_go.
  all: change (id messageId) with messageId in *; change (id reaction) with reaction in *.
  all: rewrite Hfound in *; simplify_eq.
  all: rewrite ?(reactionUsers_created _ _ _ _ _ Hi) in *.
  all: rewrite ?(reactionUsers_found _ _ _ _ Hi) in *.
  all: simplify_eq.
  all: subst users; fields; bools.
  all: repeat match goal with
              | H : readProperty _ _ = Own _ |- _ =>
                  rewrite ?H; apply readProperty_Own in H
              | H : readProperty _ _ = Undefined |- _ =>
                  rewrite ?H; apply readProperty_Undefined in H as [H _]
              | H : readProperty _ _ = Inherited |- _ =>
                  rewrite ?H; apply readProperty_Inherited in H as [H _]
              end.
  all: repeat match goal with
              | H : Message.reactions _ !! _ = _ |- _ => rewrite H in *
              end; cbn [default] in *.
  all: rewrite ?bool_decide_eq_true_2, ?bool_decide_eq_false_2 by done.
  all: try done.
  all: repeat split; try done; chain; done.
Qed.

Lemma unicastFrames_sessions userId message st st' :
  sessions st' = sessions st →
  unicastFrames userId message st' = unicastFrames userId message st.
Proof. intros Hs. unfold unicastFrames, liveSession. by rewrite Hs. Qed.

(** What the listener makes of a handler's completion. *)
Lemma onMessage_completes o message userId st c st1 :
  handleMessage o message userId st = (c, st1) →
  match c with
  | Returned _ => onMessage o (Some message) userId st = (Returned tt, st1)
  | Thrown =>
      ∃ st', onMessage o (Some message) userId st = (Returned tt, st')
             ∧ deliveryOnly st1 st'
             ∧ wire st' = wire st1
                          ++ unicastFrames userId (error "Invalid message format") st1
  end.
Proof.
  intros Hrun. unfold onMessage, tryCatch. rewrite Hrun. destruct c as [[]|]; [done|].
  destruct (sendToUser_full userId (error "Invalid message format") st1)
    as (st' & -> & Hd & Hwire & _).
  by exists st'.
Qed.

(** X18. A [reaction_add] on a message of the window, beyond the reaction
    map.  A key the message does not hold and that names a member of
    [Object.prototype] ([constructor], [toString], [__proto__] and the like)
    makes the handler throw before it writes: window, snapshot and table are
    as before, nothing is broadcast, and the sender is told 'Invalid message
    format'.  For any other key: if the user is already recorded under it,
    the frame is dropped in silence and the whole state, wire included, is as
    before.  Otherwise the reaction is recorded in the window and never in
    the table; when the snapshot put goes through, the snapshot is the new
    window and [reaction_added] goes to every live session, the sender's
    included; when the put is rejected, the reaction stays in the window,
    nothing is broadcast, and what the sender is told is 'Invalid message
    format'.  The listener does not throw. *)
Theorem reaction_add_outcomes o message userId st messageId reaction i m :
  reactionFrame "reaction_add" messageId reaction message →
  findIndex messageId (messages st) = Some (i, m) →
  let users := default [] (Message.reactions m !! reaction) in
  let st' := after (onMessage o (Some message) userId) st in
  fst (onMessage o (Some message) userId st) = Returned tt
  ∧ DB st' = DB st
  ∧ match readProperty reaction (Message.reactions m) with
    | Inherited =>
        deliveryOnly st st'
        ∧ wire st' = wire st ++ unicastFrames userId (error "Invalid message format") st
    | Own _ | Undefined =>
        (userId ∈ users → st' = st)
        ∧ (userId ∉ users →
             messages st'
             = <[i := Message.set_reactions (<[reaction := users ++ [userId]]>) m]>
                 (messages st)
             ∧ (putThrows o = false →
                  stored_messages (storage st') = Some (messages st')
                  ∧ wire st' = wire st
                      ++ broadcastFrames (reaction_added messageId reaction userId) None
                           (sessions st))
             ∧ (putThrows o = true →
                  storage st' = storage st
                  ∧ wire st' = wire st
                      ++ unicastFrames userId (error "Invalid message format") st))
    end.
Proof.
  intros (Htype & Hid & Hne & Hreaction & Hne') Hfound users st'. subst st'.
  destruct (handleReactionAdd_full o message userId st messageId reaction i m
              Hid Hne Hreaction Hne' Hfound)
    as (c & st1 & Hrun & _ & _ & _ & HDB & _ & _ & _ & Hwindow & Hcases).
  rewrite <- (handleMessage_reaction_add _ _ _ Htype) in Hrun.
  pose proof (onMessage_completes _ _ _ _ _ _ Hrun) as Hlistener.
  fold users in Hcases. unfold after.
  assert (Hrecorded :
    readProperty reaction (Message.reactions m) ≠ Inherited →
    (userId ∈ users → snd (onMessage o (Some message) userId st) = st)
    ∧ (userId ∉ users →
         messages (snd (onMessage o (Some message) userId st))
         = <[i := Message.set_reactions (<[reaction := users ++ [userId]]>) m]>
             (messages st)
         ∧ (putThrows o = false →
              stored_messages (storage (snd (onMessage o (Some message) userId st)))
              = Some (messages (snd (onMessage o (Some message) userId st)))
              ∧ wire (snd (onMessage o (Some message) userId st)) = wire st
                  ++ broadcastFrames (reaction_added messageId reaction userId) None
                       (sessions st))
         ∧ (putThrows o = true →
              storage (snd (onMessage o (Some message) userId st)) = storage st
              ∧ wire (snd (onMessage o (Some message) userId st)) = wire st
                  ++ unicastFrames userId (error "Invalid message format") st))).
  { intros Hplain.
    assert (Hmap : userId ∉ users →
                   Message.set_reactions (addReaction reaction userId) m
                   = Message.set_reactions (<[reaction := users ++ [userId]]>) m).
    { intros Hout. apply set_reactions_eq. subst users.
      destruct (Message.reactions m !! reaction) as [us|] eqn:Hkey; cbn [default] in *.
      - by apply addReaction_fresh.
      - apply addReaction_new_key; [done|]. intros Hproto. apply Hplain.
        by apply readProperty_Inherited. }
    assert (Hcases' :
      if bool_decide (userId ∈ users) then c = Returned tt ∧ st1 = st
      else if putThrows o
           then c = Thrown ∧ storage st1 = storage st ∧ wire st1 = wire st
                ∧ sessions st1 = sessions st
           else c = Returned tt
                ∧ stored_messages (storage st1) = Some (messages st1)
                ∧ wire st1 = wire st
                    ++ broadcastFrames (reaction_added messageId reaction userId) None
                         (sessions st)).
    { by destruct (readProperty reaction (Message.reactions m)). }
    clear Hcases. destruct (decide (userId ∈ users)) as [Hin|Hout].
    - rewrite bool_decide_eq_true_2 in Hcases' by done. destruct Hcases' as [-> ->].
      rewrite Hlistener. cbn [fst snd]. by split.
    - rewrite bool_decide_eq_false_2 in Hcases' by done.
      destruct (putThrows o).
      + destruct Hcases' as (-> & Hstorage & Hwire & Hsessions).
        destruct Hlistener as (st' & -> & Hd & Hwire'). cbn [fst snd].
        unfold deliveryOnly in Hd. destruct_and?.
        split; [done|]. intros _.
        split; [rewrite <- (Hmap Hout); congruence|]. split; [done|]. intros _.
        split; [congruence|].
        by rewrite Hwire', Hwire, (unicastFrames_sessions _ _ st st1).
      + destruct Hcases' as (-> & Hstored & Hwire). rewrite Hlistener. cbn [fst snd].
        split; [done|]. intros _.
        split; [by rewrite <- (Hmap Hout)|]. by split. }
  destruct (readProperty reaction (Message.reactions m)) eqn:Hread.
  - split; [by destruct c; [rewrite Hlistener|destruct Hlistener as (? & -> & _)]|].
    split; [|by apply Hrecorded].
    destruct c; [by rewrite Hlistener|].
    destruct Hlistener as (st' & -> & Hd & _). cbn [snd].
    unfold deliveryOnly in Hd. destruct_and?. congruence.
  - destruct Hcases as [-> ->].
    destruct Hlistener as (st' & -> & Hd & Hwire'). cbn [fst snd].
    split; [done|]. split; [by destruct Hd as (_ & _ & _ & _ & _ & _ & _ & ? & _)|].
    by split.
  - split; [by destruct c; [rewrite Hlistener|destruct Hlistener as (? & -> & _)]|].
    split; [|by apply Hrecorded].
    destruct c; [by rewrite Hlistener|].
    destruct Hlistener as (st' & -> & Hd & _). cbn [snd].
    unfold deliveryOnly in Hd. destruct_and?. congruence.
Qed.

Lemma handleReactionRemove_full o message userId st messageId reaction i m :
  WSMessage.messageId message = Some messageId → messageId ≠ "" →
  WSMessage.reaction message = Some reaction → reaction ≠ "" →
  findIndex messageId (messages st) = Some (i, m) →
  ∃ c st', handleReactionRemove o message userId st = (c, st')
    ∧ env st' = env st ∧ members st' = members st ∧ channelId st' = channelId st
    ∧ DB st' = DB st
    ∧ typingUsers st' = typingUsers st ∧ typingTimeouts st' = typingTimeouts st
    ∧ timers st' = timers st
    ∧ messages st' = <[i := Message.set_reactions (removeReaction reaction userId) m]>
                       (messages st)
    ∧ match readProperty reaction (Message.reactions m) with
      | Undefined => c = Returned tt ∧ st' = st
      | Inherited => c = Thrown ∧ st' = st
      | Own _ =>
          if putThrows o
          then c = Thrown ∧ storage st' = storage st ∧ wire st' = wire st
               ∧ sessions st' = sessions st
          else c = Returned tt
               ∧ stored_messages (storage st') = Some (messages st')
               ∧ wire st' = wire st
                   ++ broadcastFrames (reaction_removed messageId reaction userId) None
                        (sessions st)
      end.
Proof.
  intros Hid Hne Hreaction Hne' Hfound.
  destruct (handleReactionRemove_window o message userId st messageId reaction i m
              Hid Hne Hreaction Hne' Hfound) as (c & st' & Hrun & Hwindow).
  exists c, st'. split; [done|].
  cut (wp (handleReactionRemove o message userId) (λ c st',
    env st' = env st ∧ members st' = members st ∧ channelId st' = channelId st
    ∧ DB st' = DB st
    ∧ typingUsers st' = typingUsers st ∧ typingTimeouts st' = typingTimeouts st
    ∧ timers st' = timers st
    ∧ match readProperty reaction (Message.reactions m) with
      | Undefined => c = Returned tt ∧ st' = st
      | Inherited => c = Thrown ∧ st' = st
      | Own _ =>
          if putThrows o
          then c = Thrown ∧ storage st' = storage st ∧ wire st' = wire st
               ∧ sessions st' = sessions st
          else c = Returned tt
               ∧ stored_messages (storage st') = Some (messages st')
               ∧ wire st' = wire st
                   ++ broadcastFrames (reaction_removed messageId reaction userId) None
                        (sessions st)
      end) st).
  { unfold wp. rewrite Hrun. cbn [fst snd]. intros (? & ? & ? & ? & ? & ? & ? & ?).
    by repeat split. }
  clear c st' Hrun Hwindow. destruct (findIndex_lookup _ _ _ _ Hfound) as [Hi _].
  unfold handleReactionRemove. rewrite Hid, Hreaction. cbn [default].
  rewrite (truthy_Some _ Hne), (truthy_Some _ Hne'). cbn [negb orb]. wp_go.
  all: change (id messageId) with messageId in *; change (id reaction) with reaction in *.
  all: rewrite Hfound in *; simplify_eq.
  all: rewrite ?(reactionUsers_found _ _ _ _ Hi) in *.
  all: fields; bools.
  all: repeat match goal with
              | H : readProperty _ _ = _ |- _ => rewrite H
              | H : putThrows _ = _ |- _ => rewrite H
              end.
  all: try done.
  all: repeat split; try done; chain; done.
Qed.

Lemma removeReaction_absent reaction userId r users :
  r !! reaction = Some users → users ≠ [] → userId ∉ users →
  removeReaction reaction userId r = r.
Proof.
  intros Hkey Hne Hout. unfold removeReaction. rewrite Hkey. cbn zeta.
  rewrite (filter_out_absent _ _ Hout).
  destruct users; [done|]. cbn. by apply insert_id.
Qed.

(** X19. A [reaction_remove] on a message of the window, beyond the
    reaction map.  If the message has no list under the key, nothing is
    written and nothing broadcast: the frame is dropped in silence and the
    state is as before, unless the key names a member of [Object.prototype]
    ([constructor], [toString], [__proto__] and the like), in which case the
    handler throws at [filter] and the sender is told 'Invalid message
    format'.  If the message has a list, the snapshot is written and
    [reaction_removed] goes to every live session, whether or not the user
    was in the list: taking back a reaction one never gave changes no window
    entry and is announced all the same.  The table is never written; when
    the snapshot put is rejected nothing is broadcast and the sender is told
    'Invalid message format'.  The listener does not throw. *)
Theorem reaction_remove_outcomes o message userId st messageId reaction i m :
  reactionFrame "reaction_remove" messageId reaction message →
  findIndex messageId (messages st) = Some (i, m) →
  let st' := after (onMessage o (Some message) userId) st in
  fst (onMessage o (Some message) userId st) = Returned tt
  ∧ DB st' = DB st
  ∧ match readProperty reaction (Message.reactions m) with
    | Undefined => st' = st
    | Inherited =>
        deliveryOnly st st'
        ∧ wire st' = wire st ++ unicastFrames userId (error "Invalid message format") st
    | Own users =>
        messages st' = <[i := Message.set_reactions (removeReaction reaction userId) m]>
                         (messages st)
        ∧ (users ≠ [] → userId ∉ users → messages st' = messages st)
        ∧ (putThrows o = false →
             stored_messages (storage st') = Some (messages st')
             ∧ wire st' = wire st
                 ++ broadcastFrames (reaction_removed messageId reaction userId) None
                      (sessions st))
        ∧ (putThrows o = true →
             storage st' = storage st
             ∧ wire st' = wire st
                 ++ unicastFrames userId (error "Invalid message format") st)
    end.
Proof.
  intros (Htype & Hid & Hne & Hreaction & Hne') Hfound st'. subst st'.
  destruct (handleReactionRemove_full o message userId st messageId reaction i m
              Hid Hne Hreaction Hne' Hfound)
    as (c & st1 & Hrun & _ & _ & _ & HDB & _ & _ & _ & Hwindow & Hcases).
  rewrite <- (handleMessage_reaction_remove _ _ _ Htype) in Hrun.
  pose proof (onMessage_completes _ _ _ _ _ _ Hrun) as Hlistener.
  unfold after.
  destruct (findIndex_lookup _ _ _ _ Hfound) as [Hi _].
  assert (Hsame : ∀ users, Message.reactions m !! reaction = Some users →
                           users ≠ [] → userId ∉ users →
                           messages st1 = messages st).
  { intros users Hkey Hnonempty Hout. rewrite Hwindow.
    rewrite set_reactions_id by by eapply removeReaction_absent.
    by apply list_insert_id. }
  destruct (readProperty reaction (Message.reactions m)) as [users| |] eqn:Hread.
  - apply readProperty_Own in Hread. destruct (putThrows o).
    + destruct Hcases as (-> & Hstorage & Hwire & Hsessions).
      destruct Hlistener as (st' & -> & Hd & Hwire'). cbn [fst snd].
      unfold deliveryOnly in Hd. destruct_and?.
      split; [done|]. split; [congruence|].
      split; [congruence|].
      split; [intros ? ?; etrans; [eassumption|by eapply Hsame]|].
      split; [done|]. intros _. split; [congruence|].
      by rewrite Hwire', Hwire, (unicastFrames_sessions _ _ st st1).
    + destruct Hcases as (-> & Hstored & Hwire). rewrite Hlistener. cbn [fst snd].
      split; [done|]. split; [done|].
      split; [done|]. split; [by apply Hsame|]. by split.
  - destruct Hcases as [-> ->].
    destruct Hlistener as (st' & -> & Hd & Hwire'). cbn [fst snd].
    split; [done|]. split; [by destruct Hd as (_ & _ & _ & _ & _ & _ & _ & ? & _)|].
    by split.
  - destruct Hcases as [-> ->]. rewrite Hlistener. cbn [fst snd]. by repeat split.
Qed.

(** X26. Repeating a [reaction_add].  On a message of the window whose
    user list for the key names the user at most once, any non-empty run of
    adds by the user for that message and key leaves the reaction map a
    single add leaves, and one more add changes nothing.  If the message
    holds the key, or the key names no member of [Object.prototype], the
    user is then recorded under the key exactly once.  For a key the message
    does not hold and [Object.prototype] does, every add throws and the map
    stays as it was, with nobody recorded under the key. *)
Theorem reaction_add_repeated (adds : list (Oracle * WSMessage.t)) o message
    userId st messageId reaction r :
  Forall (λ a, reactionFrame "reaction_add" messageId reaction (snd a)) adds →
  reactionFrame "reaction_add" messageId reaction message →
  adds ≠ [] →
  reactionsOf messageId st = Some r →
  (reactionCount reaction userId r ≤ 1)%nat →
  let st' := run ((λ a, command (fst a) (snd a) userId) <$> adds) st in
  reactionsOf messageId st' = Some (addReaction reaction userId r)
  ∧ reactionsOf messageId (after (onMessage o (Some message) userId) st')
    = reactionsOf messageId st'
  ∧ match readProperty reaction r with
    | Own _ | Undefined => reactionCount reaction userId (addReaction reaction userId r) = 1
    | Inherited => addReaction reaction userId r = r ∧ reactionCount reaction userId r = 0
    end.
Proof.
  intros Hadds Hframe Hne Hr Hcount st'.
  assert (Hst' : reactionsOf messageId st' = Some (addReaction reaction userId r)).
  { subst st'. rewrite (reaction_adds_effect adds userId st _ _ _ Hadds Hr).
    by destruct adds. }
  split; [exact Hst'|]. split.
  { rewrite (reaction_add_effect o message userId st' _ _ _ Hframe Hst'), Hst'.
    by rewrite addReaction_idempotent. }
  destruct (readProperty reaction r) eqn:Hread.
  - apply addReaction_count; [by rewrite Hread|done].
  - apply readProperty_Inherited in Hread as [Hkey Hproto].
    split; [by apply addReaction_inherited|].
    unfold reactionCount. by rewrite Hkey.
  - apply addReaction_count; [by rewrite Hread|done].
Qed.

(** ** Cold start *)

Lemma construct_cases o e s db :
  let st := construct o e s db in
  let channel := storedChannelId s in
  env st = e ∧ DB st = db ∧ channelId st = channel ∧ members st = storedMembers s
  ∧ sessions st = [] ∧ typingUsers st = ∅ ∧ wire st = []
  ∧ match stored_messages s with
    | Some (m :: window) => messages st = m :: window ∧ storage st = s
    | _ =>
        if String.eqb channel "" || dbThrows o || putThrows o
        then messages st = [] ∧ storage st = s
        else messages st = List.map hydrateRow (reverse (sqlSelectRecent channel db))
             ∧ storage st = {| stored_messages := Some (messages st);
                               stored_channelId := stored_channelId s;
                               stored_members := stored_members s |}
    end.
Proof.
  unfold construct, storedChannelId, storedMembers.
  destruct (stored_messages s) as [[|m window]|]; cbn [orb];
    try (destruct (String.eqb (orElse (stored_channelId s) "") ""); cbn [orb]);
    try (destruct (dbThrows o || putThrows o)); cbn; by repeat split.
Qed.

(** X20. What a cold start makes of the storage and the table.  A
    non-empty snapshot is taken as the window, whatever the table says.
    Without one, and with a channel id in storage, the window is loaded from
    the table: at most 50 entries, in ascending timestamp order, each made
    from a row of the channel that is not deleted (with no reactions,
    attachments or mentions), and the newest such rows: a qualifying row is
    left out only when 50 are loaded and all are at least as new; the loaded
    window is written back as the snapshot.  With no channel id, or when the
    query or the write-back is rejected, the window is empty and the storage
    is left as it was.  No session, typing indicator or frame exists
    afterwards. *)
Theorem cold_start_window o e s db :
  let st := construct o e s db in
  let channel := storedChannelId s in
  (∀ m window, stored_messages s = Some (m :: window) →
               messages st = m :: window ∧ storage st = s)
  ∧ (stored_messages s = None ∨ stored_messages s = Some [] →
       (channel = "" ∨ dbThrows o = true ∨ putThrows o = true →
          messages st = [] ∧ storage st = s)
       ∧ (channel ≠ "" → dbThrows o = false → putThrows o = false →
            stored_messages (storage st) = Some (messages st)
            ∧ length (messages st) ≤ 50
            ∧ StronglySorted timestampLe (messages st)
            ∧ Forall (λ m, ∃ r, r ∈ db ∧ m = hydrateRow r ∧ DbRow.deleted r = false
                                ∧ DbRow.channelId r = channel
                                ∧ Message.reactions m = ∅ ∧ Message.attachments m = []
                                ∧ Message.mentions m = []) (messages st)
            ∧ (∀ r, r ∈ db → DbRow.channelId r = channel → DbRow.deleted r = false →
                 hydrateRow r ∈ messages st
                 ∨ (length (messages st) = 50
                    ∧ ∀ m, m ∈ messages st →
                        String.leb (DbRow.timestamp r) (Message.timestamp m) = true))))
  ∧ channelId st = channel ∧ members st = storedMembers s
  ∧ sessions st = [] ∧ typingUsers st = ∅ ∧ wire st = [].
Proof.
  intros st channel.
  destruct (construct_cases o e s db)
    as (_ & _ & Hchannel & Hmembers & Hsessions & Htyping & Hwire & Hcases).
  fold st channel in Hchannel, Hmembers, Hsessions, Htyping, Hwire, Hcases.
  split; [|split; [|done]].
  { intros m window Hs. by rewrite Hs in Hcases. }
  intros Hempty.
  assert (Hload : if String.eqb channel "" || dbThrows o || putThrows o
                  then messages st = [] ∧ storage st = s
                  else messages st = List.map hydrateRow (reverse (sqlSelectRecent channel db))
                       ∧ storage st = {| stored_messages := Some (messages st);
                                         stored_channelId := stored_channelId s;
                                         stored_members := stored_members s |}).
  { by destruct Hempty as [Hs|Hs]; rewrite Hs in Hcases. }
  clear Hcases. split.
  - intros Hfail.
    assert (String.eqb channel "" || dbThrows o || putThrows o = true) as Hguard.
    { destruct Hfail as [->|[->| ->]]; [done|by rewrite orb_true_r..]. }
    by rewrite Hguard in Hload.
  - intros Hne Hdb Hput. rewrite Hdb, Hput in Hload.
    apply String.eqb_neq in Hne. rewrite Hne in Hload. cbn [orb] in Hload.
    destruct Hload as [Hwindow Hstorage]. rewrite Hstorage. cbn [stored_messages].
    split; [done|]. rewrite Hwindow. unfold sqlSelectRecent.
    split; [|split; [|split]].
    + rewrite List.length_map, length_reverse. unfold sqlSelectHistory. cbn zeta.
      unfold sqlLimit. cbn. rewrite length_take. change (Pos.to_nat 50) with 50. lia.
    + apply Sorted_StronglySorted; [apply _|].
      apply (Sorted_fmap _ (flip timestampGe)); [by intros r1 r2|].
      apply Sorted_reverse, sqlSelectHistory_Sorted.
    + apply Forall_forall. intros m (r & <- & Hr)%list_elem_of_In%List.in_map_iff.
      apply list_elem_of_In in Hr. rewrite elem_of_reverse in Hr.
      apply sqlSelectHistory_sound in Hr as (Hr & Hc & Hd & _).
      exists r. by repeat split.
    + intros r Hr Hc Hd.
      destruct (sqlSelectHistory_complete channel None 50%Z db r Hr Hc Hd I)
        as [Hin|[Hfull Hnewer]].
      * left. apply list_elem_of_In, List.in_map_iff. exists r. split; [done|].
        apply list_elem_of_In. by rewrite elem_of_reverse.
      * right. split; [rewrite List.length_map, length_reverse; lia|].
        intros m (a & <- & Ha)%list_elem_of_In%List.in_map_iff.
        apply list_elem_of_In in Ha. rewrite elem_of_reverse in Ha. exact (Hnewer a Ha).
Qed.

(** ** Other users' messages *)

Lemma keepsOthers_same userId w w' : w' = w → keepsOthers userId w w'.
Proof.
  intros -> m Hm _. exists id. by rewrite set_reactions_id.
Qed.

Lemma keepsOthers_insert userId w i m0 m1 :
  w !! i = Some m0 →
  Message.userId m0 = userId ∨ (∃ g, m1 = Message.set_reactions g m0) →
  keepsOthers userId w (<[i := m1]> w).
Proof.
  intros Hi Hm1 m Hm Hother.
  apply list_elem_of_lookup in Hm as [j Hj].
  destruct (decide (i = j)) as [->|Hne].
  - assert (m = m0) as -> by congruence.
    destruct Hm1 as [?|[g ->]]; [done|]. exists g.
    eapply list_elem_of_lookup_2. apply list_lookup_insert_eq. by eapply lookup_lt_Some.
  - exists id. rewrite set_reactions_id by done.
    eapply list_elem_of_lookup_2. by rewrite list_lookup_insert_ne.
Qed.

Lemma keepsOthers_alter userId w i m0 f :
  w !! i = Some m0 →
  Message.userId m0 = userId ∨ (∃ g, f m0 = Message.set_reactions g m0) →
  keepsOthers userId w (alter f i w).
Proof. intros Hi Hf. rewrite (alter_found _ _ _ _ Hi). by eapply keepsOthers_insert. Qed.

Lemma keepsOthers_delete userId w i m0 :
  w !! i = Some m0 → Message.userId m0 = userId → keepsOthers userId w (delete i w).
Proof.
  intros Hi Hauthor m Hm Hother.
  apply list_elem_of_lookup in Hm as [j Hj].
  assert (i ≠ j) as Hne by (intros ->; congruence).
  exists id. rewrite set_reactions_id by done.
  destruct (decide (j < i)) as [Hlt|Hge].
  - eapply list_elem_of_lookup_2. by rewrite list_lookup_delete_lt.
  - apply (list_elem_of_lookup_2 _ (j - 1)). rewrite list_lookup_delete_ge by lia.
    by replace (S (j - 1)) with j by lia.
Qed.

Lemma keepsOthers_push userId w fresh :
  length w < 100 → keepsOthers userId w (trimWindow (w ++ [fresh])).
Proof.
  intros Hlen m Hm _. exists id. rewrite set_reactions_id by done.
  rewrite trimWindow_fits by (rewrite length_app; cbn; lia).
  apply elem_of_app. by left.
Qed.

Lemma keepsOthers_app userId w l : keepsOthers userId w (w ++ l).
Proof.
  intros m Hm _. exists id. rewrite set_reactions_id by done. apply elem_of_app. by left.
Qed.

Lemma alter_alter {A} (f g : A → A) i (l : list A) :
  alter f i (alter g i l) = alter (f ∘ g) i l.
Proof.
  revert i. induction l as [|x l IH]; intros [|i]; cbn; try done. by rewrite <- IH.
Qed.

Lemma set_reactions_compose f g m :
  Message.set_reactions f (Message.set_reactions g m) = Message.set_reactions (f ∘ g) m.
Proof. done. Qed.

Lemma handleMessage_keepsOthers o message userId st :
  length (messages st) < 100 →
  ∃ c st', handleMessage o message userId st = (c, st')
           ∧ keepsOthers userId (messages st) (messages st').
Proof.
  intros Hlen.
  cut (wp (handleMessage o message userId)
          (λ _ st', keepsOthers userId (messages st) (messages st')) st).
  { unfold wp. destruct (handleMessage o message userId st) as [c st'] eqn:Hrun.
    by exists c, st'. }
  unfold handleMessage, handleSendMessage, handleEditMessage, handleDeleteMessage,
    handleReactionAdd, handleReactionRemove, handleTypingStart.
  wp_go; fields; chain; cbn [messages set_messages]; try by apply keepsOthers_same.
  all: try match goal with
           | H : (100 <? _) = true |- _ =>
               apply Nat.ltb_lt in H; rewrite length_app in H; cbn in H; lia
           end.
  all: try apply keepsOthers_app.
  all: match goal with
       | H : findIndex _ _ = Some _ |- _ => destruct (findIndex_lookup _ _ _ _ H) as [Hi _]
       end.
  all: bools; rewrite ?alter_alter.
  all: first [ eapply keepsOthers_delete; [exact Hi|done]
             | eapply keepsOthers_alter; [exact Hi|];
               first [by left | right; cbn [compose]; rewrite ?set_reactions_compose;
                                 by eexists] ].
Qed.

Lemma onMessage_keepsOthers o parsed userId st :
  length (messages st) < 100 →
  keepsOthers userId (messages st) (messages (after (onMessage o parsed userId) st)).
Proof.
  intros Hlen. destruct parsed as [message|].
  - destruct (handleMessage_keepsOthers o message userId st Hlen) as (c & st' & Hrun & Hkeeps).
    by rewrite (onMessage_window _ _ _ _ _ _ Hrun).
  - unfold after, onMessage, tryCatch, throw.
    destruct (sendToUser_window userId (error "Invalid message format") st)
      as (st' & -> & Hm).
    by apply keepsOthers_same.
Qed.

(** Only the ['message'] listener changes the window. *)
Lemma dispatch_window e st :
  match e with
  | Received o parsed userId => True
  | _ => messages (after (dispatch e) st) = messages st
  end.
Proof.
  destruct e; [| done | ..]; apply wp_after; cbn [dispatch].
  - unfold handleWebSocket, handleSession. wp_go; fields; chain; by cbn.
  - unfold handleDisconnect. wp_go; fields; chain; by cbn.
  - unfold fireTimer. wp_go; fields; chain; by cbn.
  - unfold setChannelId. wp_go; fields; chain; by cbn.
Qed.

(** X21. Nobody can edit or delete somebody else's message.  Whatever
    event happens, unless it is a frame from the author, a message of the
    window is still in the window afterwards, with the same id, author,
    content, timestamp, edit marks, attachments and mentions: only its
    reactions may differ.  (The window is taken below its cap of 100, so that
    a send does not cut it back.) *)
Theorem others_messages_untouched e st m :
  m ∈ messages st → length (messages st) < 100 →
  (∀ o parsed, e ≠ Received o parsed (Message.userId m)) →
  ∃ reactions,
    Message.mk (Message.id m) (Message.channelId m) (Message.userId m) (Message.content m)
      (Message.timestamp m) (Message.edited m) (Message.editedAt m) (Message.deleted m)
      (Message.threadId m) (Message.replyTo m) (Message.attachments m) reactions
      (Message.mentions m) (Message.user m)
    ∈ messages (after (dispatch e) st).
Proof.
  intros Hm Hlen Hother.
  cut (∃ f, Message.set_reactions f m ∈ messages (after (dispatch e) st)).
  { intros [f Hf]. by exists (f (Message.reactions m)). }
  pose proof (dispatch_window e st) as Hwindow.
  destruct e as [| o parsed userId | | |];
    try (exists id; rewrite set_reactions_id by done; by rewrite Hwindow).
  cbn [dispatch]. apply (onMessage_keepsOthers o parsed userId st Hlen m Hm).
  intros Heq. apply (Hother o parsed). by rewrite Heq.
Qed.

(** ** The window in every reachable state *)

Lemma play_window events st :
  NoDup (uuids events ++ (Message.id <$> messages st)) →
  windowBounded (messages st) → windowReactionsWf (messages st) →
  windowBounded (messages (play events st))
  ∧ windowReactionsWf (messages (play events st))
  ∧ idsDistinct (messages (play events st)).
Proof.
  revert st. induction events as [|e events IH]; intros st Hnodup Hbounded Hwf.
  - cbn in *. by repeat split.
  - cbn [play]. pose proof (dispatch_window e st) as Hwindow.
    destruct e as [| o parsed userId | | |];
      try (apply IH; rewrite Hwindow; done).
    cbn [dispatch]. unfold uuids in Hnodup. cbn in Hnodup. fold (uuids events) in Hnodup.
    apply NoDup_cons in Hnodup as [Hfresh Hnodup].
    pose proof Hnodup as Hnodup'.
    apply NoDup_app in Hnodup' as (Hevents & Hdisjoint & Hids).
    pose proof (onMessage_step o parsed userId st) as Hstep.
    destruct (windowStep_ids _ _ _ Hstep) as [Hids' Hsub]; [done| |].
    { intros Hin. apply Hfresh, elem_of_app. by right. }
    apply IH.
    + apply NoDup_app. split; [done|]. split; [|done].
      intros x Hx Hx'. apply Hsub in Hx'. apply elem_of_cons in Hx' as [->|Hx'].
      * apply Hfresh, elem_of_app. by left.
      * by eapply Hdisjoint.
    + by eapply windowStep_bounded.
    + by eapply windowStep_reactionsWf.
Qed.

(** X22. The window of every reachable state is well formed.  After a cold
    start that finds no snapshot, and whatever events follow (each frame
    drawing a UUID that is neither in the table nor drawn before), the window
    holds at most 100 messages, no two with the same id, and under every
    reaction key of every message a list of users that is not empty and names
    nobody twice. *)
Theorem reachable_window_wellformed o e s db events :
  stored_messages s = None ∨ stored_messages s = Some [] →
  NoDup (uuids events ++ (DbRow.id <$> db)) →
  let st := play events (construct o e s db) in
  windowBounded (messages st)
  ∧ idsDistinct (messages st)
  ∧ Forall (λ m, ∀ reaction users, Message.reactions m !! reaction = Some users →
                   users ≠ [] ∧ NoDup users) (messages st).
Proof.
  intros Hstored Hnodup st. subst st.
  destruct (construct_window o e s db Hstored) as (rows & Hw & Hlen & Hsub & Hids).
  destruct (hydrated_invariants rows Hlen) as (Hbounded & Hwf & Hdistinct).
  apply NoDup_app in Hnodup as (Hevents & Hdisjoint & Hdb).
  destruct (play_window events (construct o e s db)) as (? & ? & ?);
    [|by rewrite Hw..|by repeat split].
  rewrite Hw. apply NoDup_app. split; [done|]. split.
  - intros x Hx Hx'. apply (Hdisjoint x Hx).
    rewrite <- list_fmap_compose in Hx'.
    apply list_elem_of_fmap in Hx' as (r & -> & Hr).
    apply list_elem_of_fmap. exists r. split; [done|]. by apply Hsub.
  - apply Hdistinct, Hids, Hdb.
Qed.

(** ** The listener and the connection route *)

(** X23. The ['message'] listener never throws, whatever the frame and
    whatever fails underneath.  A frame that does not parse is answered with
    'Invalid message format', a [ping] with [pong], and a frame of a type the
    switch does not know with 'Unknown message type': in each case that one
    frame to the sender is all that happens. *)
Theorem listener_replies o parsed userId st :
  fst (onMessage o parsed userId st) = Returned tt
  ∧ (parsed = None →
       onMessage o parsed userId st
       = sendToUser userId (error "Invalid message format") st)
  ∧ (∀ message, parsed = Some message → WSMessage.type message = "ping" →
       onMessage o parsed userId st = sendToUser userId pong st)
  ∧ (∀ message, parsed = Some message →
       WSMessage.type message
       ∉ ["send_message"; "edit_message"; "delete_message"; "typing_start";
          "typing_stop"; "reaction_add"; "reaction_remove"; "ping"] →
       onMessage o parsed userId st
       = sendToUser userId (error "Unknown message type") st).
Proof.
  assert (Hcaught : ∀ (reply : WSResponse),
            tryCatch (sendToUser userId reply)
                     (sendToUser userId (error "Invalid message format")) st
            = sendToUser userId reply st).
  { intros reply. unfold tryCatch.
    by destruct (sendToUser_full userId reply st) as (st' & -> & _). }
  split; [|split; [|split]].
  - unfold onMessage, tryCatch.
    destruct (match parsed with
              | Some message => handleMessage o message userId
              | None => throw
              end st) as [[[]|] st1]; [done|].
    apply sendToUser_returns.
  - by intros ->.
  - intros message -> Htype. unfold onMessage, handleMessage. rewrite Htype. cbn.
    apply Hcaught.
  - intros message -> Htype. unfold onMessage, handleMessage.
    repeat match goal with
           | |- context [String.eqb (WSMessage.type message) ?s] =>
               destruct (String.eqb_spec (WSMessage.type message) s) as [Heq|_];
               [exfalso; apply Htype; rewrite Heq; set_solver|]
           end.
    apply Hcaught.
Qed.

Lemma handleSession_returns ws userId st :
  handleSession ws userId st = (Returned tt, after (handleSession ws userId) st).
Proof.
  cut (wp (handleSession ws userId) (λ c _, c = Returned tt) st).
  { unfold wp, after. by destruct (handleSession ws userId st) as [c st']; cbn; intros ->. }
  unfold handleSession. by wp_go.
Qed.

(** X24. The connection route.  Without a [userId] parameter the answer is
    401 and nothing changes.  A user already in the directory is connected
    with the profile on record: neither the directory nor the storage is
    touched, whatever name the request carries.  A new user is entered with
    the decoded name and picture and the directory is written to storage
    before the session starts; if the name or the picture does not decode the
    request fails with the state untouched, and if the write is rejected it
    fails with the user in the directory but not in storage, no session
    registered and no frame sent. *)
Theorem connect_outcomes o decodeURIComponent server request st :
  let run := handleWebSocket o decodeURIComponent server request st in
  (truthy (queryUserId request) = false → run = (Returned 401, st))
  ∧ (∀ userId, queryUserId request = Some userId → userId ≠ "" →
       (is_Some (members st !! userId) →
          run = (Returned 101, after (handleSession server userId) st))
       ∧ (members st !! userId = None →
            match decodeURIComponent (orElse (queryUsername request) "User"),
                  decodeURIComponent (orElse (queryProfileImage request) "") with
            | Some name, Some avatar =>
                let member := ChannelMember.mk userId name avatar ChannelMember.online in
                let joined := set_members (<[userId := member]>) st in
                if putThrows o then run = (Thrown, joined)
                else
                  let persisted :=
                    set_storage (λ s, {| stored_messages := stored_messages s;
                                         stored_channelId := stored_channelId s;
                                         stored_members :=
                                           Some (map_to_list (members joined)) |})
                                joined in
                  run = (Returned 101, after (handleSession server userId) persisted)
                  ∧ storedMembers (storage persisted) = <[userId := member]> (members st)
            | _, _ => run = (Thrown, st)
            end)).
Proof.
  intros run.
  assert (Hrun : run = handleWebSocket o decodeURIComponent server request st) by done.
  clearbody run. split.
  - intros Hid. rewrite Hrun. unfold handleWebSocket. by rewrite Hid.
  - intros userId Hid Hne.
    assert (Hstart : run
              = ((match members st !! userId with
                  | Some _ => ret tt
                  | None =>
                      match decodeURIComponent (orElse (queryUsername request) "User"),
                            decodeURIComponent (orElse (queryProfileImage request) "") with
                      | Some name, Some avatar =>
                          modify (set_members
                                    (<[userId := ChannelMember.mk userId name avatar
                                                   ChannelMember.online]>)) ;;;
                          if putThrows o then throw
                          else modify (λ st, set_storage (λ s,
                                 {| stored_messages := stored_messages s;
                                    stored_channelId := stored_channelId s;
                                    stored_members := Some (map_to_list (members st)) |}) st)
                      | _, _ => throw
                      end
                  end) ;;; handleSession server userId ;;; ret 101) st).
    { rewrite Hrun. unfold handleWebSocket. rewrite Hid, (truthy_Some _ Hne).
      cbn [negb default from_option]. unfold Datatypes.id.
      unfold bind at 1. unfold bind at 1, gets at 1. done. }
    clear Hrun. split.
    + intros [member Hmember]. rewrite Hstart, Hmember. unfold bind at 1, ret at 1.
      unfold bind at 1. by rewrite handleSession_returns.
    + intros Hnew. rewrite Hstart, Hnew.
      destruct (decodeURIComponent (orElse (queryUsername request) "User")) as [name|];
        [|done].
      destruct (decodeURIComponent (orElse (queryProfileImage request) "")) as [avatar|];
        [|done].
      destruct (putThrows o); unfold bind, modify, throw; [done|].
      rewrite handleSession_returns.
      split; [done|]. unfold storedMembers. cbn.
      apply list_to_map_reverse_to_list.
Qed.

(** X25. What [send_message] accepts.  The content is accepted exactly
    when it is present, is not empty once trimmed, and, trimmed, is no longer
    than [MAX_MESSAGE_LENGTH]; when that setting is not a number no length is
    refused.  Anything else is answered with 'Message content is invalid or
    too long' to the sender, and neither the table, the window nor the
    snapshot is touched. *)
Theorem send_content_rule o message userId st :
  (validContent (env st) message = true
   ↔ ∃ c, WSMessage.content message = Some c ∧ trim c ≠ ""
          ∧ ∀ max, MAX_MESSAGE_LENGTH (env st) = Some max →
                   (Z.of_nat (String.length (trim c)) ≤ max)%Z)
  ∧ (validContent (env st) message = false →
       handleSendMessage o message userId st
       = sendToUser userId (error "Message content is invalid or too long") st
       ∧ storesKept st (after (handleSendMessage o message userId) st)).
Proof.
  split.
  - unfold validContent, tooLong. cbn zeta.
    destruct (WSMessage.content message) as [c|]; cbn.
    + destruct (String.eqb_spec (trim c) "") as [Hempty|Hne]; cbn.
      * split; [done|]. by intros (c' & [= <-] & ? & _).
      * destruct (MAX_MESSAGE_LENGTH (env st)) as [max|]; cbn.
        -- rewrite negb_true_iff, Z.ltb_ge. split.
           ++ intros Hle. exists c. split; [done|]. split; [done|]. by intros ? [= <-].
           ++ intros (c' & [= <-] & _ & Hle). by apply Hle.
        -- split; [|done]. intros _. exists c. by repeat split.
    + split; [done|]. by intros (c & ? & _).
  - intros Hinvalid.
    assert (Hrun : handleSendMessage o message userId st
                   = sendToUser userId (error "Message content is invalid or too long") st).
    { unfold handleSendMessage. cbn zeta. unfold bind at 1, gets at 1.
      unfold validContent in Hinvalid. cbn zeta in Hinvalid.
      destruct (truthy (trim <$> WSMessage.content message)); [|done].
      cbn in *. by apply negb_false_iff in Hinvalid as ->. }
    split; [done|]. unfold after. rewrite Hrun.
    destruct (sendToUser_full userId (error "Message content is invalid or too long") st)
      as (st' & -> & Hd & _).
    unfold deliveryOnly in Hd. unfold storesKept. cbn. by destruct_and!.
Qed.
(** * The theorems at work on the example room *)

Import Example.

Lemma send_insert_failure_aborts_witness :
  validContent (env quiet) sendHi = true
  ∧ dbThrows dbDown = true
  ∧ let failed := error "Failed to send message" in
    let st' := after (handleSendMessage dbDown sendHi "alice") quiet in
    handleSendMessage dbDown sendHi "alice" quiet = sendToUser "alice" failed quiet
    ∧ messages st' = messages quiet
    ∧ storage st' = storage quiet
    ∧ DB st' = DB quiet
    ∧ typingUsers st' = typingUsers quiet
    ∧ wire st' = wire quiet
                 ++ (if liveSession "alice" quiet then [("alice", failed)] else []).
Proof.
  split; [reflexivity|]. split; [reflexivity|].
  exact (send_insert_failure_aborts dbDown sendHi "alice" quiet eq_refl eq_refl).
Defined.

Lemma burst_goes_through : Forall (goesThrough (env quiet)) burst.
Proof. apply Forall_fmap, Forall_forall. intros n _. by repeat split. Qed.

Lemma window_overflow_trim_witness :
  validContent (env quiet) sendHi = true
  ∧ dbThrows fine = false
  ∧ messages (run (sendCommand <$> burst) quiet) = created quiet <$> sliceLast 50 burst
  ∧ length (messages (run (sendCommand <$> burst) quiet)) = 50.
Proof.
  split; [reflexivity|]. split; [reflexivity|].
  apply (window_overflow_trim fine sendHi "alice" quiet burst [] eq_refl eq_refl);
    [reflexivity|reflexivity|exact burst_goes_through].
Defined.

Lemma delete_by_author_witness :
  let st' := after (handleDeleteMessage fine deleteHello "alice") busy in
  DB st' = [DbRow.set_deleted helloRow]
  ∧ messages st' = []
  ∧ wire st' = [("alice", message_deleted "m1"); ("bob", message_deleted "m1")].
Proof.
  destruct (delete_by_author fine deleteHello "alice" busy "m1" hello)
    as (HDB & _ & _ & _ & _ & _ & Hwire).
  - reflexivity.
  - discriminate.
  - by left.
  - reflexivity.
  - reflexivity.
  - repeat constructor. by intros ?%elem_of_nil.
  - reflexivity.
  - reflexivity.
  - cbn zeta. rewrite HDB, Hwire. by repeat split.
Defined.

Lemma history_fetch_witness :
  let result := getMessages fine {| limit := Some 1%Z; before := Some "2025" |} busy in
  Forall (λ m, Message.deleted m = false ∧ Message.channelId m = "general") result
  ∧ Forall (λ m, String.ltb (Message.timestamp m) "2025" = true) result
  ∧ (Z.of_nat (length result) ≤ 1)%Z
  ∧ StronglySorted timestampLe result.
Proof.
  destruct (history_fetch fine {| limit := Some 1%Z; before := Some "2025" |} busy)
    as (_ & Hkept & Hbefore & Hlimit & _ & Hsorted).
  split; [exact Hkept|]. split; [by apply Hbefore|].
  split; [by apply Hlimit|exact Hsorted].
Defined.

Lemma edit_rejected_witness :
  let st' := after (handleEditMessage fine editHello "bob") busy in
  messages st' = [hello]
  ∧ wire st' = [("bob", error "Message not found or unauthorized")].
Proof.
  destruct (edit_rejected fine editHello "bob" busy "m1") as (_ & Hwindow & _ & _ & Hwire).
  - reflexivity.
  - right. exists 0, hello. split; [reflexivity|discriminate].
  - cbn zeta. by rewrite Hwindow, Hwire.
Defined.

Lemma reaction_roundtrip_witness :
  reactionsOf "m1" busy = Some {[ "+1" := ["bob"] ]}
  ∧ reactionsOf "m1" (run [command fine addPlus "alice"; command fine removePlus "alice"] busy)
    = Some {[ "+1" := ["bob"] ]}.
Proof.
  split; [reflexivity|].
  apply (reaction_roundtrip fine fine addPlus removePlus "alice" busy "m1" "+1").
  - repeat split; discriminate.
  - repeat split; discriminate.
  - reflexivity.
  - cbn. apply not_elem_of_cons. split; [discriminate|apply not_elem_of_nil].
  - discriminate.
Defined.

(** Without the side condition the round trip fails: when the user had
    already reacted, the add changes nothing and the remove then takes the
    earlier reaction away. *)
Lemma reaction_roundtrip_counterexample :
  let st' := run [command fine addPlus "bob"; command fine removePlus "bob"] busy in
  reactionsOf "m1" busy = Some {[ "+1" := ["bob"] ]}
  ∧ reactionsOf "m1" st' = Some ∅
  ∧ reactionsOf "m1" st' ≠ reactionsOf "m1" busy.
Proof.
  cbn zeta.
  assert (Hafter : reactionsOf "m1"
            (run [command fine addPlus "bob"; command fine removePlus "bob"] busy)
          = Some ∅) by (by vm_compute).
  split; [reflexivity|]. split; [exact Hafter|].
  rewrite Hafter. intros Heq.
  apply (f_equal (λ found : option (gmap string (list string)),
                    found ≫= λ r, r !! "+1")) in Heq.
  vm_compute in Heq. discriminate Heq.
Qed.

Lemma unknown_message_id_witness :
  let notFound := error "Message not found or unauthorized" in
  handleDeleteMessage fine addToUnknown "alice" busy = sendToUser "alice" notFound busy
  ∧ wire (after (sendToUser "alice" notFound) busy) = [("alice", notFound)]
  ∧ handleReactionAdd fine addToUnknown "alice" busy = (Returned tt, busy).
Proof.
  destruct (unknown_message_id fine addToUnknown "alice" busy "m9")
    as (_ & Hdelete & Hwire & Hadd & _).
  - reflexivity.
  - discriminate.
  - repeat constructor. discriminate.
  - cbn zeta. by rewrite Hdelete, Hwire, Hadd.
Defined.

(** No error event for reactions: a [reaction_add] naming a message that is
    not in the window puts nothing on the wire, although the sender's session
    is live. *)
Lemma unknown_message_id_counterexample :
  liveSession "alice" busy = true
  ∧ Forall (λ m, Message.id m ≠ "m9") (messages busy)
  ∧ wire (after (onMessage fine (Some addToUnknown) "alice") busy) = [].
Proof.
  split; [reflexivity|]. split; [|reflexivity].
  repeat constructor. discriminate.
Qed.

Lemma typing_start_while_typing_witness :
  "bob" ∈ typingUsers bobTyping
  ∧ onMessage fine (Some typing) "bob" bobTyping = (Returned tt, bobTyping).
Proof.
  assert (Htyping : "bob" ∈ typingUsers bobTyping) by (cbn; set_solver).
  split; [exact Htyping|].
  exact (proj2 (typing_start_while_typing fine typing "bob" bobTyping eq_refl Htyping)).
Defined.

Lemma send_reaches_every_session_witness :
  let fresh := newMessage fine sendHi "alice" (contentOf sendHi) quiet in
  let st' := after (handleSendMessage fine sendHi "alice") quiet in
  ("alice", new_message fresh) ∈ wire st' ∧ ("bob", new_message fresh) ∈ wire st'.
Proof.
  destruct (send_reaches_every_session fine sendHi "alice" quiet eq_refl eq_refl eq_refl)
    as (_ & Hall & Hsender).
  cbn zeta. split; [by apply Hsender|].
  apply (Hall "bob" socket); [|reflexivity..]. right. by left.
Defined.

(** ** The further properties at work *)

Import Scene.

Lemma quiet_registryWf : registryWf quiet.
Proof. unfold registryWf. cbn. by apply (bool_decide_unpack _). Qed.

Lemma busy_registryWf : registryWf busy.
Proof. exact quiet_registryWf. Qed.

Lemma crowded_registryWf : registryWf crowded.
Proof. unfold registryWf. cbn. by apply (bool_decide_unpack _). Qed.

Lemma typingWf_empty st :
  typingUsers st = ∅ → typingTimeouts st = ∅ → timers st = ∅ → 0 < nextTimer st →
  typingWf st.
Proof.
  intros HU HT HP HN. unfold typingWf. rewrite HU, HT, HP.
  split; [|split; [|split; [|done]]].
  - intros u. rewrite lookup_empty. split; [by intros ?%elem_of_empty|by intros [? ?]].
  - intros u h. by rewrite lookup_empty.
  - intros h u. by rewrite lookup_empty.
Qed.

Lemma quiet_typingWf : typingWf quiet.
Proof. apply typingWf_empty; cbn; done || lia. Qed.

Lemma busy_typingWf : typingWf busy.
Proof. apply typingWf_empty; cbn; done || lia. Qed.

Lemma bobTyping_typingWf : typingWf bobTyping.
Proof.
  apply (typingWf_started "bob" busy).
  - apply busy_typingWf.
  - by intros ?%elem_of_empty.
  - cbn. by rewrite union_empty_l_L.
  - done.
  - done.
  - done.
Qed.

Lemma broadcast_isolates_failures_witness :
  let st' := after (broadcast pong None) crowded in
  wire st' = [("alice", pong)]
  ∧ sessions st' = [("alice", socket); ("carol", closing)].
Proof.
  destruct (broadcast_isolates_failures pong None crowded crowded_registryWf)
    as (_ & _ & Hwire & Hsessions & _).
  cbn zeta. by rewrite Hwire, Hsessions.
Defined.

Lemma typing_start_when_idle_witness :
  let st' := after (handleTypingStart "alice") quiet in
  typingUsers st' = ∅ ∪ {["alice"]}
  ∧ typingTimeouts st' = <["alice" := 1]> ∅
  ∧ timers st' = <[1 := "alice"]> ∅
  ∧ wire st' = [("bob", typing_start "alice")].
Proof.
  destruct (typing_start_when_idle "alice" quiet quiet_typingWf)
    as (_ & _ & HU & HT & _ & HP & Hwire & _).
  - by intros ?%elem_of_empty.
  - cbn zeta. by rewrite HU, HT, HP, Hwire.
Defined.

Lemma typing_start_stop_roundtrip_witness :
  let st2 := after (handleTypingStop "alice") (after (handleTypingStart "alice") quiet) in
  typingUsers st2 = ∅ ∧ typingTimeouts st2 = ∅ ∧ timers st2 = ∅ ∧ nextTimer st2 = 2
  ∧ fireTimer 1 st2 = (Returned tt, st2).
Proof.
  destruct (typing_start_stop_roundtrip "alice" quiet quiet_typingWf)
    as (HU & HT & HP & HN & _ & _ & Hfire).
  - by intros ?%elem_of_empty.
  - cbn zeta. by rewrite HU, HT, HP, HN.
Defined.

Lemma typing_timer_expiry_witness :
  timers bobTyping !! 1 = Some "bob"
  ∧ let st' := after (fireTimer 1) bobTyping in
    typingUsers st' = {["bob"]} ∖ {["bob"]}
    ∧ wire st' = [("alice", typing_stop "bob")]
    ∧ fireTimer 1 st' = (Returned tt, st').
Proof.
  split; [reflexivity|].
  destruct (typing_timer_expiry 1 "bob" bobTyping bobTyping_typingWf eq_refl)
    as (_ & HU & _ & _ & _ & Hwire & _ & Hagain).
  cbn zeta. by rewrite HU, Hwire.
Defined.

Lemma session_join_witness :
  let st' := after (handleSession socket "carol") busy in
  wire st' = [("carol", init [hello]);
              ("carol", user_list [UserInfo.mk "alice" "User" ""; UserInfo.mk "bob" "User" "";
                                   UserInfo.mk "carol" "User" ""]);
              ("alice", user_joined (UserInfo.mk "carol" "User" ""));
              ("bob", user_joined (UserInfo.mk "carol" "User" ""))]
  ∧ Map_get "carol" (sessions st') = Some socket.
Proof.
  destruct (session_join socket "carol" busy busy_registryWf eq_refl eq_refl)
    as (_ & _ & Hwire & Hget & _).
  cbn zeta. by rewrite Hwire, Hget.
Defined.

Lemma bob_is_typing : "bob" ∈ typingUsers bobTyping.
Proof. by apply (bool_decide_unpack _). Qed.

Lemma disconnect_cleans_up_witness :
  let st' := after (handleDisconnect "bob") bobTyping in
  Map_get "bob" (sessions st') = None
  ∧ typingUsers st' = {["bob"]} ∖ {["bob"]}
  ∧ wire st' = [("alice", typing_stop "bob"); ("alice", user_left "bob")].
Proof.
  destruct (disconnect_cleans_up "bob" bobTyping busy_registryWf bobTyping_typingWf)
    as (_ & _ & Hget & _ & _ & HU & _ & _ & Hwire & _).
  cbn zeta. rewrite Hget, HU, Hwire. split; [done|]. split; [done|].
  by rewrite (bool_decide_eq_true_2 _ bob_is_typing).
Defined.

Lemma morning_puts : Forall putsSucceed morning.
Proof. by repeat constructor. Qed.

Lemma restart_restores_witness :
  let st := play morning fresh in
  let st' := construct dbDown (env st) (storage st) (DB st) in
  channelId st' = channelId st ∧ members st' = members st.
Proof.
  destruct (restart_restores fine {| MAX_MESSAGE_LENGTH := Some 2000%Z |} blank [] morning
              dbDown morning_puts) as (Hchannel & Hmembers & _).
  by split.
Defined.

Lemma member_profile_permanent_witness :
  members joined !! "carol" = Some carolRecord
  ∧ members (play [mallory; Closed "carol"; mallory] joined) !! "carol" = Some carolRecord.
Proof.
  assert (Hmember : members joined !! "carol" = Some carolRecord)
    by apply lookup_insert_eq.
  split; [exact Hmember|].
  exact (member_profile_permanent [mallory; Closed "carol"; mallory] "carol" carolRecord
           joined Hmember).
Defined.

Lemma send_put_failure_partial_witness :
  let st' := after (handleSendMessage putDown sendHi "alice") quiet in
  length (DB st') = 1 ∧ length (messages st') = 1
  ∧ storage st' = storage quiet
  ∧ wire st' = [("alice", error "Failed to send message")].
Proof.
  destruct (send_put_failure_partial putDown sendHi "alice" quiet eq_refl eq_refl eq_refl)
    as (_ & HDB & Hwindow & Hstorage & _ & _ & _ & Hwire & _).
  cbn zeta. by rewrite HDB, Hwindow, Hstorage, Hwire.
Defined.

Lemma send_stores_and_stops_typing_witness :
  let st' := after (handleSendMessage fine sendHi "bob") bobTyping in
  let sent := newMessage fine sendHi "bob" "hi" bobTyping in
  length (DB st') = 2
  ∧ messages st' = [hello; sent]
  ∧ stored_messages (storage st') = Some [hello; sent]
  ∧ typingUsers st' = {["bob"]} ∖ {["bob"]}
  ∧ wire st' = [("alice", new_message sent); ("bob", new_message sent);
                ("alice", typing_stop "bob")].
Proof.
  destruct (send_stores_and_stops_typing fine sendHi "bob" bobTyping busy_registryWf
              bobTyping_typingWf eq_refl eq_refl eq_refl)
    as (HDB & Hwindow & Hstored & _ & HU & _ & _ & Hwire & _).
  cbn zeta. rewrite Hstored, Hwindow, HDB, HU, Hwire.
  by rewrite (bool_decide_eq_true_2 _ bob_is_typing).
Defined.

Lemma history_returns_newest_witness :
  rowToMessage None helloRow
  ∈ getMessages fine {| limit := Some 1%Z; before := Some "2025" |} busy.
Proof.
  destruct (history_returns_newest fine {| limit := Some 1%Z; before := Some "2025" |}
              busy helloRow eq_refl) as [Hin|[_ Hnewer]].
  - by left.
  - reflexivity.
  - reflexivity.
  - by intros b [= <-] _.
  - exact Hin.
  - by left.
Defined.

Lemma sent_message_in_history_witness :
  ∃ m, m ∈ getMessages fine {| limit := None; before := None |}
             (after (handleSendMessage putDown sendHi "alice") busy)
       ∧ Message.id m = "m2" ∧ Message.content m = "hi" ∧ Message.userId m = "alice".
Proof.
  destruct (sent_message_in_history putDown sendHi "alice" busy fine
              {| limit := None; before := None |} eq_refl eq_refl eq_refl)
    as (m & Hin & Hid & _ & Huser & Hcontent & _).
  - intros r ->%list_elem_of_singleton _. reflexivity.
  - discriminate.
  - discriminate.
  - exists m. by repeat split.
Defined.

Lemma edit_by_author_witness :
  let st' := after (handleEditMessage fine editHello "alice") busy in
  let edited := Message.edit "hacked" "2024-05-01T10:00:01.000Z" hello in
  messages st' = [edited]
  ∧ stored_messages (storage st') = Some [edited]
  ∧ wire st' = [("alice", message_edited edited); ("bob", message_edited edited)].
Proof.
  destruct (edit_by_author fine editHello "alice" busy "m1" 0 hello)
    as (_ & _ & _ & _ & _ & _ & _ & Hok).
  - reflexivity.
  - discriminate.
  - reflexivity.
  - reflexivity.
  - reflexivity.
  - destruct (Hok eq_refl) as (_ & Hwindow & _ & _ & Hput).
    destruct (Hput eq_refl) as [Hstored Hwire].
    cbn zeta. by rewrite Hstored, Hwindow, Hwire.
Defined.

Lemma delete_write_failures_witness :
  let st' := after (handleDeleteMessage putDown deleteHello "alice") busy in
  messages st' = [] ∧ DB st' = [DbRow.set_deleted helloRow]
  ∧ storage st' = storage busy
  ∧ wire st' = [("alice", error "Failed to delete message")].
Proof.
  destruct (delete_write_failures putDown deleteHello "alice" busy "m1" 0 hello)
    as (_ & Hstorage & Hwire & _ & Hpartial).
  - reflexivity.
  - discriminate.
  - reflexivity.
  - reflexivity.
  - by right.
  - destruct (Hpartial eq_refl) as (HDB & Hwindow & _).
    cbn zeta. by rewrite Hwindow, HDB, Hstorage, Hwire.
Defined.

Lemma deleted_message_stays_out_witness :
  Forall (λ m, Message.id m ≠ "m1")
    (getMessages fine {| limit := None; before := None |}
       (after (handleDeleteMessage fine deleteHello "alice") busy)).
Proof.
  destruct (deleted_message_stays_out fine deleteHello "alice" busy "m1" 0 hello)
    as [Hhistory _].
  - reflexivity.
  - discriminate.
  - reflexivity.
  - reflexivity.
  - reflexivity.
  - by intros r ->%list_elem_of_singleton _.
  - apply Forall_forall. exact (Hhistory fine {| limit := None; before := None |}).
Defined.

Lemma reaction_add_outcomes_witness :
  after (onMessage fine (Some addPlus) "bob") busy = busy
  ∧ (let st' := after (onMessage putDown (Some addPlus) "alice") busy in
     messages st' = [Message.set_reactions (<["+1" := ["bob"; "alice"]]>) hello]
     ∧ storage st' = storage busy
     ∧ wire st' = [("alice", error "Invalid message format")])
  ∧ (let st' := after (onMessage fine (Some addConstructor) "alice") busy in
     messages st' = [hello]
     ∧ wire st' = [("alice", error "Invalid message format")]).
Proof.
  assert (Hframe : reactionFrame "reaction_add" "m1" "+1" addPlus)
    by (repeat split; discriminate).
  assert (Hinherited : reactionFrame "reaction_add" "m1" "constructor" addConstructor)
    by (repeat split; discriminate).
  split; [|split].
  - destruct (reaction_add_outcomes fine addPlus "bob" busy "m1" "+1" 0 hello Hframe eq_refl)
      as (_ & _ & Hsilent & _).
    apply Hsilent. by left.
  - destruct (reaction_add_outcomes putDown addPlus "alice" busy "m1" "+1" 0 hello
                Hframe eq_refl) as (_ & _ & _ & Hnew).
    destruct Hnew as (Hwindow & _ & Hfail).
    + by intros [[=]|?%elem_of_nil]%elem_of_cons.
    + destruct (Hfail eq_refl) as [Hstorage Hwire].
      cbn zeta. by rewrite Hwindow, Hstorage, Hwire.
  - destruct (reaction_add_outcomes fine addConstructor "alice" busy "m1" "constructor" 0
                hello Hinherited eq_refl) as (_ & _ & Hkept & Hwire).
    destruct Hkept as (_ & _ & Hwindow & _).
    cbn zeta. by rewrite Hwindow, Hwire.
Defined.

Lemma reaction_remove_outcomes_witness :
  (let st' := after (onMessage fine (Some removePlus) "alice") busy in
   messages st' = messages busy
   ∧ wire st' = [("alice", reaction_removed "m1" "+1" "alice");
                 ("bob", reaction_removed "m1" "+1" "alice")])
  ∧ (let st' := after (onMessage fine (Some removeConstructor) "alice") busy in
     messages st' = [hello]
     ∧ wire st' = [("alice", error "Invalid message format")]).
Proof.
  assert (Hframe : reactionFrame "reaction_remove" "m1" "+1" removePlus)
    by (repeat split; discriminate).
  assert (Hinherited :
            reactionFrame "reaction_remove" "m1" "constructor" removeConstructor)
    by (repeat split; discriminate).
  split.
  - destruct (reaction_remove_outcomes fine removePlus "alice" busy "m1" "+1" 0 hello
                Hframe eq_refl) as (_ & _ & _ & Hsame & Hok & _).
    destruct (Hok eq_refl) as [_ Hwire].
    cbn zeta. rewrite Hwire. split; [|done].
    apply Hsame; [done|]. by intros [=]%list_elem_of_singleton.
  - destruct (reaction_remove_outcomes fine removeConstructor "alice" busy "m1"
                "constructor" 0 hello Hinherited eq_refl) as (_ & _ & Hkept & Hwire).
    destruct Hkept as (_ & _ & Hwindow & _).
    cbn zeta. by rewrite Hwindow, Hwire.
Defined.

Lemma reaction_add_repeated_witness :
  let st' := run [command fine addPlus "alice"; command fine addPlus "alice"] busy in
  reactionsOf "m1" st' = Some (addReaction "+1" "alice" {[ "+1" := ["bob"] ]})
  ∧ reactionsOf "m1" (after (onMessage fine (Some addPlus) "alice") st')
    = reactionsOf "m1" st'
  ∧ reactionCount "+1" "alice" (addReaction "+1" "alice" {[ "+1" := ["bob"] ]}) = 1.
Proof.
  apply (reaction_add_repeated [(fine, addPlus); (fine, addPlus)] fine addPlus
           "alice" busy "m1" "+1").
  - repeat constructor; discriminate.
  - repeat split; discriminate.
  - discriminate.
  - reflexivity.
  - vm_compute. lia.
Defined.

Lemma others_messages_untouched_witness :
  ∃ reactions,
    Message.mk "m1" "general" "alice" "hello" "2024-05-01T10:00:00.000Z" false None false
      None None [] reactions [] (UserInfo.mk "alice" "User" "")
    ∈ messages (after (dispatch (Received fine (Some editHello) "bob")) busy).
Proof.
  apply (others_messages_untouched (Received fine (Some editHello) "bob") busy hello).
  - by left.
  - cbn. lia.
  - intros o parsed. discriminate.
Defined.

Lemma reachable_window_wellformed_witness :
  let st := play morning fresh in
  length (messages st) ≤ 100 ∧ NoDup (Message.id <$> messages st).
Proof.
  destruct (reachable_window_wellformed fine {| MAX_MESSAGE_LENGTH := Some 2000%Z |} blank []
              morning) as (Hbounded & Hids & _).
  - by left.
  - by apply (bool_decide_unpack _).
  - by split.
Defined.
